(** * riftboundtcg-scrapper: a shallow embedding of [main.py]

    The development follows the script top-down: the Python built-ins it
    relies on ([str] methods, integer formatting), the parts of
    [urllib.parse], [re] and [pathlib] it calls, then the script's own
    functions [parse_srcset], [extract_image_urls], [file_ext_for_url],
    [detect_prefix], [download_images], [try_head] and
    [fallback_guess_by_prefixes], and finally the properties proved about
    them.

    Conventions of the embedding.
    - A Python [str] is a Rocq [string]; a character is a code point below
      256, and every character predicate below ([isspace], [lower], the
      regular-expression classes) is CPython's on that range.
    - Python [int] is [Z].
    - [dict] and [set] are stdpp's [gmap] and [gset].
    - A raised exception is the [Raise] constructor of [result].
    - The network and the HTML parser are not part of the script: they are
      Section variables.  The network threads an abstract [World], so two
      requests for one URL may be answered differently.
    - [str.format] is followed through its scanner and the plain field
      [{code}]; what a field with a conversion, a format specification or
      a lookup gives is a Section variable too.
    - Filesystem calls are recorded in an event trace in program order and
      are taken to succeed.  Console output is not modelled. *)

From Stdlib Require Import ZArith String Ascii List Lia DecimalString DecimalN DecimalPos.
From stdpp Require Import base gmap strings list sorting.

Open Scope string_scope.
Open Scope list_scope.

(** ** Python built-ins *)

Module Py.

Definition ord (c : ascii) : N := N_of_ascii c.

Definition in_range (lo hi : N) (c : ascii) : bool :=
  ((lo <=? ord c) && (ord c <=? hi))%N.

(** [str.isspace] on one character. *)
Definition isspace (c : ascii) : bool :=
  in_range 9 13 c || in_range 28 32 c
  || (ord c =? 133)%N || (ord c =? 160)%N.

(** [str.lower] on one character. *)
Definition lower_char (c : ascii) : ascii :=
  if in_range 65 90 c || (in_range 192 222 c && negb (ord c =? 215)%N)
  then ascii_of_N (ord c + 32)
  else c.

Fixpoint lower (s : string) : string :=
  match s with
  | EmptyString => EmptyString
  | String c s' => String (lower_char c) (lower s')
  end.

(** [bool(s)] for a string: non-empty. *)
Definition truthy (s : string) : bool :=
  match s with EmptyString => false | String _ _ => true end.

Fixpoint lstrip_chars (p : ascii -> bool) (s : string) : string :=
  match s with
  | EmptyString => EmptyString
  | String c s' => if p c then lstrip_chars p s' else s
  end.

Fixpoint rstrip_chars (p : ascii -> bool) (s : string) : string :=
  match s with
  | EmptyString => EmptyString
  | String c s' =>
      match rstrip_chars p s' with
      | EmptyString => if p c then EmptyString else String c EmptyString
      | r => String c r
      end
  end.

(** [s.strip()] *)
Definition strip (s : string) : string :=
  rstrip_chars isspace (lstrip_chars isspace s).

(** [s.lstrip(c)] for a one-character argument. *)
Definition lstrip_char (c : ascii) (s : string) : string :=
  lstrip_chars (Ascii.eqb c) s.

(** [s.split(sep)] for a one-character separator: never the empty
    list, empty fields are kept. *)
Fixpoint split (sep : ascii) (s : string) : list string :=
  match s with
  | EmptyString => [EmptyString]
  | String c s' =>
      if Ascii.eqb c sep then EmptyString :: split sep s'
      else match split sep s' with
           | h :: t => String c h :: t
           | [] => [String c EmptyString]
           end
  end.

(** [sep.join(l)] *)
Fixpoint join (sep : string) (l : list string) : string :=
  match l with
  | [] => EmptyString
  | [x] => x
  | x :: l' => x +:+ sep +:+ join sep l'
  end.

Definition startswith (s p : string) : bool := String.prefix p s.

Fixpoint drop (n : nat) (s : string) : string :=
  match n, s with
  | O, _ => s
  | S n', String _ s' => drop n' s'
  | S _, EmptyString => EmptyString
  end.

Fixpoint take (n : nat) (s : string) : string :=
  match n, s with
  | S n', String c s' => String c (take n' s')
  | _, _ => EmptyString
  end.

Definition endswith (s suf : string) : bool :=
  (String.length suf <=? String.length s)%nat
  && String.eqb (drop (String.length s - String.length suf) s) suf.

(** [c in s] *)
Fixpoint contains (c : ascii) (s : string) : bool :=
  match s with
  | EmptyString => false
  | String d s' => Ascii.eqb d c || contains c s'
  end.

(** [s.find(c)]: [None] stands for Python's -1. *)
Fixpoint find (c : ascii) (s : string) : option nat :=
  match s with
  | EmptyString => None
  | String d s' => if Ascii.eqb d c then Some O else S <$> find c s'
  end.

(** [s.rfind(c)] *)
Fixpoint rfind (c : ascii) (s : string) : option nat :=
  match s with
  | EmptyString => None
  | String d s' =>
      match rfind c s' with
      | Some i => Some (S i)
      | None => if Ascii.eqb d c then Some O else None
      end
  end.

(** [s.split(c, 1)] when [c in s]: the text before and after the first
    [c]; the pair of [s] and the empty string otherwise. *)
Definition split1 (c : ascii) (s : string) : string * string :=
  match find c s with
  | Some i => (take i s, drop (S i) s)
  | None => (s, EmptyString)
  end.

(** [s.replace(c, empty)] *)
Fixpoint remove (c : ascii) (s : string) : string :=
  match s with
  | EmptyString => EmptyString
  | String d s' => if Ascii.eqb d c then remove c s' else String d (remove c s')
  end.

Fixpoint forallb (p : ascii -> bool) (s : string) : bool :=
  match s with
  | EmptyString => true
  | String c s' => p c && forallb p s'
  end.

(** [f"{n:03d}"]: decimal, sign first, zero-filled to a width of at
    least three characters (the sign counts). *)
Definition zfill (width : nat) (digits : string) : string :=
  string_of_list_ascii (repeat "0"%char (width - String.length digits)) +:+ digits.

Definition format_03d (n : Z) : string :=
  let digits := NilZero.string_of_uint (N.to_uint (Z.abs_N n)) in
  if (n <? 0)%Z then "-" +:+ zfill 2 digits else zfill 3 digits.

End Py.

(** ** Exceptions *)

Inductive exn : Type :=
| ValueError      (* raised by [urllib.parse] on a malformed netloc *)
| FormatError.    (* [str.format] on a template it cannot fill *)

Inductive result (A : Type) : Type :=
| Ok (a : A)
| Raise (e : exn).
Arguments Ok {A} a.
Arguments Raise {A} e.

#[global] Instance result_ret : MRet result := fun _ a => Ok a.

#[global] Instance result_bind : MBind result := fun _ _ f m =>
  match m with
  | Ok a => f a
  | Raise e => Raise e
  end.

(** [for x in l: acc = f(acc, x)] where [f] may raise. *)
Fixpoint result_fold {A B} (f : B -> A -> result B) (acc : B) (l : list A) : result B :=
  match l with
  | [] => Ok acc
  | x :: l' => acc' ← f acc x; result_fold f acc' l'
  end.

(** ** [urllib.parse] (CPython 3.11) *)

Module urllib.

Definition uses_relative : list string :=
  [EmptyString; "ftp"; "http"; "gopher"; "nntp"; "imap"; "wais"; "file"; "https";
   "shttp"; "mms"; "prospero"; "rtsp"; "rtspu"; "sftp"; "svn"; "svn+ssh";
   "ws"; "wss"].

Definition uses_netloc : list string :=
  [EmptyString; "ftp"; "http"; "gopher"; "nntp"; "telnet"; "imap"; "wais"; "file";
   "mms"; "https"; "shttp"; "snews"; "prospero"; "rtsp"; "rtspu"; "rsync";
   "svn"; "svn+ssh"; "sftp"; "nfs"; "git"; "git+ssh"; "ws"; "wss"].

Definition uses_params : list string :=
  [EmptyString; "ftp"; "hdl"; "prospero"; "http"; "imap"; "https"; "shttp"; "rtsp";
   "rtspu"; "sip"; "sips"; "mms"; "sftp"; "tel"].

Definition mem (s : string) (l : list string) : bool :=
  existsb (String.eqb s) l.

Definition is_ascii_alpha (c : ascii) : bool :=
  Py.in_range 65 90 c || Py.in_range 97 122 c.

Definition is_scheme_char (c : ascii) : bool :=
  is_ascii_alpha c || Py.in_range 48 57 c
  || Ascii.eqb c "+" || Ascii.eqb c "-" || Ascii.eqb c ".".

(** [_WHATWG_C0_CONTROL_OR_SPACE] *)
Definition is_c0_or_space (c : ascii) : bool := (Py.ord c <=? 32)%N.

(** [_UNSAFE_URL_BYTES_TO_REMOVE] *)
Definition remove_unsafe (s : string) : string :=
  Py.remove "010" (Py.remove "013" (Py.remove "009" s)).

Record SplitResult := mkSplit {
  s_scheme : string; s_netloc : string; s_path : string;
  s_query : string; s_fragment : string }.

Record ParseResult := mkParse {
  scheme : string; netloc : string; path : string;
  params : string; query : string; fragment : string }.

Definition is_delim (c : ascii) : bool :=
  Ascii.eqb c "/" || Ascii.eqb c "?" || Ascii.eqb c "#".

(** [_splitnetloc(url, 2)] on the text after the two slashes: the netloc
    runs to the first of [/], [?], [#]. *)
Fixpoint splitnetloc (s : string) : string * string :=
  match s with
  | EmptyString => (EmptyString, EmptyString)
  | String c s' =>
      if is_delim c then (EmptyString, s)
      else let '(n, r) := splitnetloc s' in (String c n, r)
  end.

(** [s.rpartition(c)[2]] *)
Definition after_last (c : ascii) (s : string) : string :=
  match Py.rfind c s with
  | Some i => Py.drop (S i) s
  | None => s
  end.

Section Parse.

(** [_check_bracketed_host]: the validation of a bracketed host by
    the [ipaddress] module; [true] when it does not raise. *)
Variable check_bracketed_host : string -> bool.

Definition check_bracketed_netloc (netloc : string) : result unit :=
  let hostname_and_port := after_last "@" netloc in
  match Py.find "[" hostname_and_port with
  | Some i =>
      let before_bracket := Py.take i hostname_and_port in
      let bracketed := Py.drop (S i) hostname_and_port in
      if Py.truthy before_bracket then Raise ValueError
      else
        let hostname := fst (Py.split1 "]" bracketed) in
        let port := snd (Py.split1 "]" bracketed) in
        if Py.truthy port && negb (Py.startswith port ":")
        then Raise ValueError
        else if check_bracketed_host hostname then Ok tt
             else Raise ValueError
  | None =>
      let hostname := fst (Py.split1 ":" hostname_and_port) in
      if check_bracketed_host hostname then Ok tt else Raise ValueError
  end.

Definition urlsplit (url default_scheme : string) : result SplitResult :=
  let url := Py.lstrip_chars is_c0_or_space url in
  let dscheme :=
    Py.rstrip_chars is_c0_or_space (Py.lstrip_chars is_c0_or_space default_scheme) in
  let url := remove_unsafe url in
  let dscheme := remove_unsafe dscheme in
  let '(sch, url) :=
    match Py.find ":" url, url with
    | Some (S i), String c0 _ =>
        if is_ascii_alpha c0 && Py.forallb is_scheme_char (Py.take (S i) url)
        then (Py.lower (Py.take (S i) url), Py.drop (S (S i)) url)
        else (dscheme, url)
    | _, _ => (dscheme, url)
    end in
  '(nl, url) ←
    (if Py.startswith url "//" then
       let '(nl, rest) := splitnetloc (Py.drop 2 url) in
       let ob := Py.contains "[" nl in
       let cb := Py.contains "]" nl in
       if (ob && negb cb) || (cb && negb ob) then Raise ValueError
       else if ob && cb then
              check_bracketed_netloc nl ;; Ok (nl, rest)
            else Ok (nl, rest)
     else Ok (EmptyString, url));
  let '(url, frag) := Py.split1 "#" url in
  let '(url, qry) := Py.split1 "?" url in
  Ok (mkSplit sch nl url qry frag).

(** [_splitparams] *)
Definition splitparams (url : string) : string * string :=
  match Py.rfind "/" url with
  | Some j =>
      match Py.find ";" (Py.drop j url) with
      | Some k => (Py.take (j + k) url, Py.drop (S (j + k)) url)
      | None => (url, EmptyString)
      end
  | None =>
      match Py.find ";" url with
      | Some i => (Py.take i url, Py.drop (S i) url)
      | None => (url, EmptyString)
      end
  end.

Definition urlparse_with (url default_scheme : string) : result ParseResult :=
  sr ← urlsplit url default_scheme;
  let '(p, prm) :=
    if mem (s_scheme sr) uses_params && Py.contains ";" (s_path sr)
    then splitparams (s_path sr)
    else (s_path sr, EmptyString) in
  Ok (mkParse (s_scheme sr) (s_netloc sr) p prm (s_query sr) (s_fragment sr)).

Definition urlparse (url : string) : result ParseResult :=
  urlparse_with url EmptyString.

Definition urlunsplit (sch nl url qry frag : string) : string :=
  let url :=
    if Py.truthy nl
       || (Py.truthy sch && mem sch uses_netloc && negb (Py.startswith url "//"))
    then
      let url := if Py.truthy url && negb (Py.startswith url "/")
                 then "/" +:+ url else url in
      "//" +:+ nl +:+ url
    else url in
  let url := if Py.truthy sch then sch +:+ ":" +:+ url else url in
  let url := if Py.truthy qry then url +:+ "?" +:+ qry else url in
  if Py.truthy frag then url +:+ "#" +:+ frag else url.

Definition urlunparse (p : ParseResult) : string :=
  let url := if Py.truthy (params p)
             then path p +:+ ";" +:+ params p else path p in
  urlunsplit (scheme p) (netloc p) url (query p) (fragment p).

(** [ParseResult.geturl] *)
Definition geturl (p : ParseResult) : string := urlunparse p.

(** [segments[1:-1] = filter(None, segments[1:-1])] *)
Definition filter_middle (segments : list string) : list string :=
  match segments with
  | first :: (_ :: _) as rest =>
      (first :: List.filter Py.truthy (removelast rest) ++ [List.last rest EmptyString])%list
  | _ => segments
  end.

(** The loop of [urljoin] over [segments], building [resolved_path]. *)
Definition resolve_segments (segments : list string) : list string :=
  fold_left
    (fun resolved seg =>
       if String.eqb seg ".." then removelast resolved
       else if String.eqb seg "." then resolved
       else (resolved ++ [seg])%list)
    segments [].

Definition urljoin (base url : string) : result string :=
  if negb (Py.truthy base) then Ok url
  else if negb (Py.truthy url) then Ok base
  else
    b ← urlparse_with base EmptyString;
    u ← urlparse_with url (scheme b);
    if negb (String.eqb (scheme u) (scheme b)) || negb (mem (scheme u) uses_relative)
    then Ok url
    else if mem (scheme u) uses_netloc && Py.truthy (netloc u)
    then Ok (urlunparse u)
    else
      let nl := if mem (scheme u) uses_netloc then netloc b else netloc u in
      if negb (Py.truthy (path u)) && negb (Py.truthy (params u))
      then
        Ok (urlunparse
              (mkParse (scheme u) nl (path b) (params b)
                       (if Py.truthy (query u) then query u else query b)
                       (fragment u)))
      else
        let base_parts := Py.split "/" (path b) in
        let base_parts :=
          if String.eqb (List.last base_parts EmptyString) EmptyString
          then base_parts else removelast base_parts in
        let segments :=
          if Py.startswith (path u) "/" then Py.split "/" (path u)
          else filter_middle (base_parts ++ Py.split "/" (path u))%list in
        let resolved := resolve_segments segments in
        let lastseg := List.last segments EmptyString in
        let resolved :=
          if String.eqb lastseg "." || String.eqb lastseg ".."
          then (resolved ++ [EmptyString])%list else resolved in
        let joined := Py.join "/" resolved in
        Ok (urlunparse
              (mkParse (scheme u) nl
                       (if Py.truthy joined then joined else "/")
                       (params u) (query u) (fragment u))).

End Parse.

End urllib.

(** ** [re]: a backtracking matcher for the patterns of the script *)

Module re.

Inductive regex : Type :=
| Eps
| Chr (p : ascii -> bool)              (* one character of a class *)
| Cat (r1 r2 : regex)
| Alt (r1 r2 : regex)                  (* [r1|r2], left first *)
| Opt (r : regex)                      (* [r?], greedy *)
| Star (greedy : bool) (r : regex)     (* [r*] and [r*?] *)
| Group (r : regex).                   (* the capturing group 1 *)

(** What is left of the subject, and the text of group 1 so far. *)
Definition cont (R : Type) : Type := list ascii -> option (list ascii) -> option R.

Definition orelse {R} (a b : option R) : option R :=
  match a with Some _ => a | None => b end.

(** [run r s g k]: match [r] at the head of [s], then continue with
    [k]; alternatives are tried in the order of Python's matcher, and
    an iteration of a star that consumes nothing is not repeated. *)
Fixpoint run {R} (r : regex) (s : list ascii) (g : option (list ascii))
         (k : cont R) {struct r} : option R :=
  match r with
  | Eps => k s g
  | Chr p =>
      match s with
      | c :: s' => if p c then k s' g else None
      | [] => None
      end
  | Cat r1 r2 => run r1 s g (fun s' g' => run r2 s' g' k)
  | Alt r1 r2 => orelse (run r1 s g k) (run r2 s g k)
  | Opt r1 => orelse (run r1 s g k) (k s g)
  | Star greedy r1 =>
      (fix loop (n : nat) (s : list ascii) (g : option (list ascii)) : option R :=
         match n with
         | O => k s g
         | S n' =>
             let more :=
               run r1 s g (fun s' g' =>
                 if (length s' <? length s)%nat then loop n' s' g' else None) in
             if greedy then orelse more (k s g) else orelse (k s g) more
         end) (length s) s g
  | Group r1 =>
      run r1 s g (fun s' _ => k s' (Some (List.firstn (length s - length s') s)))
  end.

Record Match := mkMatch {
  group0 : string;            (* [m.group(0)] *)
  group1 : option string;     (* [m.group(1)] *)
  rest : list ascii }.        (* the subject after the match *)

Definition match_here (r : regex) (s : list ascii) : option Match :=
  run r s None (fun s' g =>
    Some (mkMatch (string_of_list_ascii (List.firstn (length s - length s') s))
                  (string_of_list_ascii <$> g) s')).

(** [pattern.search]: the leftmost position at which the pattern
    matches. *)
Fixpoint search_from (r : regex) (s : list ascii) : option Match :=
  match match_here r s with
  | Some m => Some m
  | None =>
      match s with
      | [] => None
      | _ :: s' => search_from r s'
      end
  end.

Definition search (r : regex) (s : string) : option Match :=
  search_from r (list_ascii_of_string s).

(** [pattern.finditer] for a pattern that matches no empty text:
    successive non-overlapping matches, left to right. *)
Fixpoint finditer_from (fuel : nat) (r : regex) (s : list ascii) : list Match :=
  match fuel with
  | O => []
  | S fuel' =>
      match search_from r s with
      | Some m => m :: finditer_from fuel' r (rest m)
      | None => []
      end
  end.

Definition finditer (r : regex) (s : string) : list Match :=
  finditer_from (String.length s) r (list_ascii_of_string s).

(** *** Character classes *)

Definition lit (c : ascii) : regex := Chr (Ascii.eqb c).

(** A literal under [re.IGNORECASE]. *)
Definition lit_i (c : ascii) : regex :=
  Chr (fun d => Ascii.eqb (Py.lower_char d) (Py.lower_char c)).

Fixpoint str_with (l : ascii -> regex) (s : string) : regex :=
  match s with
  | EmptyString => Eps
  | String c EmptyString => l c
  | String c s' => Cat (l c) (str_with l s')
  end.

Definition str := str_with lit.
Definition str_i := str_with lit_i.

Fixpoint seq (l : list regex) : regex :=
  match l with
  | [] => Eps
  | [r] => r
  | r :: l' => Cat r (seq l')
  end.

(** [\w] *)
Definition word (c : ascii) : bool :=
  Py.in_range 48 57 c || Py.in_range 65 90 c || Py.in_range 97 122 c
  || Ascii.eqb c "_"
  || (Py.ord c =? 170)%N || (Py.ord c =? 178)%N || (Py.ord c =? 179)%N
  || (Py.ord c =? 181)%N || (Py.ord c =? 185)%N || (Py.ord c =? 186)%N
  || Py.in_range 188 190 c
  || (Py.in_range 192 255 c && negb (Py.ord c =? 215)%N && negb (Py.ord c =? 247)%N).

(** [\s] *)
Definition space (c : ascii) : bool := Py.isspace c.

(** [.] *)
Definition dot (c : ascii) : bool := negb (Ascii.eqb c "010").

Definition upper_AZ (c : ascii) : bool := Py.in_range 65 90 c.

Definition quote (c : ascii) : bool :=
  (Py.ord c =? 34)%N || (Py.ord c =? 39)%N.

End re.

(** ** [pathlib.PurePosixPath] *)

Module pathlib.

(** A parsed path: the root (empty, one slash or two) and the names. *)
Record Path := mkPath { root : string; names : list string }.

Definition keep_name (x : string) : bool :=
  Py.truthy x && negb (String.eqb x ".").

(** [Path(s)] *)
Definition parse (s : string) : Path :=
  let stripped := Py.lstrip_char "/" s in
  let slashes := (String.length s - String.length stripped)%nat in
  mkPath (match slashes with O => EmptyString | 2%nat => "//" | _ => "/" end)
         (List.filter keep_name (Py.split "/" stripped)).

(** [p / key] *)
Definition truediv (p : Path) (key : string) : Path :=
  let q := parse key in
  if Py.truthy (root q) then q
  else mkPath (root p) (names p ++ names q)%list.

(** [str(p)] *)
Definition to_str (p : Path) : string :=
  match root p, names p with
  | EmptyString, [] => "."
  | r, l => r +:+ Py.join "/" l
  end.

End pathlib.

(** ** [parse_srcset] *)

(** [part.strip().split(" ")[0].strip()] *)
Definition srcset_entry_url (part : string) : string :=
  Py.strip (hd EmptyString (Py.split " " (Py.strip part))).

Definition parse_srcset (srcset : string) : list string :=
  List.filter Py.truthy (map srcset_entry_url (Py.split "," srcset)).

(** ** The parsed document *)

(** An element as [extract_image_urls] sees it: its tag name and its
    attributes.  The attributes the script reads ([src], [data-src],
    [srcset], [data-srcset], [style]) are not multi-valued, so a value
    is a string; an attribute written without a value reads as the
    empty string. *)
Record Tag := mkTag { tag_name : string; tag_attrs : gmap string string }.

(** [soup.find_all(name)]: the elements of that name, in document order. *)
Definition find_all (name : string) (soup : list Tag) : list Tag :=
  List.filter (fun t => String.eqb (tag_name t) name) soup.

(** [soup.find_all(style=True)] *)
Definition find_all_style (soup : list Tag) : list Tag :=
  List.filter (fun t => bool_decide (is_Some (tag_attrs t !! "style"))) soup.

(** [tag.get(attr)] followed by [if val:]: the values that are present
    and non-empty. *)
Definition get_truthy (t : Tag) (attr : string) : list string :=
  match tag_attrs t !! attr with
  | Some v => if Py.truthy v then [v] else []
  | None => []
  end.

(** ** Patterns *)

Definition dquote : ascii := ascii_of_nat 34.
Definition squote : ascii := ascii_of_nat 39.

(** [url\((?:"|\')?(.*?)(?:"|\')?\)] *)
Definition style_url_re : re.regex :=
  re.seq [re.str "url(";
          re.Opt (re.Alt (re.lit dquote) (re.lit squote));
          re.Group (re.Star false (re.Chr re.dot));
          re.Opt (re.Alt (re.lit dquote) (re.lit squote));
          re.lit ")"].

Definition host_char (c : ascii) : bool :=
  re.word c || Ascii.eqb c "." || Ascii.eqb c "-".
Definition dir_char (c : ascii) : bool :=
  re.word c || Ascii.eqb c "/" || Ascii.eqb c "-".
Definition name_char (c : ascii) : bool :=
  re.word c || Ascii.eqb c "-".
Definition tail_char (c : ascii) : bool :=
  negb (re.space c || Ascii.eqb c squote || Ascii.eqb c dquote).

(** The CDN pattern, compiled with [re.IGNORECASE]. *)
Definition cdn_img_pattern : re.regex :=
  re.seq [re.str_i "http"; re.Opt (re.lit_i "s"); re.str_i "://";
          re.Star true (re.Chr host_char);
          re.str_i "/public/"; re.Star true (re.Chr dir_char);
          re.str_i "/riftbound/"; re.Star true (re.Chr dir_char);
          re.lit "/"; re.Star true (re.Chr name_char);
          re.str_i "/cards/"; re.Star true (re.Chr name_char);
          re.lit "/";
          re.Alt (re.str_i "full") (re.str_i "thumbnail");
          re.Star true (re.Chr tail_char);
          re.lit ".";
          re.Alt (re.str_i "jpg")
                 (re.Alt (re.str_i "jpeg") (re.Alt (re.str_i "png") (re.str_i "webp")))].

(** [/riftbound/latest/([A-Z]+)/cards/] *)
Definition PREFIX_RE : re.regex :=
  re.seq [re.str "/riftbound/latest/";
          re.Group (re.Cat (re.Chr re.upper_AZ) (re.Star true (re.Chr re.upper_AZ)));
          re.str "/cards/"].

Definition exts : list string := [".png"; ".jpg"; ".jpeg"; ".webp"; ".gif"].

(** [for x in l: out.append(f(x))] where [f] may raise. *)
Fixpoint result_map {A B} (f : A -> result B) (l : list A) : result (list B) :=
  match l with
  | [] => Ok []
  | x :: l' => y ← f x; ys ← result_map f l'; Ok (y :: ys)
  end.

(** [[x for x in l if f(x)]] where [f] may raise. *)
Fixpoint result_filter {A} (f : A -> result bool) (l : list A) : result (list A) :=
  match l with
  | [] => Ok []
  | x :: l' => b ← f x; ys ← result_filter f l'; Ok (if (b : bool) then x :: ys else ys)
  end.

(** ** The network and the filesystem *)

Record Response := mkResponse { status_code : Z; content : string }.

(** What [requests.get] and [requests.head] do: return a response, or
    raise an exception of the class [requests.RequestException]. *)
Inductive Reply : Type :=
| Responded (r : Response)
| RequestException.

(** [r.raise_for_status()] raises [HTTPError] for the statuses 400 to
    599, and for no other. *)
Definition raises_for_status (r : Response) : bool :=
  ((400 <=? status_code r) && (status_code r <? 600))%Z.

(** What the script does to the outside, in program order; paths are
    rendered with [str]. *)
Inductive Event : Type :=
| EMkdir (dir : string)
| EHead (url : string)
| EGet (url : string)
| EWrite (dest : string) (data : string).

(** [range(lo, hi)] *)
Definition range (lo hi : Z) : list Z :=
  map (fun k => (lo + Z.of_nat k)%Z) (seq 0 (Z.to_nat (hi - lo))).

(** [template.format(code=code)], read as CPython reads it
    ([MarkupIterator_next] and [parse_field] of
    [Objects/stringlib/unicode_format.h]): literal text with the two
    escapes for a literal brace, and replacement fields.  A field is a
    name, up to the first [!], [:] or closing brace outside square
    brackets; then an optional conversion, which is the one character
    after [!]; then an optional format specification after [:], which
    runs to the closing brace that matches the opening one of the
    field.  An opening brace in a name, a lone closing brace in text
    and a field that does not end are errors.

    The only argument of the call is the keyword [code], a [str].  So a
    field whose name does not begin with [code] (up to the first dot or
    square bracket) raises [KeyError] or [IndexError]; the field [code]
    without conversion and with an empty specification gives the text
    of [code]; what any other field gives (an attribute or an item of
    [code], its [repr], a padded or cut text, or an exception) is
    [format_field], a parameter of the embedding.  [FormatError] stands
    for the exceptions that [str.format] raises. *)
Inductive fmt_mode : Type :=
| Text                       (* in literal text *)
| AfterOpen                  (* just read one opening brace *)
| AfterClose                 (* just read one closing brace *)
| Name (name : string)       (* in the name of a field *)
| Bracket (name : string)    (* in the name, within square brackets *)
| Conv (name : string)       (* just read the [!] of a conversion *)
| AfterConv (name : string) (conv : ascii)
                             (* just read the conversion character *)
| Spec (name : string) (conv : option ascii) (spec : string) (depth : nat).
                             (* in the format specification, with
                                [depth] braces open within it *)

(** The part of a field name that selects the argument. *)
Fixpoint field_first (name : string) : string :=
  match name with
  | EmptyString => EmptyString
  | String c name' =>
      if Ascii.eqb c "." || Ascii.eqb c "[" then EmptyString
      else String c (field_first name')
  end.

Definition is_plain_field (name : string) (conv : option ascii) (spec : string) : bool :=
  String.eqb name "code"
  && match conv with None => true | Some _ => false end
  && negb (Py.truthy spec).

Section Format.

(** What [str.format] puts for a field that begins with [code] and is
    not the plain one: name, conversion, format specification (not yet
    expanded), and the text of [code]. *)
Variable format_field : string -> option ascii -> string -> string -> result string.

Definition render_field (name : string) (conv : option ascii) (spec code : string)
  : result string :=
  if negb (String.eqb (field_first name) "code") then Raise FormatError
  else if is_plain_field name conv spec then Ok code
  else format_field name conv spec code.

Fixpoint format_from (code : string) (mode : fmt_mode) (s : string) : result string :=
  match s with
  | EmptyString =>
      match mode with
      | Text => Ok EmptyString
      | _ => Raise FormatError
      end
  | String c s' =>
      let literal := r ← format_from code Text s'; Ok (String c r) in
      let field name conv spec :=
        v ← render_field name conv spec code;
        r ← format_from code Text s'; Ok (v +:+ r) in
      let more name := name +:+ String c EmptyString in
      let in_name name :=
        if Ascii.eqb c "{" then Raise FormatError
        else if Ascii.eqb c "[" then format_from code (Bracket (more name)) s'
        else if Ascii.eqb c "}" then field name None EmptyString
        else if Ascii.eqb c ":" then format_from code (Spec name None EmptyString 0) s'
        else if Ascii.eqb c "!" then format_from code (Conv name) s'
        else format_from code (Name (more name)) s' in
      match mode with
      | Text =>
          if Ascii.eqb c "{" then format_from code AfterOpen s'
          else if Ascii.eqb c "}" then format_from code AfterClose s'
          else literal
      | AfterOpen =>
          if Ascii.eqb c "{" then literal else in_name EmptyString
      | AfterClose =>
          if Ascii.eqb c "}" then literal else Raise FormatError
      | Name name => in_name name
      | Bracket name =>
          if Ascii.eqb c "]" then format_from code (Name (more name)) s'
          else format_from code (Bracket (more name)) s'
      | Conv name => format_from code (AfterConv name c) s'
      | AfterConv name conv =>
          if Ascii.eqb c "}" then field name (Some conv) EmptyString
          else if Ascii.eqb c ":"
               then format_from code (Spec name (Some conv) EmptyString 0) s'
               else Raise FormatError
      | Spec name conv spec depth =>
          if Ascii.eqb c "{"
          then format_from code (Spec name conv (more spec) (S depth)) s'
          else if Ascii.eqb c "}" then
                 match depth with
                 | O => field name conv spec
                 | S d => format_from code (Spec name conv (more spec) d) s'
                 end
               else format_from code (Spec name conv (more spec) depth) s'
      end
  end.

Definition format_code (template code : string) : result string :=
  format_from code Text template.

End Format.

Definition CDN_BASE : string :=
  "https://cdn.rgpub.io/public/live/map/riftbound/latest/".

Section Scraper.

(** The validation of a bracketed host by [ipaddress] (see [urllib]). *)
Variable check_bracketed_host : string -> bool.

(** [BeautifulSoup(html, "html.parser")]: the elements of the document
    in document order. *)
Variable BeautifulSoup : string -> list Tag.

Abbreviation urlparse := (urllib.urlparse check_bracketed_host).
Abbreviation urljoin := (urllib.urljoin check_bracketed_host).

(** ** [extract_image_urls] *)

(** The body of [for img in soup.find_all("img")]. *)
Definition img_candidates (img : Tag) : list string :=
  (flat_map (get_truthy img) ["src"; "data-src"]
   ++ flat_map (fun attr => flat_map parse_srcset (get_truthy img attr))
               ["srcset"; "data-srcset"])%list.

(** The body of [for source in soup.find_all("source")]. *)
Definition source_candidates (source : Tag) : list string :=
  flat_map parse_srcset (get_truthy source "srcset").

(** The body of [for el in soup.find_all(style=True)]. *)
Definition style_candidates (el : Tag) : list string :=
  let style := default EmptyString (tag_attrs el !! "style") in
  List.filter (fun u => Py.truthy u && negb (Py.startswith u "data:"))
    (map (fun m => default EmptyString (re.group1 m))
         (re.finditer style_url_re style)).

(** The list [urls] when the deduplication starts. *)
Definition collect_urls (html base_url : string) : result (list string) :=
  let soup := BeautifulSoup html in
  a ← result_map (urljoin base_url) (flat_map img_candidates (find_all "img" soup));
  b ← result_map (urljoin base_url) (flat_map source_candidates (find_all "source" soup));
  c ← result_map (urljoin base_url) (flat_map style_candidates (find_all_style soup));
  Ok (a ++ b ++ c ++ map re.group0 (re.finditer cdn_img_pattern html))%list.

Definition normalize (u : string) : result string :=
  parsed ← urlparse u;
  Ok (urllib.geturl
        (urllib.mkParse (urllib.scheme parsed) (urllib.netloc parsed)
                        (urllib.path parsed) (urllib.params parsed)
                        EmptyString EmptyString)).

(** [if u.startswith("//"): u = "https:" + u] *)
Definition upgrade (u : string) : string :=
  if Py.startswith u "//" then "https:" +:+ u else u.

(** One turn of the deduplication loop. *)
Definition dedupe_step (acc : gset string * list string) (u : string)
  : result (gset string * list string) :=
  let '(seen, res) := acc in
  if negb (Py.truthy u) then Ok acc
  else
    let u := upgrade u in
    key ← normalize u;
    if bool_decide (key ∈ seen) then Ok acc
    else Ok ({[key]} ∪ seen, (res ++ [u])%list).

Definition dedupe (urls : list string) : result (list string) :=
  acc ← result_fold dedupe_step ((∅ : gset string), ([] : list string)) urls; Ok (snd acc).

Definition has_image_ext (u : string) : result bool :=
  parsed ← urlparse u;
  Ok (existsb (Py.endswith (Py.lower (urllib.path parsed))) exts).

Definition extract_image_urls (html base_url : string) : result (list string) :=
  urls ← collect_urls html base_url;
  res ← dedupe urls;
  result_filter has_image_ext res.

(** ** [file_ext_for_url] and [detect_prefix] *)

Definition file_ext_for_url (u : string) : result string :=
  parsed ← urlparse u;
  let path := Py.lower (urllib.path parsed) in
  Ok (default ".jpg" (List.find (Py.endswith path) exts)).

Definition detect_prefix (u : string) : result (option string) :=
  parsed ← urlparse u;
  Ok (m ← re.search PREFIX_RE (urllib.path parsed); re.group1 m).

(** ** Effects *)

(** The state of the network, and how it answers a GET and a HEAD
    request (timeouts and redirects included). *)
Context {World : Type}.
Variable requests_get : string -> World -> Reply * World.
Variable requests_head : string -> World -> Reply * World.

(** What [str.format] puts for a field of the template that is not the
    plain [code] (see [render_field]). *)
Variable format_field : string -> option ascii -> string -> string -> result string.

Record St := mkSt { world : World; trace : list Event }.

Definition M (A : Type) : Type := St -> result A * St.

#[local] Instance M_ret : MRet M := fun _ a st => (Ok a, st).

#[local] Instance M_bind : MBind M := fun _ _ f m st =>
  match m st with
  | (Ok a, st') => f a st'
  | (Raise e, st') => (Raise e, st')
  end.

Definition lift {A} (r : result A) : M A := fun st => (r, st).

Definition emit (e : Event) : M unit :=
  fun st => (Ok tt, mkSt (world st) (trace st ++ [e])%list).

Definition http_get (url : string) : M Reply :=
  fun st =>
    let '(reply, w) := requests_get url (world st) in
    (Ok reply, mkSt w (trace st ++ [EGet url])%list).

Definition http_head (url : string) : M Reply :=
  fun st =>
    let '(reply, w) := requests_head url (world st) in
    (Ok reply, mkSt w (trace st ++ [EHead url])%list).

(** [for x in l: body(x)] *)
Fixpoint for_each {A} (body : A -> M unit) (l : list A) : M unit :=
  match l with
  | [] => mret tt
  | x :: l' => body x ;; for_each body l'
  end.

(** ** [download_images] *)

(** [detect_prefix(u) or "misc"] *)
Definition prefix_or_misc (p : option string) : string :=
  match p with
  | Some s => if Py.truthy s then s else "misc"
  | None => "misc"
  end.

(** The body of [for u in urls], from the counters before to the
    counters after. *)
Definition download_one (out_dir : pathlib.Path) (counters : gmap string Z)
           (u : string) : M (gmap string Z) :=
  p ← lift (detect_prefix u);
  let prefix := prefix_or_misc p in
  let subdir := pathlib.truediv out_dir prefix in
  emit (EMkdir (pathlib.to_str subdir)) ;;
  let next_idx := default 1%Z (counters !! prefix) in
  ext ← lift (file_ext_for_url u);
  let dest := pathlib.truediv subdir (Py.format_03d next_idx +:+ ext) in
  reply ← http_get u;
  match reply with
  | Responded r =>
      if raises_for_status r then mret counters
      else
        emit (EWrite (pathlib.to_str dest) (content r)) ;;
        mret (<[prefix := (next_idx + 1)%Z]> counters)
  | RequestException => mret counters
  end.

Fixpoint download_loop (out_dir : pathlib.Path) (counters : gmap string Z)
         (urls : list string) : M (gmap string Z) :=
  match urls with
  | [] => mret counters
  | u :: urls' =>
      counters' ← download_one out_dir counters u;
      download_loop out_dir counters' urls'
  end.

Definition download_images (urls : list string) (out_dir : pathlib.Path) : M unit :=
  emit (EMkdir (pathlib.to_str out_dir)) ;;
  download_loop out_dir ∅ urls ;;
  mret tt.

(** ** [try_head] *)

Definition try_head (url : string) : M bool :=
  reply ← http_head url;
  match reply with
  | Responded r => mret (status_code r =? 200)%Z
  | RequestException => mret false
  end.

(** ** [fallback_guess_by_prefixes] *)

(** [(asset or "full-desktop.jpg").lstrip("/")] *)
Definition asset_fname (asset : option string) : string :=
  Py.lstrip_char "/"
    (match asset with
     | Some a => if Py.truthy a then a else "full-desktop.jpg"
     | None => "full-desktop.jpg"
     end).

(** The template [base] of one prefix. *)
Definition base_template (prefix : string) : string :=
  CDN_BASE +:+ prefix +:+ "/cards/{code}/".

(** [base.format(code=code) + fname] *)
Definition candidate_url (prefix fname : string) (i : Z) : result string :=
  let code := prefix +:+ "-" +:+ Py.format_03d i in
  b ← format_code format_field (base_template prefix) code; Ok (b +:+ fname).

(** The loop [for i in range(start, 2000)] over the codes still to
    try, with the loop variables [miss_streak] and [idx]; [break]
    ends it. *)
Fixpoint scan_codes (prefix fname : string) (subdir : pathlib.Path)
         (miss_limit : Z) (codes : list Z) (miss_streak idx : Z) : M unit :=
  match codes with
  | [] => mret tt
  | i :: codes' =>
      candidate ← lift (candidate_url prefix fname i);
      hit ← try_head candidate;
      if negb (hit : bool) then
        let miss_streak := (miss_streak + 1)%Z in
        if (miss_limit <=? miss_streak)%Z then mret tt
        else scan_codes prefix fname subdir miss_limit codes' miss_streak idx
      else
        let dest := pathlib.truediv subdir (Py.format_03d idx +:+ ".jpg") in
        reply ← http_get candidate;
        match reply with
        | Responded r =>
            if raises_for_status r
            then scan_codes prefix fname subdir miss_limit codes' 0%Z idx
            else
              emit (EWrite (pathlib.to_str dest) (content r)) ;;
              scan_codes prefix fname subdir miss_limit codes' 0%Z (idx + 1)%Z
        | RequestException =>
            scan_codes prefix fname subdir miss_limit codes' 0%Z idx
        end
  end.

(** The body of [for prefix in prefixes]. *)
Definition scan_prefix (out_dir : pathlib.Path) (start miss_limit : Z)
           (asset : option string) (prefix : string) : M unit :=
  let subdir := pathlib.truediv out_dir prefix in
  emit (EMkdir (pathlib.to_str subdir)) ;;
  scan_codes prefix (asset_fname asset) subdir miss_limit (range start 2000) 0%Z 1%Z.

Definition fallback_guess_by_prefixes (out_dir : pathlib.Path)
           (prefixes : list string) (start miss_limit : Z)
           (asset : option string) : M unit :=
  emit (EMkdir (pathlib.to_str out_dir)) ;;
  for_each (scan_prefix out_dir start miss_limit asset) prefixes.

End Scraper.

(** ** Definitions used by the statements *)

(** The text of [s] before its first space character (U+0020). *)
Fixpoint before_space (s : string) : string :=
  match s with
  | EmptyString => EmptyString
  | String c s' => if Ascii.eqb c " " then EmptyString else String c (before_space s')
  end.

(** What one entry of a [srcset] contributes in [parse_srcset]. *)
Definition entry_url (part : string) : string :=
  Py.strip (before_space (Py.strip part)).

(** Following the specification's words: the first whitespace-delimited
    token of an entry, whatever the whitespace character is. *)
Fixpoint until_whitespace (s : string) : string :=
  match s with
  | EmptyString => EmptyString
  | String c s' => if Py.isspace c then EmptyString else String c (until_whitespace s')
  end.

Definition spec_first_token (entry : string) : string :=
  until_whitespace (Py.lstrip_chars Py.isspace entry).

Definition spec_parse_srcset (srcset : string) : list string :=
  List.filter Py.truthy (map spec_first_token (Py.split "," srcset)).

(** An entry whose descriptor follows a tab. *)
Definition tab_entry : string :=
  "a.jpg" +:+ String (ascii_of_nat 9) "1x".

(** The element [<img srcset="a.jpg 1x, b.jpg 2x">]. *)
Definition srcset_img : Tag :=
  mkTag "img" {["srcset" := "a.jpg 1x, b.jpg 2x"]}.

(** The files written in a trace, in order: destination and data. *)
Definition writes (tr : list Event) : list (string * string) :=
  flat_map (fun e => match e with EWrite d b => [(d, b)] | _ => [] end) tr.

(** The URLs fetched with GET in a trace, in order. *)
Definition gets (tr : list Event) : list string :=
  flat_map (fun e => match e with EGet u => [u] | _ => [] end) tr.

(** The URLs probed with HEAD in a trace, in order. *)
Definition heads (tr : list Event) : list string :=
  flat_map (fun e => match e with EHead u => [u] | _ => [] end) tr.

(** A prefix without braces, so that [base] has the one field [{code}]. *)
Definition no_brace (s : string) : Prop :=
  Py.contains "{" s = false /\ Py.contains "}" s = false.

(** The candidate URL of code [i], written out. *)
Definition cand (prefix fname : string) (i : Z) : string :=
  CDN_BASE +:+ prefix +:+ "/cards/" +:+ prefix +:+ "-" +:+ Py.format_03d i
           +:+ "/" +:+ fname.

(** The destination of the file of sequence number [idx] in the
    fallback prober. *)
Definition fallback_dest (subdir : pathlib.Path) (idx : Z) : string :=
  pathlib.to_str (pathlib.truediv subdir (Py.format_03d idx +:+ ".jpg")).

(** A reply that makes the download of a URL succeed: a response on
    which [raise_for_status] does not raise. *)
Definition fetch_ok (reply : Reply) : bool :=
  match reply with
  | Responded r => negb (raises_for_status r)
  | RequestException => false
  end.

(** A reply that makes [try_head] answer [True]. *)
Definition head_ok (reply : Reply) : bool :=
  match reply with
  | Responded r => (status_code r =? 200)%Z
  | RequestException => false
  end.

(** The body of a reply ([r.content]); empty when there is no response. *)
Definition reply_content (reply : Reply) : string :=
  match reply with
  | Responded r => content r
  | RequestException => EmptyString
  end.

(** The replies the network gives to GET requests for [urls], one after
    the other, from the state [w]. *)
Fixpoint replies {World : Type} (requests_get : string -> World -> Reply * World)
         (urls : list string) (w : World) : list Reply :=
  match urls with
  | [] => []
  | u :: urls' =>
      fst (requests_get u w) :: replies requests_get urls' (snd (requests_get u w))
  end.

(** A fetch that fails the way [download_images] catches it: an
    exception of [requests], or a response with a status from 400 to
    599. *)
Definition fetch_fails (reply : Reply) : Prop :=
  match reply with
  | Responded r => (400 <= status_code r < 600)%Z
  | RequestException => True
  end.

(** A fetch that fails in the specification's words: a network error,
    or a response whose status is not 2xx. *)
Definition spec_fetch_fails (reply : Reply) : Prop :=
  match reply with
  | Responded r => ~ (200 <= status_code r < 300)%Z
  | RequestException => True
  end.

(** The destination of a download in the category [prefix] with the
    sequence number [idx]. *)
Definition download_dest (out_dir : pathlib.Path) (prefix : string) (idx : Z)
           (ext : string) : string :=
  pathlib.to_str
    (pathlib.truediv (pathlib.truediv out_dir prefix) (Py.format_03d idx +:+ ext)).

(** The URLs the deduplication loop considers, in the form in which it
    would put them in the output: the non-empty collected URLs, a
    protocol-relative one with [https:] in front. *)
Definition candidates (urls : list string) : list string :=
  map upgrade (List.filter Py.truthy urls).

(** [u] stands in [cands] at a place before which no URL has its key. *)
Definition first_with_key (key : string -> result string)
           (cands : list string) (u : string) : Prop :=
  exists pre post,
    cands = (pre ++ u :: post)%list /\ forall v, v ∈ pre -> key v <> key u.

(** What the deduplication loop maintains, with [done] the candidates
    consumed so far and [key] the function that computes the key. *)
Record dedupe_inv (key : string -> result string)
       (done : list string) (seen : gset string) (res : list string) : Prop := {
  inv_keys : exists keys, result_map key res = Ok keys /\ NoDup keys
                          /\ forall k, k ∈ keys <-> k ∈ seen;
  inv_done : forall v, v ∈ done -> exists k, key v = Ok k /\ k ∈ seen;
  inv_first : forall u, u ∈ res -> first_with_key key done u;
  inv_kept : forall c, first_with_key key done c -> c ∈ res }.

(** ** Sample inputs *)

Module Sample.

(** A validator of bracketed hosts; the sample URLs have none. *)
Definition accept_all (host : string) : bool := true.

Definition images : pathlib.Path := pathlib.parse "images".

(** A network without a state of its own, and the state in which a
    run starts. *)
Definition st0 : @St unit := mkSt tt [].

(** A sample of [format_field], right for the field [code!s], which
    gives the text of [code]; the sample runs meet no other field. *)
Definition fields (name : string) (conv : option ascii) (spec code : string)
  : result string :=
  if String.eqb name "code" && negb (Py.truthy spec) then
    match conv with
    | Some "s"%char => Ok code
    | _ => Raise FormatError
    end
  else Raise FormatError.

Definition status_reply (status : Z) (body : string) : Reply :=
  Responded (mkResponse status body).

Definition card (i : Z) : string := cand "OGS" "full-desktop.jpg" i.

(** HEAD finds the cards 1 and 2 of OGS and nothing else. *)
Definition two_cards_head (u : string) (w : unit) : Reply * unit :=
  (if String.eqb u (card 1) || String.eqb u (card 2)
   then status_reply 200 EmptyString
   else status_reply 404 EmptyString, w).

(** GET answers every URL with an image. *)
Definition always_get (u : string) (w : unit) : Reply * unit :=
  (status_reply 200 ("image of " +:+ u), w).

(** GET answers the first card with a server error, any other URL
    with an image. *)
Definition first_card_unavailable (u : string) (w : unit) : Reply * unit :=
  (if String.eqb u (card 1)
   then status_reply 503 EmptyString
   else status_reply 200 ("image of " +:+ u), w).

(** GET answers 304 Not Modified, with a body. *)
Definition not_modified_get (u : string) (w : unit) : Reply * unit :=
  (status_reply 304 "cached", w).

(** GET answers 404 for URLs that end in [missing.jpg]. *)
Definition missing_get (u : string) (w : unit) : Reply * unit :=
  (if Py.endswith u "missing.jpg"
   then status_reply 404 "not found"
   else status_reply 200 ("image of " +:+ u), w).

(** The first card of OGS in the PNG variant, and a HEAD that finds it
    and nothing else. *)
Definition png_card : string := cand "OGS" "full-desktop.png" 1.

Definition png_head (u : string) (w : unit) : Reply * unit :=
  (if String.eqb u png_card
   then status_reply 200 EmptyString
   else status_reply 404 EmptyString, w).

Definition ogs1 : string := card 1.
Definition ogs2 : string := card 2.
Definition plain : string := "https://example.com/art/cover.jpg".
Definition missing : string :=
  "https://cdn.rgpub.io/public/live/map/riftbound/latest/OGS/cards/OGS-404/missing.jpg".

(** The element [<img src="//cdn.example.com/a.jpg">], and a parser
    that finds it in every document. *)
Definition protocol_relative_img : Tag :=
  mkTag "img" {["src" := "//cdn.example.com/a.jpg"]}.

Definition one_img_parser (html : string) : list Tag := [protocol_relative_img].

Definition one_img_html : string := "<img src=//cdn.example.com/a.jpg>".

(** A document whose images repeat one URL with different queries. *)
Definition gallery_parser (html : string) : list Tag :=
  [mkTag "img" {["src" := "/img/card.png?v=1"]};
   mkTag "img" {["src" := "/img/card.png?v=2"; "data-src" := "/img/readme.txt"]};
   mkTag "source" {["srcset" := "a.JPG 1x, b.webp 2x"]}].

Definition gallery_html : string := "<html>gallery</html>".

Definition gallery_base : string := "https://example.com/cards/".

End Sample.

(** ** [main] *)

Definition URL : string := "https://riftbound.leagueoflegends.com/en-us/tcg-cards/".

Definition OUT_DIR : pathlib.Path := pathlib.parse "images".

(** The parsed command line ([args]). *)
Record Args := mkArgs {
  arg_prefixes : list string;
  arg_start : Z;
  arg_miss_limit : Z;
  arg_asset : string }.

(** The values of [args] when the command line is empty. *)
Definition default_args : Args :=
  mkArgs ["OGS"; "OGN"] 1 3 "full-desktop.jpg".

(** The order of [str]: by code points, a proper prefix first. *)
Definition str_le (a b : string) : Prop := String.leb a b = true.

#[global] Instance str_le_dec (a b : string) : Decision (str_le a b).
Proof. unfold str_le. apply _. Defined.

(** [sorted(urls)] *)
Definition sorted (urls : list string) : list string := merge_sort str_le urls.

(** How a run of [main] ends: it returns, or an exception leaves it. *)
Inductive Exit : Type :=
| Returned                        (* [main] returns *)
| PageRequestFailed               (* [requests.get(URL)] raised *)
| PageHTTPError (status : Z)      (* [resp.raise_for_status()] raised *)
| Uncaught (e : exn).             (* an exception of the later steps *)

Definition exit_of (r : result unit) : Exit :=
  match r with
  | Ok _ => Returned
  | Raise e => Uncaught e
  end.

Section Main.

Variable check_bracketed_host : string -> bool.
Variable BeautifulSoup : string -> list Tag.
Context {World : Type}.
Variable requests_get : string -> World -> Reply * World.
Variable requests_head : string -> World -> Reply * World.
Variable format_field : string -> option ascii -> string -> string -> result string.

(** [resp.text]: the body of a response, decoded. *)
Variable response_text : Response -> string.

Definition main (args : Args) (st : St) : Exit * St :=
  let '(reply, w) := requests_get URL (world st) in
  let st1 := mkSt w (trace st ++ [EGet URL]) in
  match reply with
  | RequestException => (PageRequestFailed, st1)
  | Responded resp =>
      if raises_for_status resp then (PageHTTPError (status_code resp), st1)
      else
        match extract_image_urls check_bracketed_host BeautifulSoup
                                 (response_text resp) URL with
        | Raise e => (Uncaught e, st1)
        | Ok [] =>
            let '(r, st2) :=
              fallback_guess_by_prefixes requests_get requests_head format_field OUT_DIR
                (arg_prefixes args) (arg_start args) (arg_miss_limit args)
                (Some (arg_asset args)) st1 in
            (exit_of r, st2)
        | Ok urls =>
            let '(r, st2) :=
              download_images check_bracketed_host requests_get
                              (sorted urls) OUT_DIR st1 in
            (exit_of r, st2)
        end
  end.

End Main.

(** ** Definitions used by further statements *)

(** What a pattern matches, with the text of group 1 before and after:
    the reading of [re.regex] as a set of texts. *)
Inductive matches : re.regex -> list ascii -> option (list ascii) ->
                    option (list ascii) -> Prop :=
| matches_eps g : matches re.Eps [] g g
| matches_chr p c g : p c = true -> matches (re.Chr p) [c] g g
| matches_cat r1 r2 w1 w2 g g1 g2 :
    matches r1 w1 g g1 -> matches r2 w2 g1 g2 ->
    matches (re.Cat r1 r2) (w1 ++ w2) g g2
| matches_alt_l r1 r2 w g g' : matches r1 w g g' -> matches (re.Alt r1 r2) w g g'
| matches_alt_r r1 r2 w g g' : matches r2 w g g' -> matches (re.Alt r1 r2) w g g'
| matches_opt_none r g : matches (re.Opt r) [] g g
| matches_opt_some r w g g' : matches r w g g' -> matches (re.Opt r) w g g'
| matches_star_nil b r g : matches (re.Star b r) [] g g
| matches_star_cons b r w1 w2 g g1 g2 :
    matches r w1 g g1 -> matches (re.Star b r) w2 g1 g2 ->
    matches (re.Star b r) (w1 ++ w2) g g2
| matches_group r w g g' : matches r w g g' -> matches (re.Group r) w g (Some w).

(** A file or directory name that [pathlib] keeps as one component:
    not empty, not a single dot, without a slash. *)
Definition plain_name (s : string) : Prop :=
  Py.contains "/" s = false /\ s <> EmptyString /\ s <> ".".

(** A category of the downloader: [misc], or a non-empty run of capital
    letters. *)
Definition is_category (cat : string) : Prop :=
  cat = "misc" \/ (cat <> EmptyString /\ Py.forallb re.upper_AZ cat = true).

(** One file saved by the downloader: its category, its sequence
    number, its extension and its data. *)
Record Saved := mkSaved {
  saved_cat : string; saved_idx : Z; saved_ext : string; saved_data : string }.

Definition saved_write (out_dir : pathlib.Path) (s : Saved) : string * string :=
  (download_dest out_dir (saved_cat s) (saved_idx s) (saved_ext s), saved_data s).

(** The sequence numbers given in one category, in order. *)
Definition indices_of (cat : string) (log : list Saved) : list Z :=
  map saved_idx (List.filter (fun s => String.eqb (saved_cat s) cat) log).

(** [n] consecutive integers from [first] on. *)
Definition consecutive (first : Z) (n : nat) : list Z :=
  map (fun k => (first + Z.of_nat k)%Z) (seq 0 n).

(** The directories created in a trace, in order. *)
Definition mkdirs (tr : list Event) : list string :=
  flat_map (fun e => match e with EMkdir d => [d] | _ => [] end) tr.

(** The number of misses in a row that ends a scan begun with
    [miss_streak] misses: a limit below 1 acts as 1. *)
Definition misses_to_stop (miss_limit miss_streak : Z) : nat :=
  Z.to_nat (Z.max 1 (miss_limit - miss_streak)).

(** Every character class of the pattern lies within [P]. *)
Fixpoint accepts_only (P : ascii -> bool) (r : re.regex) : Prop :=
  match r with
  | re.Eps => True
  | re.Chr p => forall c, p c = true -> P c = true
  | re.Cat r1 r2 | re.Alt r1 r2 => accepts_only P r1 /\ accepts_only P r2
  | re.Opt r1 | re.Star _ r1 | re.Group r1 => accepts_only P r1
  end.

(** Reading a sequence number back ([int(s)] for a text made of an
    optional minus sign and decimal digits). *)
Definition read_int (s : string) : option Z :=
  match s with
  | String "-" s' => (fun d => (- Z.of_N (N.of_uint d))%Z) <$> NilEmpty.uint_of_string s'
  | _ => (fun d => Z.of_N (N.of_uint d)) <$> NilEmpty.uint_of_string s
  end.

(** What a fallback run does when no probe finds anything: the output
    directory, and for each prefix its directory and the probes of the
    codes from [start] on, as many as it takes to stop. *)
Definition all_miss_events (out_dir : pathlib.Path) (prefixes : list string)
           (start miss_limit : Z) (asset : option string) : list Event :=
  EMkdir (pathlib.to_str out_dir)
  :: flat_map
       (fun p =>
          EMkdir (pathlib.to_str (pathlib.truediv out_dir p))
          :: map (fun i => EHead (cand p (asset_fname asset) i))
                 (take (misses_to_stop miss_limit 0) (range start 2000)))
       prefixes.

(** ** Sample runs *)

Module Scenario.

(** HEAD finds nothing. *)
Definition never_head (u : string) (w : unit) : Reply * unit :=
  (Sample.status_reply 404 EmptyString, w).

(** GET answers the listing page with a document, any other URL with an
    image. *)
Definition listing_get (u : string) (w : unit) : Reply * unit :=
  (Sample.status_reply 200
     (if String.eqb u URL then Sample.gallery_html else "image of " +:+ u), w).

(** The site is down: GET answers 503. *)
Definition down_get (u : string) (w : unit) : Reply * unit :=
  (Sample.status_reply 503 EmptyString, w).

(** The text of a response is its body. *)
Definition page_text (resp : Response) : string := content resp.

(** A document without elements. *)
Definition no_img_parser (html : string) : list Tag := [].

(** An image whose reference has an unbalanced bracket in the host. *)
Definition bad_img : Tag := mkTag "img" {["src" := "//[x"]}.

Definition bad_ref_parser (html : string) : list Tag :=
  [mkTag "img" {["src" := "/img/card.png"]}; bad_img].

(** A document that names a card image in a script only. *)
Definition script_html : string :=
  "<script>art='https://cdn.rgpub.io/public/live/map/riftbound/latest/OGS/cards/OGS-001/full-desktop.jpg';</script>".

Definition script_match : re.Match :=
  hd (re.mkMatch EmptyString None []) (re.finditer cdn_img_pattern script_html).

(** A batch with a failure in the middle. *)
Definition batch : list string :=
  [Sample.ogs1; Sample.missing; Sample.ogs2; Sample.plain].

Definition batch_run : result (gmap string Z) * @St unit :=
  download_loop Sample.accept_all Sample.missing_get Sample.images ∅ batch Sample.st0.

Definition ogs_dir : pathlib.Path := pathlib.truediv Sample.images "OGS".

Definition probe_run : result unit * @St unit :=
  scan_codes Sample.first_card_unavailable Sample.two_cards_head Sample.fields
             "OGS" "full-desktop.jpg" ogs_dir 3 (range 1 2000) 0 1 Sample.st0.

(** A command line with every option set:
    [--prefixes OGN --start 7 --miss-limit 2 --asset thumbnail.jpg]. *)
Definition custom_args : Args := mkArgs ["OGN"] 7 2 "thumbnail.jpg".

(** HEAD finds every URL. *)
Definition always_head (u : string) (w : unit) : Reply * unit :=
  (Sample.status_reply 200 EmptyString, w).

(** A prefix that is itself a replacement field: the template of the
    candidates is [.../latest/{code!s}/cards/{code}/], and both of its
    fields give the text of the code. *)
Definition field_prefix : string := "{code!s}".

Definition field_run : result unit * @St unit :=
  scan_codes Sample.always_get always_head Sample.fields
             field_prefix "full-desktop.jpg"
             (pathlib.truediv Sample.images field_prefix) 3 [1; 2; 3]%Z 0 1
             Sample.st0.

End Scenario.

(** * Properties *)

(** ** Strings *)

Lemma hd_split_space (s : string) :
  hd EmptyString (Py.split " " s) = before_space s.
Proof.
  induction s as [|c s IH]; simpl; [reflexivity|].
  destruct (Ascii.eqb c " "); [reflexivity|].
  destruct (Py.split " " s) as [|h t]; simpl in *; congruence.
Qed.

Lemma srcset_entry_url_eq (part : string) :
  srcset_entry_url part = entry_url part.
Proof. unfold srcset_entry_url, entry_url. now rewrite hd_split_space. Qed.

Lemma take_drop (n : nat) (s : string) : Py.take n s +:+ Py.drop n s = s.
Proof.
  revert s; induction n as [|n IH]; intros [|c s]; try reflexivity.
  cbn [Py.take Py.drop]. change (String c (Py.take n s) +:+ Py.drop n s)
    with (String c (Py.take n s +:+ Py.drop n s)). now rewrite IH.
Qed.

Lemma endswith_suffix (s suf : string) :
  Py.endswith s suf = true -> exists stem, s = stem +:+ suf.
Proof.
  unfold Py.endswith. intros H.
  apply andb_prop in H as [_ H]. apply String.eqb_eq in H.
  exists (Py.take (String.length s - String.length suf) s).
  rewrite <- H at 2. symmetry. apply take_drop.
Qed.

Lemma contains_app (c : ascii) (a b : string) :
  Py.contains c (a +:+ b) = Py.contains c a || Py.contains c b.
Proof.
  induction a as [|d a IH]; [reflexivity|].
  change (String d a +:+ b) with (String d (a +:+ b)).
  cbn [Py.contains]. rewrite IH. now rewrite orb_assoc.
Qed.

Lemma append_assoc (a b c : string) : (a +:+ b) +:+ c = a +:+ (b +:+ c).
Proof.
  induction a as [|d a IH]; [reflexivity|].
  change ((String d a +:+ b) +:+ c) with (String d ((a +:+ b) +:+ c)).
  now rewrite IH.
Qed.

(** ** [parse_srcset] *)

(** C8, as the specification words it, fails: an entry whose descriptor
    follows a tab is not cut at the tab, so [parse_srcset] does not
    return the first whitespace-delimited token of every entry. *)
Lemma parse_srcset_not_first_token :
  ~ (forall srcset, parse_srcset srcset = spec_parse_srcset srcset).
Proof.
  intros H. specialize (H tab_entry). vm_compute in H. discriminate.
Qed.

(** C8, amended: [parse_srcset] of the text [a.jpg 1x, b.jpg 2x] is the
    two URLs [a.jpg] and [b.jpg] in that order, which the extractor then
    resolves against the base URL one by one; in general every
    comma-separated entry, stripped of surrounding whitespace,
    contributes the text before its first space character, stripped
    again, and an entry that contributes the empty text is skipped. *)
Theorem parse_srcset_entries :
  parse_srcset "a.jpg 1x, b.jpg 2x" = ["a.jpg"; "b.jpg"]
  /\ (forall cb base_url,
        result_map (urllib.urljoin cb base_url) (img_candidates srcset_img)
        = (a ← urllib.urljoin cb base_url "a.jpg";
           b ← urllib.urljoin cb base_url "b.jpg"; Ok [a; b]))
  /\ (forall srcset,
        parse_srcset srcset
        = List.filter Py.truthy (map entry_url (Py.split "," srcset))).
Proof.
  split; [reflexivity|]. split.
  - intros cb base_url.
    change (img_candidates srcset_img) with ["a.jpg"; "b.jpg"].
    simpl. destruct (urllib.urljoin cb base_url "a.jpg"); simpl; [|reflexivity].
    destruct (urllib.urljoin cb base_url "b.jpg"); reflexivity.
  - intros srcset. unfold parse_srcset. f_equal.
    apply map_ext. apply srcset_entry_url_eq.
Qed.

(** ** [str.format] on the template of a prefix *)

Section FormatPlain.

Variable format_field : string -> option ascii -> string -> string -> result string.

Abbreviation format_from := (format_from format_field).
Abbreviation candidate_url := (candidate_url format_field).

Lemma format_from_plain (code s1 s2 : string) :
  no_brace s1 ->
  format_from code Text (s1 +:+ s2)
  = (r ← format_from code Text s2; Ok (s1 +:+ r)).
Proof.
  intros [Ho Hc]. induction s1 as [|c s1 IH].
  - change (EmptyString +:+ s2) with s2.
    destruct (format_from code Text s2); reflexivity.
  - cbn [Py.contains] in Ho, Hc.
    apply orb_false_elim in Ho as [Ho1 Ho2].
    apply orb_false_elim in Hc as [Hc1 Hc2].
    change (String c s1 +:+ s2) with (String c (s1 +:+ s2)).
    cbn [format_from]. rewrite Ho1, Hc1, (IH Ho2 Hc2).
    destruct (format_from code Text s2); reflexivity.
Qed.

Lemma no_brace_base (prefix : string) :
  no_brace prefix -> no_brace (CDN_BASE +:+ prefix +:+ "/cards/").
Proof.
  intros [Ho Hc]. split; rewrite !contains_app, ?Ho, ?Hc; reflexivity.
Qed.

Lemma format_code_field (code : string) :
  format_from code Text "{code}/" = Ok (code +:+ "/").
Proof. reflexivity. Qed.

Lemma candidate_url_plain (prefix fname : string) (i : Z) :
  no_brace prefix -> candidate_url prefix fname i = Ok (cand prefix fname i).
Proof.
  intros Hp. unfold candidate_url, format_code, base_template.
  change "/cards/{code}/" with ("/cards/" +:+ "{code}/").
  rewrite <- !append_assoc.
  rewrite (append_assoc CDN_BASE prefix "/cards/").
  rewrite format_from_plain by now apply no_brace_base.
  rewrite format_code_field. unfold cand. cbn [mbind result_bind].
  rewrite !append_assoc. reflexivity.
Qed.

End FormatPlain.

(** ** Traces *)

Lemma writes_app (a b : list Event) : writes (a ++ b) = writes a ++ writes b.
Proof. unfold writes. apply flat_map_app. Qed.

Lemma gets_app (a b : list Event) : gets (a ++ b) = gets a ++ gets b.
Proof. unfold gets. apply flat_map_app. Qed.

Lemma range_cons (lo hi : Z) :
  (lo < hi)%Z -> range lo hi = lo :: range (lo + 1) hi.
Proof.
  intros H. unfold range.
  replace (Z.to_nat (hi - lo)) with (S (Z.to_nat (hi - (lo + 1)))) by lia.
  cbn [seq map]. rewrite Z.add_0_r. f_equal.
  rewrite <- seq_shift, map_map. apply map_ext. intros k. lia.
Qed.

(** ** The existence probe and the fallback prober *)

Section Probe.

Context {World : Type}.
Variable requests_get : string -> World -> Reply * World.
Variable requests_head : string -> World -> Reply * World.
Variable format_field : string -> option ascii -> string -> string -> result string.

Abbreviation scan := (scan_codes requests_get requests_head format_field).
Abbreviation candidate_url := (candidate_url format_field).

Lemma try_head_run (url : string) (st : St) :
  try_head requests_head url st
  = (Ok (head_ok (fst (requests_head url (world st)))),
     mkSt (snd (requests_head url (world st))) (trace st ++ [EHead url])).
Proof.
  unfold try_head, http_head, mbind, M_bind.
  destruct (requests_head url (world st)) as [[r|] w]; reflexivity.
Qed.

(** C9: [try_head] always returns, with one HEAD request made; it
    returns [True] exactly when the request is answered with the
    status 200, and [False] when the request raises. *)
Theorem try_head_true_iff_200 (url : string) (st : St) :
  exists (b : bool) (st' : St),
    try_head requests_head url st = (Ok b, st')
    /\ trace st' = trace st ++ [EHead url]
    /\ (b = true <->
        exists r w', requests_head url (world st) = (Responded r, w')
                     /\ status_code r = 200%Z)
    /\ (forall w', requests_head url (world st) = (RequestException, w') ->
                   b = false).
Proof.
  unfold try_head, http_head, mbind, M_bind.
  destruct (requests_head url (world st)) as [[r|] w] eqn:Hr.
  - exists (status_code r =? 200)%Z. eexists. split; [reflexivity|].
    split; [reflexivity|]. split; [|discriminate].
    rewrite Z.eqb_eq. split.
    + intros H. now exists r, w.
    + intros (r' & w' & Heq & H). now injection Heq as <- <-.
  - exists false. eexists. split; [reflexivity|]. split; [reflexivity|].
    split; [|reflexivity]. split; [discriminate|].
    intros (r' & w' & Heq & _). discriminate.
Qed.

(** One turn of the probing loop, by cases on the two replies. *)
Lemma scan_codes_cons prefix fname subdir ml i codes ms idx (st : St) c :
  candidate_url prefix fname i = Ok c ->
  scan prefix fname subdir ml (i :: codes) ms idx st
  = let hr := requests_head c (world st) in
    let st1 := mkSt (snd hr) (trace st ++ [EHead c]) in
    if head_ok (fst hr) then
      let gr := requests_get c (snd hr) in
      let st2 := mkSt (snd gr) (trace st1 ++ [EGet c]) in
      if fetch_ok (fst gr) then
        scan prefix fname subdir ml codes 0%Z (idx + 1)%Z
             (mkSt (snd gr)
                   (trace st2 ++ [EWrite (fallback_dest subdir idx)
                                         (reply_content (fst gr))]))
      else scan prefix fname subdir ml codes 0%Z idx st2
    else if (ml <=? ms + 1)%Z then (Ok tt, st1)
         else scan prefix fname subdir ml codes (ms + 1)%Z idx st1.
Proof.
  intros Hc. cbn [scan_codes]. unfold mbind at 1. unfold M_bind at 1.
  unfold lift. rewrite Hc.
  unfold mbind at 1. unfold M_bind at 1. rewrite try_head_run.
  cbv zeta.
  destruct (requests_head c (world st)) as [hr w1]. cbn [fst snd].
  destruct (head_ok hr); cbn [negb].
  - unfold mbind at 1. unfold M_bind at 1. unfold http_get. cbn [world trace].
    destruct (requests_get c w1) as [[r|] w2]; cbn [fst snd fetch_ok reply_content].
    + destruct (raises_for_status r); cbn [negb]; [reflexivity|].
      unfold mbind, M_bind, emit. reflexivity.
    + reflexivity.
  - destruct (ml <=? ms + 1)%Z; reflexivity.
Qed.

Lemma scan_codes_raise prefix fname subdir ml i codes ms idx (st : St) e :
  candidate_url prefix fname i = Raise e ->
  scan prefix fname subdir ml (i :: codes) ms idx st = (Raise e, st).
Proof.
  intros Hc. cbn [scan_codes]. unfold mbind at 1. unfold M_bind at 1.
  unfold lift. now rewrite Hc.
Qed.

(** The files of one scan carry consecutive sequence numbers from
    [idx] on, whatever the network answers. *)
Lemma scan_codes_writes prefix fname subdir ml codes :
  forall ms idx (st : St) r st',
    scan prefix fname subdir ml codes ms idx st = (r, st') ->
    exists ev n,
      trace st' = trace st ++ ev
      /\ map fst (writes ev)
         = map (fun k => fallback_dest subdir (idx + Z.of_nat k)) (seq 0 n).
Proof.
  induction codes as [|i codes IH]; intros ms idx st r st' H.
  - cbn in H. injection H as <- <-. exists [], 0%nat.
    split; [now rewrite app_nil_r | reflexivity].
  - destruct (candidate_url prefix fname i) as [c|e] eqn:Hc.
    2:{ rewrite (scan_codes_raise _ _ _ _ _ _ _ _ _ _ Hc) in H.
        injection H as <- <-. exists [], 0%nat.
        split; [now rewrite app_nil_r | reflexivity]. }
    rewrite (scan_codes_cons _ _ _ _ _ _ _ _ _ _ Hc) in H. cbv zeta in H.
    destruct (head_ok (fst (requests_head c (world st)))).
    + destruct (fetch_ok (fst (requests_get c (snd (requests_head c (world st)))))).
      * apply IH in H as (ev & n & Ht & Hw). cbn [trace] in Ht.
        exists ([EHead c; EGet c;
                 EWrite (fallback_dest subdir idx)
                   (reply_content
                      (fst (requests_get c (snd (requests_head c (world st))))))]
                ++ ev), (S n).
        split.
        { rewrite Ht. rewrite <- !app_assoc. reflexivity. }
        rewrite writes_app. cbn [writes flat_map app map fst seq].
        rewrite Z.add_0_r. f_equal.
        rewrite Hw. rewrite <- seq_shift, map_map.
        apply map_ext. intros k. f_equal. lia.
      * apply IH in H as (ev & n & Ht & Hw). cbn [trace] in Ht.
        exists ([EHead c; EGet c] ++ ev), n.
        split; [rewrite Ht; now rewrite <- !app_assoc|].
        rewrite writes_app. exact Hw.
    + destruct (ml <=? ms + 1)%Z.
      * injection H as <- <-. exists [EHead c], 0%nat. split; reflexivity.
      * apply IH in H as (ev & n & Ht & Hw). cbn [trace] in Ht.
        exists ([EHead c] ++ ev), n.
        split; [rewrite Ht; now rewrite <- !app_assoc|].
        rewrite writes_app. exact Hw.
Qed.

(** C1: with a miss limit of 3, a start at code 1 and a prefix whose
    codes 1 and 2 are found and downloaded while the codes 3, 4 and 5
    are not found, the prober probes the codes 1 to 5 in order, stops
    after the probe of code 5, and writes exactly two files,
    [001.jpg] and [002.jpg], under the directory of the prefix. *)
Theorem fallback_two_hits_then_three_misses
        (out_dir : pathlib.Path) (prefix : string) (asset : option string)
        (st : St) :
  let fname := asset_fname asset in
  let subdir := pathlib.truediv out_dir prefix in
  let c := cand prefix fname in
  no_brace prefix ->
  (forall w, head_ok (fst (requests_head (c 1%Z) w)) = true) ->
  (forall w, head_ok (fst (requests_head (c 2%Z) w)) = true) ->
  (forall w, fetch_ok (fst (requests_get (c 1%Z) w)) = true) ->
  (forall w, fetch_ok (fst (requests_get (c 2%Z) w)) = true) ->
  (forall w, head_ok (fst (requests_head (c 3%Z) w)) = false) ->
  (forall w, head_ok (fst (requests_head (c 4%Z) w)) = false) ->
  (forall w, head_ok (fst (requests_head (c 5%Z) w)) = false) ->
  exists b1 b2 w',
    fallback_guess_by_prefixes requests_get requests_head format_field
      out_dir [prefix] 1%Z 3%Z asset st
    = (Ok tt,
       mkSt w'
         (trace st ++
            [EMkdir (pathlib.to_str out_dir);
             EMkdir (pathlib.to_str subdir);
             EHead (c 1%Z); EGet (c 1%Z);
             EWrite (pathlib.to_str (pathlib.truediv subdir "001.jpg")) b1;
             EHead (c 2%Z); EGet (c 2%Z);
             EWrite (pathlib.to_str (pathlib.truediv subdir "002.jpg")) b2;
             EHead (c 3%Z); EHead (c 4%Z); EHead (c 5%Z)])).
Proof.
  intros fname subdir c Hp H1 H2 G1 G2 H3 H4 H5.
  unfold fallback_guess_by_prefixes, for_each, scan_prefix.
  unfold mbind, M_bind, emit, mret, M_ret. cbn [world trace].
  fold fname. fold subdir.
  rewrite (range_cons 1) by lia. rewrite (range_cons (1 + 1)) by lia.
  rewrite (range_cons (1 + 1 + 1)) by lia.
  rewrite (range_cons (1 + 1 + 1 + 1)) by lia.
  rewrite (range_cons (1 + 1 + 1 + 1 + 1)) by lia.
  cbn [Z.add Pos.add Pos.succ].
  pose proof (fun i => candidate_url_plain format_field prefix fname i Hp) as Hc.
  fold c in Hc.
  rewrite (scan_codes_cons _ _ _ _ _ _ _ _ _ _ (Hc 1%Z)). cbv zeta.
  cbn [world trace]. rewrite H1, G1.
  rewrite (scan_codes_cons _ _ _ _ _ _ _ _ _ _ (Hc 2%Z)). cbv zeta.
  cbn [world trace]. rewrite H2, G2.
  rewrite (scan_codes_cons _ _ _ _ _ _ _ _ _ _ (Hc 3%Z)). cbv zeta.
  cbn [world trace]. rewrite H3.
  change (3 <=? 0 + 1)%Z with false. cbv iota.
  rewrite (scan_codes_cons _ _ _ _ _ _ _ _ _ _ (Hc 4%Z)). cbv zeta.
  cbn [world trace]. rewrite H4.
  change (3 <=? 0 + 1 + 1)%Z with false. cbv iota.
  rewrite (scan_codes_cons _ _ _ _ _ _ _ _ _ _ (Hc 5%Z)). cbv zeta.
  cbn [world trace]. rewrite H5.
  change (3 <=? 0 + 1 + 1 + 1)%Z with true. cbv iota.
  eexists _, _, _. rewrite <- !app_assoc. cbn [app]. reflexivity.
Qed.

(** Probes that find nothing, fewer than it takes to stop: the loop
    goes on to the next code with the misses counted. *)
Lemma scan_codes_skip prefix fname subdir ml mid rest :
  no_brace prefix ->
  (forall i w, i ∈ mid ->
               head_ok (fst (requests_head (cand prefix fname i) w)) = false) ->
  forall ms idx (st : St),
    (length mid < misses_to_stop ml ms)%nat ->
    exists w',
      scan prefix fname subdir ml (mid ++ rest) ms idx st
      = scan prefix fname subdir ml rest (ms + Z.of_nat (length mid)) idx
             (mkSt w' (trace st ++ map (fun i => EHead (cand prefix fname i)) mid)).
Proof.
  intros Hp. induction mid as [|i mid IH]; intros Hmiss ms idx st Hlen.
  - exists (world st). cbn [app length map Z.of_nat].
    rewrite Z.add_0_r, app_nil_r. now destruct st.
  - cbn [app].
    rewrite (scan_codes_cons _ _ _ _ _ _ _ _ _ _ (candidate_url_plain _ _ fname i Hp)).
    cbv zeta. rewrite Hmiss by apply list_elem_of_here.
    cbn [length] in Hlen.
    destruct (ml <=? ms + 1)%Z eqn:Hl.
    + apply Z.leb_le in Hl. unfold misses_to_stop in Hlen. lia.
    + apply Z.leb_gt in Hl.
      match goal with |- context [scan _ _ _ _ (mid ++ rest) ?m ?j ?s] =>
        destruct (IH (fun k w Hk => Hmiss k w (list_elem_of_further _ _ _ Hk)) m j s)
          as (w' & Hr) end.
      { unfold misses_to_stop in *. lia. }
      exists w'. rewrite Hr. cbn [trace length map].
      rewrite <- app_assoc. cbn [app].
      replace (ms + 1 + Z.of_nat (length mid))%Z
        with (ms + Z.of_nat (S (length mid)))%Z by lia.
      reflexivity.
Qed.

(** Probes that find nothing, to the end: the loop stops at the miss
    that fills the limit, or when the codes run out. *)
Lemma scan_codes_misses prefix fname subdir ml codes :
  no_brace prefix ->
  (forall i w, i ∈ codes ->
               head_ok (fst (requests_head (cand prefix fname i) w)) = false) ->
  forall ms idx (st : St),
  exists w',
    scan prefix fname subdir ml codes ms idx st
    = (Ok tt,
       mkSt w' (trace st ++
                  map (fun i => EHead (cand prefix fname i))
                      (take (misses_to_stop ml ms) codes))).
Proof.
  intros Hp. induction codes as [|i codes IH]; intros Hmiss ms idx st.
  - exists (world st). cbn. rewrite take_nil. cbn. rewrite app_nil_r. now destruct st.
  - rewrite (scan_codes_cons _ _ _ _ _ _ _ _ _ _ (candidate_url_plain _ _ fname i Hp)).
    cbv zeta. rewrite Hmiss by apply list_elem_of_here.
    destruct (ml <=? ms + 1)%Z eqn:Hl.
    + apply Z.leb_le in Hl. eexists.
      replace (misses_to_stop ml ms) with 1%nat by (unfold misses_to_stop; lia).
      reflexivity.
    + apply Z.leb_gt in Hl.
      match goal with |- context [scan _ _ _ _ codes ?m ?j ?s] =>
        destruct (IH (fun k w Hk => Hmiss k w (list_elem_of_further _ _ _ Hk)) m j s)
          as (w' & Hr) end.
      exists w'. rewrite Hr. cbn [trace].
      replace (misses_to_stop ml ms) with (S (misses_to_stop ml (ms + 1)))
        by (unfold misses_to_stop; lia).
      cbn [take map]. now rewrite <- app_assoc.
Qed.

(** C10: when the probe of a candidate succeeds and its download
    fails, the loop goes on with the miss counter at zero and the save
    index unchanged, having written nothing.  The counter is at zero:
    if nothing more is found, the loop makes, after the failure, as
    many probes as the miss limit asks for, however many misses it had
    counted before.  The index is unchanged: the next candidate that is
    found and downloaded, after fewer misses than the limit, is saved
    under the number the loop had before the failure.  And the files a
    scan writes are numbered consecutively from the index it starts
    with, whatever the network answers. *)
Theorem fallback_failed_download_keeps_index
        prefix fname subdir ml i codes ms idx (st : St) c :
  candidate_url prefix fname i = Ok c ->
  head_ok (fst (requests_head c (world st))) = true ->
  fetch_ok (fst (requests_get c (snd (requests_head c (world st))))) = false ->
  let probe j := EHead (cand prefix fname j) in
  (* the turn of the failed download *)
  scan prefix fname subdir ml (i :: codes) ms idx st
  = scan prefix fname subdir ml codes 0%Z idx
         (mkSt (snd (requests_get c (snd (requests_head c (world st)))))
               (trace st ++ [EHead c; EGet c]))
  (* the miss counter is at zero after it *)
  /\ (no_brace prefix ->
      (forall j w, j ∈ codes ->
                   head_ok (fst (requests_head (cand prefix fname j) w)) = false) ->
      exists w',
        scan prefix fname subdir ml (i :: codes) ms idx st
        = (Ok tt,
           mkSt w' (trace st ++ [EHead c; EGet c]
                             ++ map probe (take (misses_to_stop ml 0) codes))))
  (* the next file saved takes the number [idx] *)
  /\ (forall mid j rest,
        codes = mid ++ j :: rest ->
        no_brace prefix ->
        (length mid < misses_to_stop ml 0)%nat ->
        (forall k w, k ∈ mid ->
                     head_ok (fst (requests_head (cand prefix fname k) w)) = false) ->
        (forall w, head_ok (fst (requests_head (cand prefix fname j) w)) = true) ->
        (forall w, fetch_ok (fst (requests_get (cand prefix fname j) w)) = true) ->
        exists w1,
          let gr := requests_get (cand prefix fname j) w1 in
          scan prefix fname subdir ml (i :: codes) ms idx st
          = scan prefix fname subdir ml rest 0%Z (idx + 1)%Z
                 (mkSt (snd gr)
                       (trace st ++ [EHead c; EGet c] ++ map probe mid
                                 ++ [probe j; EGet (cand prefix fname j);
                                     EWrite (fallback_dest subdir idx)
                                            (reply_content (fst gr))])))
  (* the numbers of the files of a run have no gap *)
  /\ forall r st',
       scan prefix fname subdir ml (i :: codes) ms idx st = (r, st') ->
       exists ev n,
         trace st' = trace st ++ ev
         /\ map fst (writes ev)
            = map (fun k => fallback_dest subdir (idx + Z.of_nat k)) (seq 0 n).
Proof.
  intros Hc Hh Hg probe.
  assert (Hstep : scan prefix fname subdir ml (i :: codes) ms idx st
                  = scan prefix fname subdir ml codes 0%Z idx
                      (mkSt (snd (requests_get c (snd (requests_head c (world st)))))
                            (trace st ++ [EHead c; EGet c]))).
  { rewrite (scan_codes_cons _ _ _ _ _ _ _ _ _ _ Hc). cbv zeta.
    rewrite Hh, Hg. cbn [trace]. now rewrite <- app_assoc. }
  split; [exact Hstep|]. split; [|split].
  - intros Hp Hmiss. rewrite Hstep.
    match goal with |- context [scan _ _ _ _ codes ?m ?j ?s] =>
      destruct (scan_codes_misses prefix fname subdir ml codes Hp Hmiss m j s)
        as (w' & Hr) end.
    exists w'. rewrite Hr. cbn [trace]. now rewrite <- app_assoc.
  - intros mid j rest -> Hp Hlen Hmiss Hhit Hget. rewrite Hstep.
    match goal with |- context [scan _ _ _ _ (mid ++ j :: rest) ?m ?k ?s] =>
      destruct (scan_codes_skip prefix fname subdir ml mid (j :: rest) Hp Hmiss m k s Hlen)
        as (w' & Hr) end.
    rewrite Hr.
    rewrite (scan_codes_cons _ _ _ _ _ _ _ _ _ _ (candidate_url_plain _ _ fname j Hp)).
    cbv zeta. cbn [world trace]. rewrite Hhit, Hget.
    exists (snd (requests_head (cand prefix fname j) w')). cbv zeta.
    f_equal. f_equal. rewrite <- !app_assoc. reflexivity.
  - intros r st'. apply scan_codes_writes.
Qed.

End Probe.

(** C7, at the input where the code departs from it: a fallback run for
    the asset [full-desktop.png] fetches a URL whose inferred extension
    is [.png], and saves it as [001.jpg]. *)
Theorem fallback_png_asset_saved_as_jpg :
  file_ext_for_url Sample.accept_all Sample.png_card = Ok ".png"
  /\ writes (trace (snd (fallback_guess_by_prefixes
                           Sample.always_get Sample.png_head Sample.fields Sample.images
                           ["OGS"] 1%Z 3%Z (Some "full-desktop.png") Sample.st0)))
     = [("images/OGS/001.jpg", "image of " +:+ Sample.png_card)].
Proof. split; vm_compute; reflexivity. Qed.

(** ** The downloader *)

Lemma fetch_ok_false_iff (reply : Reply) :
  fetch_ok reply = false <-> fetch_fails reply.
Proof.
  destruct reply as [r|]; cbn; [|tauto]. unfold raises_for_status.
  rewrite negb_false_iff, andb_true_iff, Z.leb_le, Z.ltb_lt. tauto.
Qed.

Section Download.

Variable check_bracketed_host : string -> bool.
Context {World : Type}.
Variable requests_get : string -> World -> Reply * World.

Abbreviation urlparse := (urllib.urlparse check_bracketed_host).
Abbreviation one := (download_one check_bracketed_host requests_get).
Abbreviation loop := (download_loop check_bracketed_host requests_get).

(** One turn of the download loop, by cases on the reply. *)
Lemma download_one_run out_dir counters u (st : St) p ext :
  detect_prefix check_bracketed_host u = Ok p ->
  file_ext_for_url check_bracketed_host u = Ok ext ->
  one out_dir counters u st
  = let prefix := prefix_or_misc p in
    let next_idx := default 1%Z (counters !! prefix) in
    let gr := requests_get u (world st) in
    let tr := trace st ++
                [EMkdir (pathlib.to_str (pathlib.truediv out_dir prefix));
                 EGet u] in
    if fetch_ok (fst gr) then
      (Ok (<[prefix := (next_idx + 1)%Z]> counters),
       mkSt (snd gr)
            (tr ++ [EWrite (download_dest out_dir prefix next_idx ext)
                           (reply_content (fst gr))]))
    else (Ok counters, mkSt (snd gr) tr).
Proof.
  intros Hp He. unfold download_one, mbind, M_bind, lift, emit, http_get.
  rewrite Hp, He. cbn [world trace]. cbv zeta.
  destruct (requests_get u (world st)) as [[r|] w]; cbn [fst snd fetch_ok].
  - destruct (raises_for_status r); cbn [negb reply_content].
    + rewrite <- app_assoc. reflexivity.
    + unfold mret, M_ret. cbn [world trace]. rewrite <- !app_assoc. reflexivity.
  - rewrite <- app_assoc. reflexivity.
Qed.

Lemma parsed_detect u p :
  urlparse u = Ok p -> exists q, detect_prefix check_bracketed_host u = Ok q.
Proof. intros H. unfold detect_prefix. rewrite H. eexists. reflexivity. Qed.

Lemma parsed_ext u p :
  urlparse u = Ok p -> exists e, file_ext_for_url check_bracketed_host u = Ok e.
Proof. intros H. unfold file_ext_for_url. rewrite H. eexists. reflexivity. Qed.

(** Every URL of the batch is fetched, and the bodies written are
    those of the fetches that succeeded. *)
Lemma download_loop_isolated out_dir urls :
  Forall (fun u => exists p, urlparse u = Ok p) urls ->
  forall counters (st : St),
  exists counters' st' ev,
    loop out_dir counters urls st = (Ok counters', st')
    /\ trace st' = trace st ++ ev
    /\ gets ev = urls
    /\ map snd (writes ev)
       = map reply_content
           (List.filter fetch_ok (replies requests_get urls (world st))).
Proof.
  induction 1 as [|u urls [p Hu] _ IH]; intros counters st.
  - exists counters, st, []. cbn. now rewrite app_nil_r.
  - destruct (parsed_detect _ _ Hu) as [q Hq].
    destruct (parsed_ext _ _ Hu) as [e He].
    cbn [download_loop replies List.filter]. unfold mbind at 1. unfold M_bind at 1.
    rewrite (download_one_run _ _ _ _ _ _ Hq He). cbv zeta.
    destruct (fetch_ok (fst (requests_get u (world st)))).
    + match goal with |- context [loop out_dir ?c urls ?s] =>
        destruct (IH c s) as (c' & st' & ev & Hr & Ht & Hg & Hw) end.
      cbn [world trace] in *.
      eexists c', st', (_ :: _ :: _ :: ev).
      split; [exact Hr|]. split.
      { rewrite Ht. rewrite <- !app_assoc. cbn [app]. reflexivity. }
      split.
      { cbn [gets flat_map app]. fold (gets ev). now rewrite Hg. }
      cbn [writes flat_map app map snd]. fold (writes ev). now rewrite Hw.
    + match goal with |- context [loop out_dir ?c urls ?s] =>
        destruct (IH c s) as (c' & st' & ev & Hr & Ht & Hg & Hw) end.
      cbn [world trace] in *.
      eexists c', st', (_ :: _ :: ev).
      split; [exact Hr|]. split.
      { rewrite Ht. rewrite <- !app_assoc. cbn [app]. reflexivity. }
      split.
      { cbn [gets flat_map app]. fold (gets ev). now rewrite Hg. }
      cbn [writes flat_map app map snd]. fold (writes ev). exact Hw.
Qed.

(** C4, amended: a fetch fails when [requests] raises or the response
    has a status from 400 to 599.  For a batch of URLs that all parse,
    the loop ends normally having fetched every URL in order, and the
    bodies it wrote are the bodies of the fetches that did not fail,
    so a failure keeps no other URL from being saved; and when the
    fetch of the first URL fails, its turn writes no file and leaves
    the counters as they were, and the loop goes on with the rest. *)
Theorem download_failure_is_isolated out_dir urls counters (st : St) :
  Forall (fun u => exists p, urlparse u = Ok p) urls ->
  (exists counters' st' ev,
      loop out_dir counters urls st = (Ok counters', st')
      /\ trace st' = trace st ++ ev
      /\ gets ev = urls
      /\ map snd (writes ev)
         = map reply_content
             (List.filter fetch_ok (replies requests_get urls (world st))))
  /\ (forall reply, fetch_ok reply = false <-> fetch_fails reply)
  /\ (forall u rest,
        urls = u :: rest ->
        fetch_fails (fst (requests_get u (world st))) ->
        exists st1,
          one out_dir counters u st = (Ok counters, st1)
          /\ writes (trace st1) = writes (trace st)
          /\ loop out_dir counters urls st = loop out_dir counters rest st1).
Proof.
  intros Hparse. split; [now apply download_loop_isolated|].
  split; [apply fetch_ok_false_iff|].
  intros u rest -> Hfail. inversion Hparse as [|? ? [p Hu] _]; subst.
  destruct (parsed_detect _ _ Hu) as [q Hq].
  destruct (parsed_ext _ _ Hu) as [e He].
  apply fetch_ok_false_iff in Hfail.
  pose proof (download_one_run out_dir counters u st q e Hq He) as Hone.
  cbv zeta in Hone. rewrite Hfail in Hone.
  eexists. split; [exact Hone|]. split.
  - cbn [trace]. rewrite writes_app. cbn. now rewrite app_nil_r.
  - cbn [download_loop]. unfold mbind at 1. unfold M_bind at 1.
    now rewrite Hone.
Qed.

(** C5: two URLs classified OGS and then a URL without a prefix, all
    three with the extension [.jpg] and all three fetched with
    success, are written as [001.jpg] and [002.jpg] under [OGS] and
    as [001.jpg] under [misc], in that order. *)
Theorem download_two_ogs_then_misc
        out_dir u1 u2 u3 (st : St) r1 r2 r3 w1 w2 w3 :
  detect_prefix check_bracketed_host u1 = Ok (Some "OGS") ->
  detect_prefix check_bracketed_host u2 = Ok (Some "OGS") ->
  detect_prefix check_bracketed_host u3 = Ok None ->
  file_ext_for_url check_bracketed_host u1 = Ok ".jpg" ->
  file_ext_for_url check_bracketed_host u2 = Ok ".jpg" ->
  file_ext_for_url check_bracketed_host u3 = Ok ".jpg" ->
  requests_get u1 (world st) = (Responded r1, w1) ->
  requests_get u2 w1 = (Responded r2, w2) ->
  requests_get u3 w2 = (Responded r3, w3) ->
  raises_for_status r1 = false ->
  raises_for_status r2 = false ->
  raises_for_status r3 = false ->
  let ogs := pathlib.truediv out_dir "OGS" in
  let misc := pathlib.truediv out_dir "misc" in
  download_images check_bracketed_host requests_get [u1; u2; u3] out_dir st
  = (Ok tt,
     mkSt w3
       (trace st ++
          [EMkdir (pathlib.to_str out_dir);
           EMkdir (pathlib.to_str ogs); EGet u1;
           EWrite (pathlib.to_str (pathlib.truediv ogs "001.jpg")) (content r1);
           EMkdir (pathlib.to_str ogs); EGet u2;
           EWrite (pathlib.to_str (pathlib.truediv ogs "002.jpg")) (content r2);
           EMkdir (pathlib.to_str misc); EGet u3;
           EWrite (pathlib.to_str (pathlib.truediv misc "001.jpg")) (content r3)])).
Proof.
  intros P1 P2 P3 E1 E2 E3 G1 G2 G3 S1 S2 S3 ogs misc.
  unfold download_images. unfold mbind at 1. unfold M_bind at 1.
  unfold emit at 1. cbn [world trace].
  cbn [download_loop]. unfold mbind at 1. unfold M_bind at 1.
  unfold mbind at 1. unfold M_bind at 1.
  rewrite (download_one_run _ _ _ _ _ _ P1 E1). cbv zeta.
  cbn [world trace]. rewrite G1. cbn [fst snd fetch_ok reply_content].
  rewrite S1. cbn [negb].
  unfold mbind at 1. unfold M_bind at 1.
  rewrite (download_one_run _ _ _ _ _ _ P2 E2). cbv zeta.
  cbn [world trace]. rewrite G2. cbn [fst snd fetch_ok reply_content].
  rewrite S2. cbn [negb].
  unfold mbind at 1. unfold M_bind at 1.
  rewrite (download_one_run _ _ _ _ _ _ P3 E3). cbv zeta.
  cbn [world trace]. rewrite G3. cbn [fst snd fetch_ok reply_content].
  rewrite S3. cbn [negb]. unfold mret, M_ret.
  cbn [prefix_or_misc Py.truthy].
  rewrite lookup_empty, lookup_insert_eq.
  rewrite lookup_insert_ne by discriminate.
  rewrite lookup_insert_ne by discriminate. rewrite lookup_empty.
  cbn [default]. rewrite <- !app_assoc. cbn [app]. reflexivity.
Qed.

End Download.

(** C4, as the specification words it, fails: a response with the
    status 304 is not a 2xx response, yet [raise_for_status] does not
    raise for it, so its body is written and the counter advances. *)
Lemma download_saves_non_2xx_response :
  ~ (forall (requests_get : string -> unit -> Reply * unit)
            out_dir counters u (st : St),
        spec_fetch_fails (fst (requests_get u (world st))) ->
        let run := download_one Sample.accept_all requests_get out_dir counters u st in
        fst run = Ok counters /\ writes (trace (snd run)) = writes (trace st)).
Proof.
  intros H.
  specialize (H Sample.not_modified_get Sample.images ∅ Sample.plain Sample.st0).
  destruct H as [_ H]; [cbn; lia|].
  vm_compute in H. discriminate.
Qed.

(** ** The extractor *)

(** Loops that may raise. *)

Lemma result_map_app {A B} (f : A -> result B) (l1 l2 : list A) k1 k2 :
  result_map f l1 = Ok k1 -> result_map f l2 = Ok k2 -> result_map f (l1 ++ l2) = Ok (k1 ++ k2).
Proof.
  revert k1. induction l1 as [|x l1 IH]; intros k1 H1 H2.
  - cbn in H1. injection H1 as <-. exact H2.
  - cbn in *. destruct (f x) as [y|]; [|discriminate]. cbn in *.
    destruct (result_map f l1) as [ys|]; [|discriminate]. cbn in *.
    injection H1 as <-. rewrite (IH ys eq_refl H2). reflexivity.
Qed.

Lemma result_filter_spec {A} (f : A -> result bool) (l l' : list A) :
  result_filter f l = Ok l' ->
  (forall x, x ∈ l' <-> x ∈ l /\ f x = Ok true) /\ l' `sublist_of` l.
Proof.
  revert l'. induction l as [|x l IH]; intros l' H.
  - cbn in H. injection H as <-. split; [|constructor].
    intros y. rewrite elem_of_nil. tauto.
  - cbn in H. destruct (f x) as [b|] eqn:Hx; [|discriminate]. cbn in H.
    destruct (result_filter f l) as [ys|]; [|discriminate]. cbn in H.
    injection H as <-. destruct (IH ys eq_refl) as [Hin Hsub].
    destruct b.
    + split; [|now constructor].
      intros y. rewrite !elem_of_cons, Hin. split.
      * intros [->|[? ?]]; auto.
      * intros [[->|?] ?]; auto.
    + split; [|now constructor].
      intros y. rewrite elem_of_cons, Hin. split.
      * intros [? ?]; auto.
      * intros [[->|?] Hy]; [congruence|auto].
Qed.

Lemma result_map_sublist {A B} (f : A -> result B) (l l' : list A) ks :
  l' `sublist_of` l -> result_map f l = Ok ks ->
  exists ks', result_map f l' = Ok ks' /\ ks' `sublist_of` ks.
Proof.
  intros Hs. revert ks. induction Hs as [|x l1 l2 Hs IH|x l1 l2 Hs IH]; intros ks H.
  - exists []. split; [reflexivity|]. apply sublist_nil_l.
  - cbn in *. destruct (f x) as [y|]; [|discriminate]. cbn in *.
    destruct (result_map f l2) as [ys|]; [|discriminate]. cbn in *. injection H as <-.
    destruct (IH ys eq_refl) as (ks' & -> & Hk). exists (y :: ks').
    split; [reflexivity|now constructor].
  - cbn in *. destruct (f x) as [y|]; [|discriminate]. cbn in *.
    destruct (result_map f l2) as [ys|]; [|discriminate]. cbn in *. injection H as <-.
    destruct (IH ys eq_refl) as (ks' & -> & Hk). exists ks'.
    split; [reflexivity|now constructor].
Qed.

Lemma result_map_elem {A B} (f : A -> result B) (l : list A) ks x :
  result_map f l = Ok ks -> x ∈ l -> exists k, f x = Ok k /\ k ∈ ks.
Proof.
  revert ks. induction l as [|y l IH]; intros ks H Hx.
  - now apply elem_of_nil in Hx.
  - cbn in H. destruct (f y) as [ky|] eqn:Hy; [|discriminate]. cbn in H.
    destruct (result_map f l) as [ys|]; [|discriminate]. cbn in H. injection H as <-.
    apply elem_of_cons in Hx as [->|Hx].
    + exists ky. split; [exact Hy|left].
    + destruct (IH ys eq_refl Hx) as (k & Hk & Hin). exists k. split; [exact Hk|now right].
Qed.

Lemma result_map_elem_inv {A B} (f : A -> result B) (l : list A) ks k :
  result_map f l = Ok ks -> k ∈ ks -> exists x, x ∈ l /\ f x = Ok k.
Proof.
  revert ks. induction l as [|y l IH]; intros ks H Hk.
  - cbn in H. injection H as <-. now apply elem_of_nil in Hk.
  - cbn in H. destruct (f y) as [ky|] eqn:Hy; [|discriminate]. cbn in H.
    destruct (result_map f l) as [ys|]; [|discriminate]. cbn in H. injection H as <-.
    apply elem_of_cons in Hk as [->|Hk].
    + exists y. split; [left|exact Hy].
    + destruct (IH ys eq_refl Hk) as (x & Hx & Hf). exists x. split; [now right|exact Hf].
Qed.

(** First occurrences. *)

Section First.
Variable key : string -> result string.

Lemma first_with_key_snoc_old cands c u :
  first_with_key key cands u -> first_with_key key (cands ++ [c]) u.
Proof.
  intros (pre & post & -> & H). exists pre, (post ++ [c])%list.
  split; [now rewrite <- app_assoc|exact H].
Qed.

Lemma first_with_key_snoc_new cands c :
  (forall v, v ∈ cands -> key v <> key c) -> first_with_key key (cands ++ [c]) c.
Proof. intros H. exists cands, []. split; [reflexivity|exact H]. Qed.

Lemma first_with_key_snoc_inv cands c u :
  first_with_key key (cands ++ [c]) u ->
  first_with_key key cands u
  \/ (u = c /\ forall v, v ∈ cands -> key v <> key c).
Proof.
  intros (pre & post & Heq & H).
  destruct post as [|x post _] using rev_ind.
  - apply app_inj_tail in Heq as [-> ->]. right. split; [reflexivity|exact H].
  - left. rewrite app_comm_cons, app_assoc in Heq.
    apply app_inj_tail in Heq as [-> _]. exists pre, post. split; [reflexivity|exact H].
Qed.

End First.

Section Extract.

Variable check_bracketed_host : string -> bool.
Variable BeautifulSoup : string -> list Tag.

Abbreviation urlparse := (urllib.urlparse check_bracketed_host).
Abbreviation norm := (normalize check_bracketed_host).
Abbreviation step := (dedupe_step check_bracketed_host).

Lemma dedupe_inv_init : dedupe_inv norm [] ∅ [].
Proof.
  split.
  - exists []. split; [reflexivity|]. split; [constructor|].
    intros k. rewrite elem_of_nil, elem_of_empty. tauto.
  - intros v Hv. now apply elem_of_nil in Hv.
  - intros u Hu. now apply elem_of_nil in Hu.
  - intros c (pre & post & H & _). now destruct pre.
Qed.

Lemma candidates_cons_empty u urls :
  Py.truthy u = false -> candidates (u :: urls) = candidates urls.
Proof. intros H. unfold candidates. cbn. now rewrite H. Qed.

Lemma candidates_cons u urls :
  Py.truthy u = true -> candidates (u :: urls) = upgrade u :: candidates urls.
Proof. intros H. unfold candidates. cbn. now rewrite H. Qed.

Lemma dedupe_step_inv done seen res u seen' res' :
  dedupe_inv norm done seen res ->
  step (seen, res) u = Ok (seen', res') ->
  dedupe_inv norm (done ++ candidates [u]) seen' res'.
Proof.
  intros [(keys & Hk & Hnd & Hks) Hdone Hfirst Hkept] H.
  unfold dedupe_step in H.
  destruct (Py.truthy u) eqn:Hu; cbn [negb] in H.
  2:{ injection H as <- <-. rewrite candidates_cons_empty by exact Hu.
      unfold candidates; cbn. rewrite app_nil_r. split; eauto. }
  rewrite candidates_cons by exact Hu. change (candidates []) with (@nil string).
  destruct (norm (upgrade u)) as [key|] eqn:Hn; [|discriminate]. cbn in H.
  destruct (bool_decide (key ∈ seen)) eqn:Hs.
  - injection H as <- <-. apply bool_decide_eq_true in Hs.
    split.
    + eauto.
    + intros v Hv. apply elem_of_app in Hv as [Hv|Hv]; [now apply Hdone|].
      apply list_elem_of_singleton in Hv as ->. eauto.
    + intros x Hx. apply first_with_key_snoc_old. now apply Hfirst.
    + intros c Hc. apply first_with_key_snoc_inv in Hc as [Hc|[-> Hc]]; [now apply Hkept|].
      exfalso. apply Hks in Hs.
      destruct (result_map_elem_inv _ _ _ _ Hk Hs) as (x & Hx & Hxk).
      apply Hfirst in Hx. destruct Hx as (pre & post & -> & _).
      apply (Hc x); [|congruence].
      apply elem_of_app. right. left.
  - injection H as <- <-. apply bool_decide_eq_false in Hs.
    assert (Hfresh : forall v, v ∈ done -> norm v <> norm (upgrade u)).
    { intros v Hv Heq. destruct (Hdone v Hv) as (k & Hvk & Hin).
      rewrite Hn in Heq. rewrite Hvk in Heq. injection Heq as ->. contradiction. }
    split.
    + exists (keys ++ [key]). split.
      { apply result_map_app; [exact Hk|]. cbn. now rewrite Hn. }
      split.
      { apply NoDup_app. split; [exact Hnd|]. split; [|apply NoDup_singleton].
        intros k Hkin Hk1. apply list_elem_of_singleton in Hk1 as ->.
        now apply Hks in Hkin. }
      intros k. rewrite elem_of_app, list_elem_of_singleton, Hks.
      rewrite elem_of_union, elem_of_singleton. tauto.
    + intros v Hv. apply elem_of_app in Hv as [Hv|Hv].
      * destruct (Hdone v Hv) as (k & Hvk & Hin). exists k.
        split; [exact Hvk|apply elem_of_union; now right].
      * apply list_elem_of_singleton in Hv as ->. exists key.
        split; [exact Hn|apply elem_of_union; left; now apply elem_of_singleton].
    + intros x Hx. apply elem_of_app in Hx as [Hx|Hx].
      * apply first_with_key_snoc_old. now apply Hfirst.
      * apply list_elem_of_singleton in Hx as ->. now apply first_with_key_snoc_new.
    + intros c Hc. apply elem_of_app.
      apply first_with_key_snoc_inv in Hc as [Hc|[-> Hc]].
      * left. now apply Hkept.
      * right. left.
Qed.

Lemma candidates_app l1 l2 : candidates (l1 ++ l2) = candidates l1 ++ candidates l2.
Proof. unfold candidates. now rewrite List.filter_app, map_app. Qed.

Lemma dedupe_fold_inv urls :
  forall done seen res seen' res',
    dedupe_inv norm done seen res ->
    result_fold step (seen, res) urls = Ok (seen', res') ->
    dedupe_inv norm (done ++ candidates urls) seen' res'.
Proof.
  induction urls as [|u urls IH]; intros done seen res seen' res' Hinv H.
  - cbn in H. injection H as <- <-. unfold candidates; cbn. now rewrite app_nil_r.
  - cbn [result_fold] in H.
    destruct (step (seen, res) u) as [[seen1 res1]|] eqn:Hs; [|discriminate].
    cbn in H. pose proof (dedupe_step_inv _ _ _ _ _ _ Hinv Hs) as Hinv1.
    specialize (IH _ _ _ _ _ Hinv1 H).
    change (u :: urls) with ([u] ++ urls). rewrite candidates_app.
    now rewrite app_assoc.
Qed.

Lemma dedupe_inv_final urls res :
  dedupe check_bracketed_host urls = Ok res ->
  exists seen, dedupe_inv norm (candidates urls) seen res.
Proof.
  unfold dedupe. intros H.
  destruct (result_fold step (∅, []) urls) as [[seen res']|] eqn:Hf; [|discriminate].
  cbn in H. injection H as <-. exists seen.
  apply (dedupe_fold_inv urls [] ∅ [] seen res' dedupe_inv_init Hf).
Qed.

(** C2: the keys of the URLs in the output of the extractor, each the
    URL with its query and fragment stripped, are pairwise distinct;
    every URL of the output stands among the collected URLs, in the
    form in which it was collected, at a place before which no URL
    has its key; and a collected URL before which no URL has its
    key is in the output when it has an image extension. *)
Theorem extract_unique_first_occurrence (html base_url : string) (l : list string) :
  extract_image_urls check_bracketed_host BeautifulSoup html base_url = Ok l ->
  exists urls keys,
    collect_urls check_bracketed_host BeautifulSoup html base_url = Ok urls
    /\ result_map norm l = Ok keys /\ NoDup keys
    /\ (forall u, u ∈ l -> first_with_key norm (candidates urls) u)
    /\ (forall c, first_with_key norm (candidates urls) c ->
                  has_image_ext check_bracketed_host c = Ok true -> c ∈ l).
Proof.
  unfold extract_image_urls. intros H.
  destruct (collect_urls _ _ html base_url) as [urls|]; [|discriminate]. cbn in H.
  destruct (dedupe _ urls) as [res|] eqn:Hd; [|discriminate]. cbn in H.
  destruct (dedupe_inv_final _ _ Hd) as [seen [(keys & Hk & Hnd & _) _ Hfirst Hkept]].
  destruct (result_filter_spec _ _ _ H) as [Hin Hsub].
  destruct (result_map_sublist _ _ _ _ Hsub Hk) as (keys' & Hk' & Hsub').
  exists urls, keys'. split; [reflexivity|]. split; [exact Hk'|].
  split; [eapply sublist_NoDup; eassumption|]. split.
  - intros u Hu. apply Hfirst. now apply Hin.
  - intros c Hc Hext. apply Hin. split; [now apply Hkept|exact Hext].
Qed.

(** C3: the path of every URL in the output of the extractor, in
    lower case, ends with one of the extensions [.png], [.jpg],
    [.jpeg], [.webp], [.gif]. *)
Theorem extract_only_image_extensions (html base_url : string) (l : list string) :
  extract_image_urls check_bracketed_host BeautifulSoup html base_url = Ok l ->
  forall u, u ∈ l ->
    exists parsed ext stem,
      urlparse u = Ok parsed /\ ext ∈ exts
      /\ Py.lower (urllib.path parsed) = stem +:+ ext.
Proof.
  unfold extract_image_urls. intros H u Hu.
  destruct (collect_urls _ _ html base_url) as [urls|]; [|discriminate]. cbn in H.
  destruct (dedupe _ urls) as [res|]; [|discriminate]. cbn in H.
  destruct (result_filter_spec _ _ _ H) as [Hin _].
  apply Hin in Hu as [_ Hext]. unfold has_image_ext in Hext.
  destruct (urlparse u) as [parsed|]; [|discriminate]. cbn [mbind result_bind] in Hext.
  assert (Hext' : existsb (Py.endswith (Py.lower (urllib.path parsed))) exts = true) by congruence.
  clear Hext. apply existsb_exists in Hext' as (ext & He & Hends).
  apply endswith_suffix in Hends as [stem Hstem].
  exists parsed, ext, stem. split; [reflexivity|].
  split; [now apply list_elem_of_In|exact Hstem].
Qed.

End Extract.

(** C6, at the input where the code departs from it: the reference
    [//cdn.example.com/a.jpg] in a document fetched from an [http:] base
    comes out with the scheme of the base, not with [https:]. *)
Theorem protocol_relative_takes_base_scheme :
  extract_image_urls Sample.accept_all Sample.one_img_parser
                     Sample.one_img_html "http://example.com/"
  = Ok ["http://cdn.example.com/a.jpg"].
Proof. vm_compute. reflexivity. Qed.

(** ** The theorems at sample inputs *)

Lemma fallback_two_hits_then_three_misses_witness :
  exists b1 b2 w',
    fallback_guess_by_prefixes Sample.always_get Sample.two_cards_head Sample.fields
      Sample.images ["OGS"] 1%Z 3%Z None Sample.st0
    = (Ok tt,
       mkSt w'
         [EMkdir "images"; EMkdir "images/OGS";
          EHead (Sample.card 1); EGet (Sample.card 1);
          EWrite "images/OGS/001.jpg" b1;
          EHead (Sample.card 2); EGet (Sample.card 2);
          EWrite "images/OGS/002.jpg" b2;
          EHead (Sample.card 3); EHead (Sample.card 4); EHead (Sample.card 5)]).
Proof.
  apply (fallback_two_hits_then_three_misses
           Sample.always_get Sample.two_cards_head Sample.fields
           Sample.images "OGS" None Sample.st0);
    [split; reflexivity | intros w; reflexivity ..].
Defined.

Lemma fallback_failed_download_keeps_index_witness :
  scan_codes Sample.first_card_unavailable Sample.two_cards_head Sample.fields
             "OGS" "full-desktop.jpg" (pathlib.truediv Sample.images "OGS")
             3%Z [1; 3; 4; 5; 6; 7]%Z 2%Z 1%Z Sample.st0
  = (Ok tt,
     mkSt tt [EHead (Sample.card 1); EGet (Sample.card 1);
              EHead (Sample.card 3); EHead (Sample.card 4); EHead (Sample.card 5)])
  /\ scan_codes Sample.first_card_unavailable Sample.two_cards_head Sample.fields
                "OGS" "full-desktop.jpg" (pathlib.truediv Sample.images "OGS")
                3%Z [1; 3; 4; 2; 5]%Z 2%Z 1%Z Sample.st0
     = scan_codes Sample.first_card_unavailable Sample.two_cards_head Sample.fields
                  "OGS" "full-desktop.jpg" (pathlib.truediv Sample.images "OGS")
                  3%Z [5%Z] 0%Z 2%Z
                  (mkSt tt [EHead (Sample.card 1); EGet (Sample.card 1);
                            EHead (Sample.card 3); EHead (Sample.card 4);
                            EHead (Sample.card 2); EGet (Sample.card 2);
                            EWrite "images/OGS/001.jpg"
                                   ("image of " +:+ Sample.card 2)]).
Proof.
  split.
  - destruct (fallback_failed_download_keeps_index
                Sample.first_card_unavailable Sample.two_cards_head Sample.fields
                "OGS" "full-desktop.jpg" (pathlib.truediv Sample.images "OGS")
                3%Z 1%Z [3; 4; 5; 6; 7]%Z 2%Z 1%Z Sample.st0 (Sample.card 1)
                eq_refl eq_refl eq_refl) as (_ & Hreset & _).
    assert (Hmiss : forall j w, j ∈ [3; 4; 5; 6; 7]%Z ->
              head_ok (fst (Sample.two_cards_head
                              (cand "OGS" "full-desktop.jpg" j) w)) = false).
    { intros j w Hj.
      repeat (apply elem_of_cons in Hj as [->|Hj]; [reflexivity|]).
      inversion Hj. }
    destruct (Hreset (conj eq_refl eq_refl) Hmiss) as [[] Hr]. exact Hr.
  - destruct (fallback_failed_download_keeps_index
                Sample.first_card_unavailable Sample.two_cards_head Sample.fields
                "OGS" "full-desktop.jpg" (pathlib.truediv Sample.images "OGS")
                3%Z 1%Z [3; 4; 2; 5]%Z 2%Z 1%Z Sample.st0 (Sample.card 1)
                eq_refl eq_refl eq_refl) as (_ & _ & Hnext & _).
    assert (Hmiss : forall j w, j ∈ [3; 4]%Z ->
              head_ok (fst (Sample.two_cards_head
                              (cand "OGS" "full-desktop.jpg" j) w)) = false).
    { intros j w Hj.
      repeat (apply elem_of_cons in Hj as [->|Hj]; [reflexivity|]).
      inversion Hj. }
    assert (Hlen : (length [3; 4]%Z < misses_to_stop 3 0)%nat) by (vm_compute; lia).
    destruct (Hnext [3; 4]%Z 2%Z [5%Z] eq_refl (conj eq_refl eq_refl) Hlen Hmiss
                (fun w => eq_refl) (fun w => eq_refl)) as [[] Hr].
    exact Hr.
Defined.

Lemma download_failure_is_isolated_witness :
  (exists counters' st' ev,
      download_loop Sample.accept_all Sample.missing_get Sample.images ∅
                    [Sample.missing; Sample.ogs1; Sample.plain] Sample.st0
      = (Ok counters', st')
      /\ trace st' = trace Sample.st0 ++ ev
      /\ gets ev = [Sample.missing; Sample.ogs1; Sample.plain]
      /\ map snd (writes ev)
         = map reply_content
             (List.filter fetch_ok
                (replies Sample.missing_get
                         [Sample.missing; Sample.ogs1; Sample.plain]
                         (world Sample.st0))))
  /\ (forall reply, fetch_ok reply = false <-> fetch_fails reply)
  /\ (forall u rest,
        [Sample.missing; Sample.ogs1; Sample.plain] = u :: rest ->
        fetch_fails (fst (Sample.missing_get u (world Sample.st0))) ->
        exists st1,
          download_one Sample.accept_all Sample.missing_get Sample.images ∅ u
                       Sample.st0 = (Ok ∅, st1)
          /\ writes (trace st1) = writes (trace Sample.st0)
          /\ download_loop Sample.accept_all Sample.missing_get Sample.images ∅
                           [Sample.missing; Sample.ogs1; Sample.plain] Sample.st0
             = download_loop Sample.accept_all Sample.missing_get Sample.images ∅
                             rest st1).
Proof.
  apply (download_failure_is_isolated
           Sample.accept_all Sample.missing_get Sample.images
           [Sample.missing; Sample.ogs1; Sample.plain] ∅ Sample.st0).
  repeat constructor; eexists; vm_compute; reflexivity.
Defined.

Lemma download_two_ogs_then_misc_witness :
  download_images Sample.accept_all Sample.always_get
                  [Sample.ogs1; Sample.ogs2; Sample.plain] Sample.images Sample.st0
  = (Ok tt,
     mkSt tt
       [EMkdir "images";
        EMkdir "images/OGS"; EGet Sample.ogs1;
        EWrite "images/OGS/001.jpg" ("image of " +:+ Sample.ogs1);
        EMkdir "images/OGS"; EGet Sample.ogs2;
        EWrite "images/OGS/002.jpg" ("image of " +:+ Sample.ogs2);
        EMkdir "images/misc"; EGet Sample.plain;
        EWrite "images/misc/001.jpg" ("image of " +:+ Sample.plain)]).
Proof.
  apply (download_two_ogs_then_misc
           Sample.accept_all Sample.always_get Sample.images
           Sample.ogs1 Sample.ogs2 Sample.plain Sample.st0
           (mkResponse 200 ("image of " +:+ Sample.ogs1))
           (mkResponse 200 ("image of " +:+ Sample.ogs2))
           (mkResponse 200 ("image of " +:+ Sample.plain)) tt tt tt);
    reflexivity.
Defined.

Lemma extract_unique_first_occurrence_witness :
  exists urls keys,
    collect_urls Sample.accept_all Sample.gallery_parser
                 Sample.gallery_html Sample.gallery_base = Ok urls
    /\ result_map (normalize Sample.accept_all)
                  ["https://example.com/img/card.png?v=1";
                   "https://example.com/cards/a.JPG";
                   "https://example.com/cards/b.webp"] = Ok keys
    /\ NoDup keys
    /\ (forall u,
          u ∈ ["https://example.com/img/card.png?v=1";
               "https://example.com/cards/a.JPG";
               "https://example.com/cards/b.webp"] ->
          first_with_key (normalize Sample.accept_all) (candidates urls) u)
    /\ (forall c,
          first_with_key (normalize Sample.accept_all) (candidates urls) c ->
          has_image_ext Sample.accept_all c = Ok true ->
          c ∈ ["https://example.com/img/card.png?v=1";
               "https://example.com/cards/a.JPG";
               "https://example.com/cards/b.webp"]).
Proof.
  apply (extract_unique_first_occurrence
           Sample.accept_all Sample.gallery_parser
           Sample.gallery_html Sample.gallery_base).
  vm_compute. reflexivity.
Defined.

Lemma extract_only_image_extensions_witness :
  exists parsed ext stem,
    urllib.urlparse Sample.accept_all "https://example.com/cards/a.JPG" = Ok parsed
    /\ ext ∈ exts
    /\ Py.lower (urllib.path parsed) = stem +:+ ext.
Proof.
  apply (extract_only_image_extensions
           Sample.accept_all Sample.gallery_parser
           Sample.gallery_html Sample.gallery_base
           ["https://example.com/img/card.png?v=1";
            "https://example.com/cards/a.JPG";
            "https://example.com/cards/b.webp"]).
  - vm_compute. reflexivity.
  - repeat constructor.
Defined.

(** * Further properties *)

(** ** The matcher *)

Lemma firstn_app_length {A} (w s : list A) :
  firstn (length (w ++ s) - length s) (w ++ s) = w.
Proof.
  rewrite length_app. replace (length w + length s - length s)%nat with (length w) by lia.
  rewrite firstn_app, Nat.sub_diag, firstn_all. cbn. apply app_nil_r.
Qed.

(** Soundness of the matcher: what [run] consumes before it hands over
    to its continuation is a text of the pattern. *)
Lemma run_sound {R} (r : re.regex) :
  forall (s : list ascii) g (k : re.cont R) x,
    re.run r s g k = Some x ->
    exists w s' g', s = w ++ s' /\ matches r w g g' /\ k s' g' = Some x.
Proof.
  induction r as [|p|r1 IH1 r2 IH2|r1 IH1 r2 IH2|r1 IH1|b r1 IH1|r1 IH1];
    intros s g k x H; cbn [re.run] in H.
  - exists [], s, g. split; [reflexivity|]. split; [constructor|exact H].
  - destruct s as [|c s]; [discriminate|].
    destruct (p c) eqn:Hp; [|discriminate].
    exists [c], s, g. split; [reflexivity|]. split; [now constructor|exact H].
  - apply IH1 in H as (w1 & s1 & g1 & -> & M1 & H).
    apply IH2 in H as (w2 & s2 & g2 & -> & M2 & H).
    exists (w1 ++ w2), s2, g2. split; [now rewrite app_assoc|].
    split; [econstructor; eassumption|exact H].
  - unfold re.orelse in H. destruct (re.run r1 s g k) as [y|] eqn:H1.
    + injection H as <-. apply IH1 in H1 as (w & s' & g' & -> & M & H1).
      exists w, s', g'. split; [reflexivity|]. split; [now apply matches_alt_l|exact H1].
    + apply IH2 in H as (w & s' & g' & -> & M & H).
      exists w, s', g'. split; [reflexivity|]. split; [now apply matches_alt_r|exact H].
  - unfold re.orelse in H. destruct (re.run r1 s g k) as [y|] eqn:H1.
    + injection H as <-. apply IH1 in H1 as (w & s' & g' & -> & M & H1).
      exists w, s', g'. split; [reflexivity|]. split; [now apply matches_opt_some|exact H1].
    + exists [], s, g. split; [reflexivity|]. split; [constructor|exact H].
  - remember (length s) as n eqn:Hn. clear Hn.
    revert s g x H. induction n as [|n IHn]; intros s g x H.
    + exists [], s, g. split; [reflexivity|]. split; [constructor|exact H].
    + set (more := re.run r1 s g _) in H.
      assert (Hmore : forall y, more = Some y ->
                exists w s' g', s = w ++ s' /\ matches (re.Star b r1) w g g'
                                /\ k s' g' = Some y).
      { intros y Hy. subst more. apply IH1 in Hy as (w1 & s1 & g1 & -> & M1 & Hy).
        destruct (length s1 <? length (w1 ++ s1))%nat; [|discriminate].
        apply IHn in Hy as (w2 & s2 & g2 & -> & M2 & Hy).
        exists (w1 ++ w2), s2, g2. split; [now rewrite app_assoc|].
        split; [econstructor; eassumption|exact Hy]. }
      assert (Hstop : forall y, k s g = Some y ->
                exists w s' g', s = w ++ s' /\ matches (re.Star b r1) w g g'
                                /\ k s' g' = Some y).
      { intros y Hy. exists [], s, g. split; [reflexivity|]. split; [constructor|exact Hy]. }
      unfold re.orelse in H. destruct b.
      * destruct more as [y|]; [injection H as <-; now apply Hmore|now apply Hstop].
      * destruct (k s g) as [y|]; [injection H as <-; now apply Hstop|now apply Hmore].
  - apply IH1 in H as (w & s' & g' & -> & M & H).
    rewrite firstn_app_length in H.
    exists w, s', (Some w). split; [reflexivity|]. split; [econstructor; eassumption|exact H].
Qed.

Lemma match_here_sound (r : re.regex) (s : list ascii) (m : re.Match) :
  re.match_here r s = Some m ->
  exists w g',
    s = w ++ re.rest m /\ matches r w None g'
    /\ re.group0 m = string_of_list_ascii w
    /\ re.group1 m = string_of_list_ascii <$> g'.
Proof.
  unfold re.match_here. intros H.
  apply run_sound in H as (w & s' & g' & -> & M & H).
  injection H as <-. cbn [re.rest re.group0 re.group1].
  rewrite firstn_app_length. now exists w, g'.
Qed.

Lemma search_from_sound (r : re.regex) (s : list ascii) (m : re.Match) :
  re.search_from r s = Some m ->
  exists pre w g',
    s = pre ++ w ++ re.rest m /\ matches r w None g'
    /\ re.group0 m = string_of_list_ascii w
    /\ re.group1 m = string_of_list_ascii <$> g'.
Proof.
  induction s as [|c s IH]; cbn [re.search_from];
    destruct (re.match_here r _) as [m'|] eqn:Hm; intros H.
  - injection H as ->. apply match_here_sound in Hm as (w & g' & ? & ? & ? & ?).
    now exists [], w, g'.
  - discriminate.
  - injection H as ->. apply match_here_sound in Hm as (w & g' & ? & ? & ? & ?).
    now exists [], w, g'.
  - apply IH in H as (pre & w & g' & -> & ? & ? & ?).
    now exists (c :: pre), w, g'.
Qed.

Lemma string_of_list_ascii_app (a b : list ascii) :
  string_of_list_ascii (a ++ b) = string_of_list_ascii a +:+ string_of_list_ascii b.
Proof. induction a as [|c a IH]; [reflexivity|]. cbn. now rewrite IH. Qed.

Lemma matches_lit c w g g' : matches (re.lit c) w g g' -> w = [c] /\ g' = g.
Proof.
  unfold re.lit. intros H. inversion H; subst.
  match goal with H : Ascii.eqb _ _ = true |- _ => apply Ascii.eqb_eq in H as -> end.
  now split.
Qed.

Lemma matches_str (s : string) w g g' :
  matches (re.str s) w g g' -> w = list_ascii_of_string s /\ g' = g.
Proof.
  revert w g g'. induction s as [|c s IH]; intros w g g' H.
  - cbn in H. inversion H; subst. now split.
  - destruct s as [|d s].
    + cbn in H. now apply matches_lit in H.
    + change (re.str (String c (String d s)))
        with (re.Cat (re.lit c) (re.str (String d s))) in H.
      inversion H; subst.
      match goal with H : matches (re.lit _) _ _ _ |- _ =>
        apply matches_lit in H as [-> ->] end.
      match goal with H : matches (re.str _) _ _ _ |- _ =>
        apply IH in H as [-> ->] end.
      now split.
Qed.

Lemma matches_star_chr b p w g g' :
  matches (re.Star b (re.Chr p)) w g g' -> Forall (fun c => p c = true) w /\ g' = g.
Proof.
  intros H. remember (re.Star b (re.Chr p)) as r eqn:Hr.
  induction H; try discriminate.
  - now split.
  - injection Hr as -> ->. destruct (IHmatches2 eq_refl) as [F ->].
    inversion H; subst. split; [|reflexivity]. constructor; assumption.
Qed.

Lemma forallb_string (p : ascii -> bool) (l : list ascii) :
  Forall (fun c => p c = true) l -> Py.forallb p (string_of_list_ascii l) = true.
Proof.
  induction 1 as [|c l Hc _ IH]; [reflexivity|]. cbn. now rewrite Hc, IH.
Qed.

(** What [PREFIX_RE] matches: the two literal parts around a non-empty
    run of capital letters, which is group 1. *)
Lemma matches_PREFIX_RE w g g' :
  matches PREFIX_RE w g g' ->
  exists p,
    w = list_ascii_of_string "/riftbound/latest/" ++ p
        ++ list_ascii_of_string "/cards/"
    /\ g' = Some p /\ p <> [] /\ Forall (fun c => re.upper_AZ c = true) p.
Proof.
  unfold PREFIX_RE. cbn [re.seq]. intros H.
  inversion H as [| |? ? w1 w23 ? g1 ? M1 M23| | | | | | |]; subst.
  inversion M23 as [| |? ? w2 w3 ? g2 ? M2 M3| | | | | | |]; subst.
  apply matches_str in M1 as [-> ->]. apply matches_str in M3 as [-> ->].
  inversion M2 as [| | | | | | | | |? ? ? g3 M]; subst.
  inversion M as [| |? ? wa wb ? ga ? Ma Mb| | | | | | |]; subst.
  inversion Ma; subst. apply matches_star_chr in Mb as [F _].
  eexists. split; [reflexivity|]. split; [reflexivity|].
  split; [discriminate|]. constructor; assumption.
Qed.

Lemma string_of_nonempty (l : list ascii) :
  l <> [] -> string_of_list_ascii l <> EmptyString.
Proof. destruct l; [congruence|discriminate]. Qed.

(** X1: a detected prefix is a non-empty run of the capital letters A to
    Z that stands in the path of the URL between [/riftbound/latest/]
    and [/cards/]. *)
Theorem detect_prefix_sound cb (u p : string) :
  detect_prefix cb u = Ok (Some p) ->
  exists parsed before after,
    urllib.urlparse cb u = Ok parsed
    /\ urllib.path parsed
       = before +:+ "/riftbound/latest/" +:+ p +:+ "/cards/" +:+ after
    /\ p <> EmptyString
    /\ Py.forallb re.upper_AZ p = true.
Proof.
  unfold detect_prefix. destruct (urllib.urlparse cb u) as [parsed|]; [|discriminate].
  cbn [mbind result_bind]. intros H. injection H as H.
  unfold re.search in H.
  destruct (re.search_from PREFIX_RE _) as [m|] eqn:Hs; [|discriminate].
  cbn in H. apply search_from_sound in Hs as (pre & w & g' & Hpath & M & _ & Hg).
  apply matches_PREFIX_RE in M as (q & -> & -> & Hne & Hup).
  rewrite Hg in H. cbn in H. injection H as <-.
  exists parsed, (string_of_list_ascii pre), (string_of_list_ascii (re.rest m)).
  split; [reflexivity|]. split.
  - rewrite <- (string_of_list_ascii_of_string (urllib.path parsed)), Hpath.
    rewrite !string_of_list_ascii_app, !string_of_list_ascii_of_string.
    now rewrite !append_assoc.
  - split; [now apply string_of_nonempty|now apply forallb_string].
Qed.

(** ** The inferred extension *)

Lemma default_ext_in_exts (f : string -> bool) :
  default ".jpg" (List.find f exts) ∈ exts.
Proof.
  destruct (List.find f exts) as [e|] eqn:Hf; cbn [default].
  - apply List.find_some in Hf as [Hin _]. now apply list_elem_of_In.
  - apply list_elem_of_In. cbn. tauto.
Qed.

(** X2: the extension inferred for a file name is always one of the five
    of the list, also when it is the default. *)
Theorem file_ext_in_exts cb (u e : string) :
  file_ext_for_url cb u = Ok e -> e ∈ exts.
Proof.
  unfold file_ext_for_url. destruct (urllib.urlparse cb u) as [parsed|]; [|discriminate].
  cbn [mbind result_bind]. intros H.
  assert (He : e = default ".jpg"
                 (List.find (Py.endswith (Py.lower (urllib.path parsed))) exts))
    by congruence.
  rewrite He. apply default_ext_in_exts.
Qed.

(** X3: the extension filter of the extractor and the extension
    inference of the downloader agree: a URL that passes the filter
    gets an extension that its lower-cased path really ends with, and a
    URL that does not pass gets the default [.jpg]. *)
Theorem file_ext_agrees_with_filter cb (u : string) (b : bool) :
  has_image_ext cb u = Ok b ->
  if b then
    exists parsed e stem,
      urllib.urlparse cb u = Ok parsed
      /\ file_ext_for_url cb u = Ok e
      /\ Py.lower (urllib.path parsed) = stem +:+ e
  else file_ext_for_url cb u = Ok ".jpg".
Proof.
  unfold has_image_ext, file_ext_for_url.
  destruct (urllib.urlparse cb u) as [parsed|]; [|discriminate].
  cbn [mbind result_bind]. intros H.
  assert (Hb : b = existsb (Py.endswith (Py.lower (urllib.path parsed))) exts)
    by congruence.
  clear H. subst b.
  destruct (existsb (Py.endswith (Py.lower (urllib.path parsed))) exts) eqn:Hex.
  - apply existsb_exists in Hex as (x & Hin & Hx).
    destruct (List.find (Py.endswith (Py.lower (urllib.path parsed))) exts) as [e|] eqn:Hf.
    + apply List.find_some in Hf as [_ He].
      apply endswith_suffix in He as [stem Hstem].
      exists parsed, e, stem. now repeat split.
    + exfalso. pose proof (List.find_none _ _ Hf x Hin) as Hn. congruence.
  - destruct (List.find (Py.endswith (Py.lower (urllib.path parsed))) exts) as [e|] eqn:Hf;
      [|reflexivity].
    apply List.find_some in Hf as [Hin He].
    exfalso. assert (existsb (Py.endswith (Py.lower (urllib.path parsed))) exts = true)
      by (apply existsb_exists; eauto). congruence.
Qed.

(** ** Names and paths *)

Lemma uint_no_slash (d : Decimal.uint) :
  Py.contains "/" (NilEmpty.string_of_uint d) = false.
Proof. induction d; cbn; auto. Qed.

Lemma zeros_no_slash (k : nat) :
  Py.contains "/" (string_of_list_ascii (repeat "0"%char k)) = false.
Proof. induction k; cbn; auto. Qed.

Lemma format_03d_no_slash (n : Z) : Py.contains "/" (Py.format_03d n) = false.
Proof.
  unfold Py.format_03d, Py.zfill.
  assert (H : Py.contains "/" (NilZero.string_of_uint (N.to_uint (Z.abs_N n))) = false).
  { unfold NilZero.string_of_uint. destruct (N.to_uint _); try apply uint_no_slash.
    reflexivity. }
  destruct (n <? 0)%Z; rewrite !contains_app, zeros_no_slash, H; reflexivity.
Qed.

Lemma length_append (a b : string) :
  String.length (a +:+ b) = (String.length a + String.length b)%nat.
Proof.
  induction a as [|c a IH]; [reflexivity|].
  change (String c a +:+ b) with (String c (a +:+ b)).
  cbn [String.length]. now rewrite IH.
Qed.

Lemma lstrip_no_slash (s : string) :
  Py.contains "/" s = false -> Py.lstrip_char "/" s = s.
Proof.
  destruct s as [|c s]; [reflexivity|]. cbn [Py.contains]. intros H.
  apply orb_false_elim in H as [H _].
  unfold Py.lstrip_char. cbn [Py.lstrip_chars].
  destruct (Ascii.eqb "/" c) eqn:E; [|reflexivity].
  apply Ascii.eqb_eq in E. subst c. discriminate.
Qed.

Lemma split_no_sep (c : ascii) (s : string) :
  Py.contains c s = false -> Py.split c s = [s].
Proof.
  induction s as [|d s IH]; [reflexivity|]. cbn [Py.contains Py.split]. intros H.
  apply orb_false_elim in H as [H1 H2]. rewrite H1, (IH H2). reflexivity.
Qed.

Lemma parse_plain_name (s : string) :
  plain_name s -> pathlib.parse s = pathlib.mkPath EmptyString [s].
Proof.
  intros (Hs & Hne & Hdot). unfold pathlib.parse.
  rewrite (lstrip_no_slash s Hs), Nat.sub_diag, (split_no_sep _ _ Hs).
  cbn [List.filter]. unfold pathlib.keep_name.
  destruct s as [|c s]; [congruence|]. cbn [Py.truthy andb].
  destruct (String.eqb (String c s) ".") eqn:He; [|reflexivity].
  apply String.eqb_eq in He. congruence.
Qed.

Lemma truediv_plain_name (p : pathlib.Path) (s : string) :
  plain_name s ->
  pathlib.truediv p s = pathlib.mkPath (pathlib.root p) (pathlib.names p ++ [s]).
Proof. intros H. unfold pathlib.truediv. now rewrite (parse_plain_name s H). Qed.

Lemma forallb_upper_no_slash (s : string) :
  Py.forallb re.upper_AZ s = true -> Py.contains "/" s = false.
Proof.
  induction s as [|c s IH]; [reflexivity|]. cbn [Py.forallb Py.contains]. intros H.
  apply andb_prop in H as [H1 H2]. rewrite (IH H2), orb_false_r.
  destruct (Ascii.eqb c "/") eqn:He; [|reflexivity].
  apply Ascii.eqb_eq in He. subst c. discriminate.
Qed.

Lemma category_plain (cat : string) : is_category cat -> plain_name cat.
Proof.
  intros [->|[Hne Hup]].
  - repeat split; discriminate.
  - split; [now apply forallb_upper_no_slash|]. split; [exact Hne|].
    intros ->. discriminate.
Qed.

Lemma file_name_plain (idx : Z) (ext : string) :
  ext ∈ exts -> plain_name (Py.format_03d idx +:+ ext).
Proof.
  intros He.
  assert (Hext : Py.contains "/" ext = false /\ (4 <= String.length ext)%nat).
  { apply list_elem_of_In in He. cbn in He.
    destruct He as [<-|[<-|[<-|[<-|[<-|[]]]]]]; cbn; split; (reflexivity || lia). }
  destruct Hext as [Hs Hl]. split.
  - now rewrite contains_app, format_03d_no_slash, Hs.
  - assert (4 <= String.length (Py.format_03d idx +:+ ext))%nat
      by (rewrite length_append; lia).
    split; intros E; rewrite E in H; cbn in H; lia.
Qed.

(** X4: a file of the downloader lies exactly two levels below the
    output directory: in the directory of its category, under a name
    made of the sequence number and the extension. *)
Theorem download_dest_two_levels_down
        (out_dir : pathlib.Path) (cat : string) (idx : Z) (ext : string) :
  is_category cat -> ext ∈ exts ->
  download_dest out_dir cat idx ext
  = pathlib.to_str
      (pathlib.mkPath (pathlib.root out_dir)
                      (pathlib.names out_dir ++ [cat; Py.format_03d idx +:+ ext])).
Proof.
  intros Hc He. unfold download_dest.
  rewrite (truediv_plain_name _ _ (category_plain _ Hc)).
  rewrite (truediv_plain_name _ _ (file_name_plain idx _ He)).
  cbn [pathlib.root pathlib.names]. now rewrite <- app_assoc.
Qed.

(** ** Numbering in the downloader *)

Lemma prefix_or_misc_category cb (u : string) (p : option string) :
  detect_prefix cb u = Ok p -> is_category (prefix_or_misc p).
Proof.
  intros H. destruct p as [p|]; [|now left].
  apply detect_prefix_sound in H as (_ & _ & _ & _ & _ & Hne & Hup).
  cbn. destruct p as [|c p]; [congruence|]. cbn [Py.truthy]. right. now split.
Qed.

Lemma consecutive_cons (first : Z) (n : nat) :
  first :: consecutive (first + 1) n = consecutive first (S n).
Proof.
  unfold consecutive. cbn [seq map]. rewrite Z.add_0_r. f_equal.
  rewrite <- seq_shift, map_map. apply map_ext. intros k. lia.
Qed.

Section Numbering.

Variable check_bracketed_host : string -> bool.
Context {World : Type}.
Variable requests_get : string -> World -> Reply * World.

(** What one turn of the download loop can do: save nothing and keep
    the counters (or raise), or save one file under the next number of
    its category and advance that counter. *)
Lemma download_one_cases out_dir counters u (st : St) r st' :
  download_one check_bracketed_host requests_get out_dir counters u st = (r, st') ->
  exists ev,
    trace st' = trace st ++ ev
    /\ ((writes ev = [] /\ (r = Ok counters \/ exists e, r = Raise e))
        \/ exists s,
             writes ev = [saved_write out_dir s]
             /\ saved_idx s = default 1%Z (counters !! saved_cat s)
             /\ r = Ok (<[saved_cat s := (saved_idx s + 1)%Z]> counters)
             /\ is_category (saved_cat s) /\ saved_ext s ∈ exts).
Proof.
  destruct (detect_prefix check_bracketed_host u) as [p|e] eqn:Hp.
  2:{ unfold download_one, mbind, M_bind, lift. rewrite Hp. intros H.
      injection H as <- <-. exists []. rewrite app_nil_r. split; [reflexivity|].
      left. split; [reflexivity|]. right. now exists e. }
  destruct (file_ext_for_url check_bracketed_host u) as [ext|e] eqn:He.
  2:{ unfold download_one, mbind, M_bind, lift, emit. rewrite Hp, He. intros H.
      injection H as <- <-. eexists [_]. split; [reflexivity|].
      left. split; [reflexivity|]. right. now exists e. }
  rewrite (download_one_run _ _ _ _ _ _ _ _ Hp He). cbv zeta.
  destruct (fetch_ok _); intros H; injection H as <- <-; cbn [trace].
  - eexists [_; _; _]. split; [now rewrite <- app_assoc|]. right.
    exists (mkSaved (prefix_or_misc p) (default 1%Z (counters !! prefix_or_misc p))
                    ext (reply_content (fst (requests_get u (world st))))).
    cbn [saved_cat saved_idx saved_ext]. split; [reflexivity|].
    split; [reflexivity|]. split; [reflexivity|].
    split; [eapply prefix_or_misc_category; eassumption|].
    eapply file_ext_in_exts; eassumption.
  - eexists [_; _]. split; [reflexivity|]. left. split; [reflexivity|]. now left.
Qed.

(** The files of a run of the download loop, as a log. *)
Lemma download_loop_log out_dir urls :
  forall counters (st : St) r st',
    download_loop check_bracketed_host requests_get out_dir counters urls st = (r, st') ->
    exists ev log,
      trace st' = trace st ++ ev
      /\ writes ev = map (saved_write out_dir) log
      /\ Forall (fun s => is_category (saved_cat s) /\ saved_ext s ∈ exts) log
      /\ forall cat,
           indices_of cat log
           = consecutive (default 1%Z (counters !! cat))
                         (length (indices_of cat log)).
Proof.
  induction urls as [|u urls IH]; intros counters st r st' H.
  - cbn in H. injection H as <- <-. exists [], []. rewrite app_nil_r.
    repeat split; constructor.
  - cbn [download_loop] in H. unfold mbind at 1 in H. unfold M_bind at 1 in H.
    destruct (download_one _ _ out_dir counters u st) as [r1 st1] eqn:H1.
    apply download_one_cases in H1 as (ev1 & Ht1 & [[Hw [->|[e ->]]]|(s & Hw & Hi & -> & Hc & He)]).
    + apply IH in H as (ev & log & Ht & Hws & Hf & Hn).
      exists (ev1 ++ ev), log. split; [rewrite Ht, Ht1; now rewrite app_assoc|].
      split; [now rewrite writes_app, Hw|]. now split.
    + injection H as <- <-. exists ev1, []. split; [exact Ht1|].
      split; [exact Hw|]. split; [constructor|]. reflexivity.
    + apply IH in H as (ev & log & Ht & Hws & Hf & Hn).
      exists (ev1 ++ ev), (s :: log). split; [rewrite Ht, Ht1; now rewrite app_assoc|].
      split; [now rewrite writes_app, Hw, Hws|].
      split; [constructor; [now split|exact Hf]|].
      intros cat. specialize (Hn cat). unfold indices_of in *. cbn [List.filter].
      destruct (String.eqb (saved_cat s) cat) eqn:Heq.
      * apply String.eqb_eq in Heq. subst cat. cbn [map length].
        rewrite lookup_insert_eq in Hn. cbn [default] in Hn.
        rewrite Hn at 1. rewrite length_map in *. rewrite Hi.
        apply consecutive_cons.
      * apply String.eqb_neq in Heq. rewrite lookup_insert_ne in Hn by exact Heq.
        exact Hn.
Qed.

(** X5: in one run of the download loop the files of each category get
    consecutive sequence numbers, beginning with the counter of the
    category (1 when it has none), whichever fetches fail; the
    categories and extensions of the files are those of the lists. *)
Theorem download_numbering_gap_free out_dir urls counters (st : St) r st' :
  download_loop check_bracketed_host requests_get out_dir counters urls st = (r, st') ->
  exists ev log,
    trace st' = trace st ++ ev
    /\ writes ev = map (saved_write out_dir) log
    /\ Forall (fun s => is_category (saved_cat s) /\ saved_ext s ∈ exts) log
    /\ forall cat,
         indices_of cat log
         = consecutive (default 1%Z (counters !! cat))
                       (length (indices_of cat log)).
Proof. apply download_loop_log. Qed.

End Numbering.

(** ** The shape of a fallback run *)

Lemma heads_app (a b : list Event) : heads (a ++ b) = heads a ++ heads b.
Proof. unfold heads. apply flat_map_app. Qed.

Lemma mkdirs_app (a b : list Event) : mkdirs (a ++ b) = mkdirs a ++ mkdirs b.
Proof. unfold mkdirs. apply flat_map_app. Qed.

Section FallbackShape.

Context {World : Type}.
Variable requests_get : string -> World -> Reply * World.
Variable requests_head : string -> World -> Reply * World.
Variable format_field : string -> option ascii -> string -> string -> result string.

Abbreviation scan := (scan_codes requests_get requests_head format_field).
Abbreviation candidate_url := (candidate_url format_field).

(** The events of a scan of a brace-free prefix. *)
Lemma scan_codes_shape prefix fname subdir ml codes :
  no_brace prefix ->
  forall ms idx (st : St),
  exists st' ev n,
    scan prefix fname subdir ml codes ms idx st = (Ok tt, st')
    /\ trace st' = trace st ++ ev
    /\ heads ev = map (cand prefix fname) (take n codes)
    /\ gets ev `sublist_of` heads ev
    /\ (length (writes ev) <= length (gets ev))%nat
    /\ mkdirs ev = [].
Proof.
  intros Hp. induction codes as [|i codes IH]; intros ms idx st.
  - exists st, [], 0%nat. cbn. rewrite app_nil_r. repeat split; constructor.
  - rewrite (scan_codes_cons _ _ _ _ _ _ _ _ _ _ _ _ _ (candidate_url_plain _ _ fname i Hp)).
    cbv zeta. set (c := cand prefix fname i).
    destruct (head_ok (fst (requests_head c (world st)))).
    + destruct (fetch_ok (fst (requests_get c (snd (requests_head c (world st)))))).
      * match goal with |- context [scan _ _ _ _ codes ?m ?j ?s] =>
          destruct (IH m j s) as (st' & ev & n & Hr & Ht & Hh & Hg & Hw & Hm) end.
        cbn [trace] in Ht.
        eexists st', (EHead c :: EGet c :: EWrite (fallback_dest subdir idx) _ :: ev), (S n).
        split; [exact Hr|]. split; [rewrite Ht, <- !app_assoc; reflexivity|].
        cbn [heads gets writes mkdirs flat_map app take map length].
        fold (heads ev) (gets ev) (writes ev) (mkdirs ev).
        split; [now rewrite Hh|]. split; [now constructor|]. split; [lia|exact Hm].
      * match goal with |- context [scan _ _ _ _ codes ?m ?j ?s] =>
          destruct (IH m j s) as (st' & ev & n & Hr & Ht & Hh & Hg & Hw & Hm) end.
        cbn [trace] in Ht.
        exists st', (EHead c :: EGet c :: ev), (S n).
        split; [exact Hr|]. split; [rewrite Ht, <- !app_assoc; reflexivity|].
        cbn [heads gets writes mkdirs flat_map app take map length].
        fold (heads ev) (gets ev) (writes ev) (mkdirs ev).
        split; [now rewrite Hh|]. split; [now constructor|]. split; [lia|exact Hm].
    + destruct (ml <=? ms + 1)%Z.
      * eexists _, [EHead c], 1%nat. split; [reflexivity|]. split; [reflexivity|].
        cbn. repeat split; try constructor. constructor.
      * match goal with |- context [scan _ _ _ _ codes ?m ?j ?s] =>
          destruct (IH m j s) as (st' & ev & n & Hr & Ht & Hh & Hg & Hw & Hm) end.
        cbn [trace] in Ht.
        exists st', (EHead c :: ev), (S n).
        split; [exact Hr|]. split; [rewrite Ht, <- !app_assoc; reflexivity|].
        cbn [heads gets writes mkdirs flat_map app take map length].
        fold (heads ev) (gets ev) (writes ev) (mkdirs ev).
        split; [now rewrite Hh|]. split; [now constructor|]. split; [exact Hw|exact Hm].
Qed.

(** X6: a scan of a brace-free prefix ends normally; it probes the codes
    in the order given, without skipping one, until it stops; it
    fetches only URLs it has probed, writes at most one file per fetch,
    and creates no directory. *)
Theorem scan_probes_in_order prefix fname subdir ml codes ms idx (st : St) :
  no_brace prefix ->
  exists st' ev n,
    scan prefix fname subdir ml codes ms idx st = (Ok tt, st')
    /\ trace st' = trace st ++ ev
    /\ heads ev = map (cand prefix fname) (take n codes)
    /\ gets ev `sublist_of` heads ev
    /\ (length (writes ev) <= length (gets ev))%nat
    /\ mkdirs ev = [].
Proof. intros Hp. now apply scan_codes_shape. Qed.

(** X7: when no probe of a brace-free prefix finds anything, the scan
    makes as many probes as the miss limit asks for (one when the limit
    is below 1), or as many as there are codes if that is fewer,
    fetches nothing and writes nothing. *)
Theorem scan_all_misses prefix fname subdir ml codes :
  no_brace prefix ->
  (forall i w, head_ok (fst (requests_head (cand prefix fname i) w)) = false) ->
  forall ms idx (st : St),
  exists w',
    scan prefix fname subdir ml codes ms idx st
    = (Ok tt,
       mkSt w' (trace st ++
                  map (fun i => EHead (cand prefix fname i))
                      (take (misses_to_stop ml ms) codes))).
Proof.
  intros Hp Hmiss. induction codes as [|i codes IH]; intros ms idx st.
  - exists (world st). cbn. rewrite take_nil. cbn. rewrite app_nil_r. now destruct st.
  - rewrite (scan_codes_cons _ _ _ _ _ _ _ _ _ _ _ _ _ (candidate_url_plain _ _ fname i Hp)).
    cbv zeta. rewrite Hmiss.
    destruct (ml <=? ms + 1)%Z eqn:Hl.
    + apply Z.leb_le in Hl. eexists.
      replace (misses_to_stop ml ms) with 1%nat by (unfold misses_to_stop; lia).
      reflexivity.
    + apply Z.leb_gt in Hl.
      match goal with |- context [scan _ _ _ _ codes ?m ?j ?s] =>
        destruct (IH m j s) as (w' & Hr) end.
      exists w'. rewrite Hr. cbn [trace].
      replace (misses_to_stop ml ms) with (S (misses_to_stop ml (ms + 1)))
        by (unfold misses_to_stop; lia).
      cbn [take map]. now rewrite <- app_assoc.
Qed.

(** The events of a run over brace-free prefixes. *)
Lemma fallback_shape out_dir prefixes start ml asset (st : St) :
  Forall no_brace prefixes ->
  exists st' ev,
    fallback_guess_by_prefixes requests_get requests_head format_field
      out_dir prefixes start ml asset st = (Ok tt, st')
    /\ trace st' = trace st ++ ev
    /\ mkdirs ev
       = pathlib.to_str out_dir
         :: map (fun p => pathlib.to_str (pathlib.truediv out_dir p)) prefixes
    /\ (length (heads ev) <= length prefixes * Z.to_nat (2000 - start))%nat
    /\ gets ev `sublist_of` heads ev.
Proof.
  intros Hall. unfold fallback_guess_by_prefixes.
  unfold mbind at 1. unfold M_bind at 1. unfold emit at 1.
  assert (H : forall (st1 : St),
             exists st' ev,
               for_each (scan_prefix requests_get requests_head format_field out_dir start ml asset)
                        prefixes st1 = (Ok tt, st')
               /\ trace st' = trace st1 ++ ev
               /\ mkdirs ev
                  = map (fun p => pathlib.to_str (pathlib.truediv out_dir p)) prefixes
               /\ (length (heads ev) <= length prefixes * Z.to_nat (2000 - start))%nat
               /\ gets ev `sublist_of` heads ev).
  { induction Hall as [|p prefixes Hp _ IH]; intros st1.
    - exists st1, []. cbn. rewrite app_nil_r. repeat split; [lia|constructor].
    - cbn [for_each]. unfold mbind at 1. unfold M_bind at 1.
      unfold scan_prefix at 1. unfold mbind at 1. unfold M_bind at 1. unfold emit at 1.
      match goal with |- context [scan_codes _ _ _ ?a ?b ?c ?d ?e ?f ?g ?s] =>
        destruct (scan_codes_shape a b c d e Hp f g s)
          as (st2 & ev2 & n & Hr & Ht & Hh & Hg2 & _ & Hm) end.
      rewrite Hr. destruct (IH st2) as (st' & ev & Hr' & Ht' & Hm' & Hb & Hg).
      exists st', (EMkdir (pathlib.to_str (pathlib.truediv out_dir p)) :: ev2 ++ ev).
      split; [exact Hr'|]. split.
      { rewrite Ht', Ht. cbn [trace]. rewrite <- !app_assoc. reflexivity. }
      split.
      { cbn [mkdirs flat_map app map]. fold (mkdirs (ev2 ++ ev)).
        now rewrite mkdirs_app, Hm, Hm'. }
      cbn [heads gets flat_map app length]. fold (heads (ev2 ++ ev)) (gets (ev2 ++ ev)).
      split.
      { rewrite heads_app, length_app, Hh, length_map, length_take.
        unfold range. rewrite length_map, length_seq. lia. }
      rewrite heads_app, gets_app. now apply sublist_app. }
  destruct (H (mkSt (world st) (trace st ++ [EMkdir (pathlib.to_str out_dir)])))
    as (st' & ev & Hr & Ht & Hm & Hb & Hg).
  exists st', (EMkdir (pathlib.to_str out_dir) :: ev).
  split; [exact Hr|]. split; [rewrite Ht; cbn [trace]; now rewrite <- app_assoc|].
  split; [cbn [mkdirs flat_map app]; fold (mkdirs ev); now rewrite Hm|].
  split; [exact Hb|exact Hg].
Qed.

(** X8: a run over brace-free prefixes ends normally and creates the
    output directory and then the directory of every prefix, in the
    order of the list: no prefix is skipped, whatever the scans of the
    prefixes before it found; it makes at most [2000 - start] probes
    for each prefix, and none when [start] is 2000 or more. *)
Theorem fallback_visits_every_prefix out_dir prefixes start ml asset (st : St) :
  Forall no_brace prefixes ->
  exists st' ev,
    fallback_guess_by_prefixes requests_get requests_head format_field
      out_dir prefixes start ml asset st = (Ok tt, st')
    /\ trace st' = trace st ++ ev
    /\ mkdirs ev
       = pathlib.to_str out_dir
         :: map (fun p => pathlib.to_str (pathlib.truediv out_dir p)) prefixes
    /\ (length (heads ev) <= length prefixes * Z.to_nat (2000 - start))%nat.
Proof.
  intros Hall.
  destruct (fallback_shape out_dir prefixes start ml asset st Hall)
    as (st' & ev & Hr & Ht & Hm & Hb & _).
  now exists st', ev.
Qed.

End FallbackShape.

Section FallbackMisses.

Context {World : Type}.
Variable requests_get : string -> World -> Reply * World.
Variable requests_head : string -> World -> Reply * World.
Variable format_field : string -> option ascii -> string -> string -> result string.

(** A run over brace-free prefixes in which no probe finds anything. *)
Lemma fallback_all_misses out_dir prefixes start ml asset (st : St) :
  Forall no_brace prefixes ->
  (forall u w, head_ok (fst (requests_head u w)) = false) ->
  exists w',
    fallback_guess_by_prefixes requests_get requests_head format_field
      out_dir prefixes start ml asset st
    = (Ok tt, mkSt w' (trace st ++ all_miss_events out_dir prefixes start ml asset)).
Proof.
  intros Hall Hmiss. unfold fallback_guess_by_prefixes, all_miss_events.
  unfold mbind at 1. unfold M_bind at 1. unfold emit at 1.
  set (per := fun p =>
         EMkdir (pathlib.to_str (pathlib.truediv out_dir p))
         :: map (fun i => EHead (cand p (asset_fname asset) i))
                (take (misses_to_stop ml 0) (range start 2000))).
  assert (H : forall (st1 : St),
             exists w',
               for_each (scan_prefix requests_get requests_head format_field
                                     out_dir start ml asset) prefixes st1
               = (Ok tt, mkSt w' (trace st1 ++ flat_map per prefixes))).
  { induction Hall as [|p prefixes Hp _ IH]; intros st1.
    - exists (world st1). cbn. rewrite app_nil_r. now destruct st1.
    - cbn [for_each]. unfold mbind at 1. unfold M_bind at 1.
      unfold scan_prefix at 1. unfold mbind at 1. unfold M_bind at 1. unfold emit at 1.
      match goal with |- context [scan_codes _ _ _ ?a ?b ?c ?d ?e ?f ?g ?s] =>
        destruct (scan_codes_misses requests_get requests_head format_field
                    a b c d e Hp (fun i w _ => Hmiss _ w) f g s) as (w1 & Hr) end.
      rewrite Hr.
      match goal with |- context [for_each _ prefixes ?s] =>
        destruct (IH s) as (w' & Hr') end.
      rewrite Hr'. exists w'. cbn [trace flat_map].
      rewrite <- !app_assoc. reflexivity. }
  match goal with |- context [for_each _ prefixes ?s] =>
    destruct (H s) as (w' & Hr) end.
  exists w'. rewrite Hr. cbn [trace]. now rewrite <- app_assoc.
Qed.

End FallbackMisses.

(** ** More on the extractor *)

Section ExtractMore.

Variable check_bracketed_host : string -> bool.
Variable BeautifulSoup : string -> list Tag.

Abbreviation norm := (normalize check_bracketed_host).
Abbreviation step := (dedupe_step check_bracketed_host).
Abbreviation extract := (extract_image_urls check_bracketed_host BeautifulSoup).
Abbreviation collect := (collect_urls check_bracketed_host BeautifulSoup).

Lemma dedupe_step_sublist done seen res u seen' res' :
  res `sublist_of` done ->
  step (seen, res) u = Ok (seen', res') ->
  res' `sublist_of` done ++ candidates [u].
Proof.
  intros Hs H. unfold dedupe_step in H.
  destruct (Py.truthy u) eqn:Hu; cbn [negb] in H.
  2:{ injection H as <- <-. unfold candidates; cbn. rewrite Hu. cbn.
      now rewrite app_nil_r. }
  unfold candidates; cbn [List.filter]. rewrite Hu. cbn [map].
  destruct (norm (upgrade u)) as [key|]; [|discriminate]. cbn in H.
  destruct (bool_decide (key ∈ seen)); injection H as <- <-.
  - now apply sublist_inserts_r.
  - now apply sublist_app.
Qed.

Lemma dedupe_fold_sublist urls :
  forall done seen res seen' res',
    res `sublist_of` done ->
    result_fold step (seen, res) urls = Ok (seen', res') ->
    res' `sublist_of` done ++ candidates urls.
Proof.
  induction urls as [|u urls IH]; intros done seen res seen' res' Hs H.
  - cbn in H. injection H as <- <-. unfold candidates; cbn. now rewrite app_nil_r.
  - cbn [result_fold] in H.
    destruct (step (seen, res) u) as [[seen1 res1]|] eqn:H1; [|discriminate].
    cbn in H. pose proof (dedupe_step_sublist _ _ _ _ _ _ Hs H1) as Hs1.
    specialize (IH _ _ _ _ _ Hs1 H).
    change (u :: urls) with ([u] ++ urls). rewrite candidates_app.
    now rewrite app_assoc.
Qed.

Lemma extract_sublist_candidates html base_url l :
  extract html base_url = Ok l ->
  exists urls, collect html base_url = Ok urls /\ l `sublist_of` candidates urls.
Proof.
  unfold extract_image_urls. intros H.
  destruct (collect_urls _ _ html base_url) as [urls|]; [|discriminate]. cbn in H.
  exists urls. split; [reflexivity|].
  destruct (dedupe _ urls) as [res|] eqn:Hd; [|discriminate]. cbn in H.
  apply result_filter_spec in H as [_ Hsub]. etransitivity; [exact Hsub|].
  unfold dedupe in Hd.
  destruct (result_fold step (∅, []) urls) as [[seen res']|] eqn:Hf; [|discriminate].
  cbn in Hd. injection Hd as <-.
  apply (dedupe_fold_sublist urls [] ∅ [] seen res'); [constructor|exact Hf].
Qed.

(** X9: the extractor keeps the order of collection: its output is the
    list of the collected URLs, in the form in which the loop considers
    them, with some of them left out. *)
Theorem extract_keeps_collection_order html base_url l :
  extract html base_url = Ok l ->
  exists urls, collect html base_url = Ok urls /\ l `sublist_of` candidates urls.
Proof. apply extract_sublist_candidates. Qed.

Lemma upgrade_shape (v : string) :
  Py.truthy v = true ->
  Py.truthy (upgrade v) = true /\ Py.startswith (upgrade v) "//" = false.
Proof.
  intros Hv. unfold upgrade. destruct (Py.startswith v "//") eqn:Hs.
  - split; reflexivity.
  - split; [exact Hv|exact Hs].
Qed.

(** X10: no URL in the output of the extractor is empty, and none is
    protocol-relative (begins with two slashes). *)
Theorem extract_no_empty_no_protocol_relative html base_url l :
  extract html base_url = Ok l ->
  forall u, u ∈ l -> u <> EmptyString /\ Py.startswith u "//" = false.
Proof.
  intros H u Hu. apply extract_sublist_candidates in H as (urls & _ & Hsub).
  apply (fun H => elem_of_sublist _ _ _ H Hsub) in Hu. unfold candidates in Hu.
  apply list_elem_of_fmap in Hu as (v & -> & Hv).
  apply list_elem_of_In, filter_In in Hv as [_ Hv].
  destruct (upgrade_shape v Hv) as [Ht Hs]. split; [|exact Hs].
  intros E. rewrite E in Ht. discriminate.
Qed.

End ExtractMore.

(** ** The deduplication key *)

Lemma contains_take c n s : Py.contains c s = false -> Py.contains c (Py.take n s) = false.
Proof.
  revert s. induction n as [|n IH]; intros [|d s]; cbn [Py.take Py.contains]; auto.
  intros H. apply orb_false_elim in H as [H1 H2]. now rewrite H1, (IH s H2).
Qed.

Lemma contains_drop c n s : Py.contains c s = false -> Py.contains c (Py.drop n s) = false.
Proof.
  revert s. induction n as [|n IH]; intros [|d s]; cbn [Py.drop Py.contains]; auto.
  intros H. apply orb_false_elim in H as [_ H2]. now apply IH.
Qed.

Lemma contains_take_find c s i :
  Py.find c s = Some i -> Py.contains c (Py.take i s) = false.
Proof.
  revert i. induction s as [|d s IH]; intros i; cbn [Py.find]; [discriminate|].
  destruct (Ascii.eqb d c) eqn:E.
  - intros H. injection H as <-. reflexivity.
  - destruct (Py.find c s) as [j|]; [|discriminate]. cbn. intros H. injection H as <-.
    cbn [Py.take Py.contains]. now rewrite E, (IH j eq_refl).
Qed.

Lemma find_none_contains c s : Py.find c s = None -> Py.contains c s = false.
Proof.
  induction s as [|d s IH]; cbn [Py.find Py.contains]; [reflexivity|].
  destruct (Ascii.eqb d c); [discriminate|].
  destruct (Py.find c s); [discriminate|]. intros _. now apply IH.
Qed.

(** The text before the first [c] has no [c]. *)
Lemma split1_fst_free c s : Py.contains c (fst (Py.split1 c s)) = false.
Proof.
  unfold Py.split1. destruct (Py.find c s) as [i|] eqn:H; cbn [fst].
  - now apply contains_take_find.
  - now apply find_none_contains.
Qed.

Lemma split1_fst_keeps d c s :
  Py.contains d s = false -> Py.contains d (fst (Py.split1 c s)) = false.
Proof.
  intros H. unfold Py.split1. destruct (Py.find c s); cbn [fst]; [|exact H].
  now apply contains_take.
Qed.

Lemma splitnetloc_free s c :
  urllib.is_delim c = true -> Py.contains c (fst (urllib.splitnetloc s)) = false.
Proof.
  intros Hc. induction s as [|d s IH]; [reflexivity|]. cbn [urllib.splitnetloc].
  destruct (urllib.is_delim d) eqn:Hd; [reflexivity|].
  destruct (urllib.splitnetloc s) as [n r]. cbn [fst Py.contains] in *.
  rewrite IH, orb_false_r. destruct (Ascii.eqb d c) eqn:E; [|reflexivity].
  apply Ascii.eqb_eq in E. congruence.
Qed.

Lemma splitparams_free c url :
  Py.contains c url = false ->
  Py.contains c (fst (urllib.splitparams url)) = false
  /\ Py.contains c (snd (urllib.splitparams url)) = false.
Proof.
  intros H. unfold urllib.splitparams.
  destruct (Py.rfind "/" url) as [j|].
  - destruct (Py.find ";" (Py.drop j url)); cbn [fst snd];
      split; auto using contains_take, contains_drop.
  - destruct (Py.find ";" url); cbn [fst snd];
      split; auto using contains_take, contains_drop.
Qed.

Lemma scheme_char_lower c d :
  urllib.is_scheme_char c = true -> (d = "?" \/ d = "#")%char ->
  Ascii.eqb (Py.lower_char c) d = false.
Proof.
  intros Hc Hd.
  destruct c as [[] [] [] [] [] [] [] []]; try discriminate Hc;
    destruct Hd as [-> | ->]; reflexivity.
Qed.

Lemma scheme_lower_free s d :
  Py.forallb urllib.is_scheme_char s = true -> (d = "?" \/ d = "#")%char ->
  Py.contains d (Py.lower s) = false.
Proof.
  intros Hs Hd. induction s as [|c s IH]; [reflexivity|].
  cbn [Py.forallb] in Hs. apply andb_prop in Hs as [H1 H2].
  cbn [Py.lower Py.contains]. now rewrite (scheme_char_lower c d H1 Hd), (IH H2).
Qed.

Lemma delim_is_delim d : (d = "?" \/ d = "#")%char -> urllib.is_delim d = true.
Proof. intros [-> | ->]; reflexivity. Qed.

(** The scheme, the netloc and the path that [urlsplit] returns hold
    neither a question mark nor a hash. *)
Lemma urlsplit_free cb (u : string) sr d :
  (d = "?" \/ d = "#")%char ->
  urllib.urlsplit cb u EmptyString = Ok sr ->
  Py.contains d (urllib.s_scheme sr) = false
  /\ Py.contains d (urllib.s_netloc sr) = false
  /\ Py.contains d (urllib.s_path sr) = false.
Proof.
  intros Hd. unfold urllib.urlsplit.
  set (url0 := urllib.remove_unsafe (Py.lstrip_chars urllib.is_c0_or_space u)).
  change (urllib.remove_unsafe
            (Py.rstrip_chars urllib.is_c0_or_space
               (Py.lstrip_chars urllib.is_c0_or_space EmptyString)))
    with EmptyString.
  set (pair := match Py.find ":" url0 with
               | Some (S i) => _
               | _ => _
               end).
  assert (Hsch : Py.contains d (fst pair) = false).
  { subst pair. destruct (Py.find ":" url0) as [[|i]|]; try reflexivity.
    destruct url0 as [|c0 url0']; [reflexivity|].
    destruct (urllib.is_ascii_alpha c0 &&
              Py.forallb urllib.is_scheme_char (Py.take (S i) (String c0 url0'))) eqn:E;
      [|reflexivity].
    apply andb_prop in E as [_ E]. cbn [fst]. now apply scheme_lower_free. }
  destruct pair as [sch url1]. cbn [fst] in Hsch.
  set (nlp := if Py.startswith url1 "//" then _ else _).
  assert (Hnl : forall nl rest, nlp = Ok (nl, rest) -> Py.contains d nl = false).
  { subst nlp. intros nl rest. destruct (Py.startswith url1 "//"); [|now intros [= <- <-]].
    pose proof (splitnetloc_free (Py.drop 2 url1) d (delim_is_delim d Hd)) as Hn.
    destruct (urllib.splitnetloc (Py.drop 2 url1)) as [n r]. cbn [fst] in Hn.
    destruct (_ || _); [discriminate|].
    destruct (_ && _).
    - destruct (urllib.check_bracketed_netloc cb n); [|discriminate].
      cbn. now intros [= <- <-].
    - now intros [= <- <-]. }
  destruct nlp as [[nl url2]|]; [|discriminate]. cbn [mbind result_bind].
  specialize (Hnl nl url2 eq_refl).
  pose proof (split1_fst_free "#" url2) as Hh.
  destruct (Py.split1 "#" url2) as [url3 frag]. cbn [fst] in Hh.
  pose proof (split1_fst_free "?" url3) as Hq.
  pose proof (split1_fst_keeps "#" "?" url3 Hh) as Hh'.
  destruct (Py.split1 "?" url3) as [url4 qry]. cbn [fst] in Hq, Hh'.
  intros [= <-]. cbn [urllib.s_scheme urllib.s_netloc urllib.s_path].
  split; [exact Hsch|]. split; [exact Hnl|].
  destruct Hd as [-> | ->]; assumption.
Qed.

(** X11: the key under which the extractor deduplicates a URL holds no
    question mark and no hash: query and fragment are gone from it, with
    their delimiters. *)
Theorem normalize_has_no_query_no_fragment cb (u key : string) :
  normalize cb u = Ok key ->
  Py.contains "?" key = false /\ Py.contains "#" key = false.
Proof.
  unfold normalize, urllib.urlparse, urllib.urlparse_with. intros H.
  destruct (urllib.urlsplit cb u EmptyString) as [sr|] eqn:Hs; [|discriminate].
  assert (Hfree : forall d, (d = "?" \/ d = "#")%char ->
            Py.contains d key = false).
  { intros d Hd.
    destruct (urlsplit_free cb u sr d Hd Hs) as (Hsch & Hnl & Hpath).
    assert (Hd' : Ascii.eqb "/" d = false /\ Ascii.eqb ":" d = false
                  /\ Ascii.eqb ";" d = false)
      by (destruct Hd as [-> | ->]; repeat split; reflexivity).
    destruct Hd' as (Hslash & Hcolon & Hsemi).
    cbn [mbind result_bind] in H.
    set (pp := if _ && _ then urllib.splitparams (urllib.s_path sr)
               else (urllib.s_path sr, EmptyString)) in H.
    assert (Hpp : Py.contains d (fst pp) = false /\ Py.contains d (snd pp) = false).
    { subst pp. destruct (_ && _); [now apply splitparams_free|].
      split; [exact Hpath|reflexivity]. }
    destruct pp as [p prm]. cbn [fst snd] in Hpp. destruct Hpp as [Hp Hprm].
    cbn [mbind result_bind] in H. injection H as <-.
    unfold urllib.geturl, urllib.urlunparse, urllib.urlunsplit.
    cbn [urllib.scheme urllib.netloc urllib.path urllib.params urllib.query
         urllib.fragment Py.truthy].
    repeat match goal with
           | |- context [if ?b then _ else _] => destruct b
           end;
      rewrite ?contains_app; cbn [Py.contains];
      rewrite ?Hsch, ?Hnl, ?Hp, ?Hprm, ?Hslash, ?Hcolon, ?Hsemi; reflexivity. }
  split; apply Hfree; auto.
Qed.

(** ** The URLs of a [srcset] *)

Lemma split_fields_free (c : ascii) (s : string) :
  Forall (fun f => Py.contains c f = false) (Py.split c s).
Proof.
  induction s as [|d s IH]; cbn [Py.split].
  - repeat constructor.
  - destruct (Ascii.eqb d c) eqn:E.
    + constructor; [reflexivity|exact IH].
    + destruct (Py.split c s) as [|h t]; [repeat constructor; cbn; now rewrite E|].
      inversion IH; subst. constructor; [|assumption].
      cbn [Py.contains]. now rewrite E.
Qed.

Lemma contains_lstrip c p s :
  Py.contains c s = false -> Py.contains c (Py.lstrip_chars p s) = false.
Proof.
  induction s as [|d s IH]; [reflexivity|]. cbn [Py.lstrip_chars]. intros H.
  destruct (p d); [|exact H]. cbn [Py.contains] in H.
  apply orb_false_elim in H as [_ H]. now apply IH.
Qed.

Lemma contains_rstrip c p s :
  Py.contains c s = false -> Py.contains c (Py.rstrip_chars p s) = false.
Proof.
  induction s as [|d s IH]; [reflexivity|]. cbn [Py.rstrip_chars Py.contains]. intros H.
  apply orb_false_elim in H as [H1 H2]. specialize (IH H2).
  destruct (Py.rstrip_chars p s) as [|e r].
  - destruct (p d); [reflexivity|]. cbn. now rewrite H1.
  - cbn [Py.contains] in *. now rewrite H1, IH.
Qed.

Lemma contains_strip c s : Py.contains c s = false -> Py.contains c (Py.strip s) = false.
Proof. intros H. unfold Py.strip. now apply contains_rstrip, contains_lstrip. Qed.

Lemma before_space_free (s : string) : Py.contains " " (before_space s) = false.
Proof.
  induction s as [|d s IH]; [reflexivity|]. cbn [before_space].
  destruct (Ascii.eqb d " ") eqn:E; [reflexivity|]. cbn [Py.contains]. now rewrite E.
Qed.

Lemma contains_before_space c s :
  Py.contains c s = false -> Py.contains c (before_space s) = false.
Proof.
  induction s as [|d s IH]; [reflexivity|]. cbn [before_space Py.contains]. intros H.
  apply orb_false_elim in H as [H1 H2].
  destruct (Ascii.eqb d " "); [reflexivity|]. cbn [Py.contains]. now rewrite H1, IH.
Qed.

(** X12: every URL that [parse_srcset] returns is non-empty and holds
    neither a comma nor a space character. *)
Theorem parse_srcset_urls_are_tokens (srcset u : string) :
  u ∈ parse_srcset srcset ->
  u <> EmptyString /\ Py.contains "," u = false /\ Py.contains " " u = false.
Proof.
  unfold parse_srcset. intros H.
  apply list_elem_of_In, filter_In in H as [H Ht].
  apply in_map_iff in H as (part & <- & Hpart).
  split; [intros E; rewrite E in Ht; discriminate|].
  rewrite srcset_entry_url_eq. unfold entry_url. split.
  - apply contains_strip, contains_before_space, contains_strip.
    pose proof (split_fields_free "," srcset) as F.
    rewrite Forall_forall in F. apply F. now apply list_elem_of_In.
  - apply contains_strip, before_space_free.
Qed.

(** ** [main] *)

Lemma str_le_total : Total str_le.
Proof. intros a b. apply String.leb_total. Qed.

Lemma ascii_compare_lt_trans (a b c : ascii) :
  Ascii.compare a b = Lt -> Ascii.compare b c = Lt -> Ascii.compare a c = Lt.
Proof. unfold Ascii.compare. rewrite !N.compare_lt_iff. lia. Qed.

Lemma str_le_trans : Transitive str_le.
Proof.
  unfold str_le, String.leb. intros a.
  induction a as [|x a IH]; intros [|y b] [|z c]; cbn; try easy.
  destruct (Ascii.compare x y) eqn:Hxy; try easy.
  - apply Ascii.compare_eq_iff in Hxy. subst y.
    destruct (Ascii.compare x z) eqn:Hxz; try easy. apply IH.
  - destruct (Ascii.compare y z) eqn:Hyz; try easy.
    + apply Ascii.compare_eq_iff in Hyz. subst z. now rewrite Hxy.
    + now rewrite (ascii_compare_lt_trans _ _ _ Hxy Hyz).
Qed.

Section MainProperties.

Variable check_bracketed_host : string -> bool.
Variable BeautifulSoup : string -> list Tag.
Context {World : Type}.
Variable requests_get : string -> World -> Reply * World.
Variable requests_head : string -> World -> Reply * World.
Variable format_field : string -> option ascii -> string -> string -> result string.
Variable response_text : Response -> string.

Abbreviation urlparse := (urllib.urlparse check_bracketed_host).
Abbreviation extract := (extract_image_urls check_bracketed_host BeautifulSoup).
Abbreviation run_main :=
  (main check_bracketed_host BeautifulSoup requests_get requests_head format_field
        response_text).

(** X13: when the request for the listing page raises, or is answered
    with a status from 400 to 599, [main] ends with that exception
    after this one request: it creates no directory, writes no file and
    makes no other request. *)
Theorem main_page_failure_is_fatal (args : Args) (st : St) :
  fetch_fails (fst (requests_get URL (world st))) ->
  exists e st',
    run_main args st = (e, st')
    /\ e <> Returned
    /\ trace st' = trace st ++ [EGet URL].
Proof.
  intros Hf. apply fetch_ok_false_iff in Hf. unfold main.
  destruct (requests_get URL (world st)) as [[resp|] w]; cbn [fst fetch_ok] in Hf.
  - apply negb_false_iff in Hf. rewrite Hf.
    eexists _, _. split; [reflexivity|]. split; [discriminate|reflexivity].
  - eexists _, _. split; [reflexivity|]. split; [discriminate|reflexivity].
Qed.

Lemma extract_output_parses html base_url l :
  extract html base_url = Ok l ->
  Forall (fun u => exists p, urlparse u = Ok p) l.
Proof.
  unfold extract_image_urls. intros H.
  destruct (collect_urls _ _ html base_url) as [urls|]; [|discriminate]. cbn in H.
  destruct (dedupe _ urls) as [res|]; [|discriminate]. cbn in H.
  apply result_filter_spec in H as [Hin _]. apply Forall_forall. intros u Hu.
  apply Hin in Hu as [_ Hext]. unfold has_image_ext in Hext.
  destruct (urlparse u) as [p|]; [now exists p|discriminate].
Qed.

Lemma download_loop_no_heads out_dir urls :
  Forall (fun u => exists p, urlparse u = Ok p) urls ->
  forall counters (st : St),
    heads (trace (snd (download_loop check_bracketed_host requests_get
                                     out_dir counters urls st)))
    = heads (trace st).
Proof.
  induction 1 as [|u urls [p Hu] _ IH]; intros counters st; [reflexivity|].
  destruct (parsed_detect _ _ _ Hu) as [q Hq].
  destruct (parsed_ext _ _ _ Hu) as [e He].
  cbn [download_loop]. unfold mbind at 1. unfold M_bind at 1.
  rewrite (download_one_run _ _ _ _ _ _ _ _ Hq He). cbv zeta.
  destruct (fetch_ok _); rewrite IH; cbn [trace]; rewrite !heads_app; cbn;
    now rewrite ?app_nil_r.
Qed.

(** X14: when the page is fetched and the extractor returns a non-empty
    list, [main] returns after fetching every extracted URL once, in
    ascending order of the URLs, without a single HEAD request; the
    command-line arguments play no part in such a run. *)
Theorem main_downloads_in_sorted_order (args : Args) (st : St) resp w urls :
  requests_get URL (world st) = (Responded resp, w) ->
  raises_for_status resp = false ->
  extract (response_text resp) URL = Ok urls ->
  urls <> [] ->
  exists st' ev,
    run_main args st = (Returned, st')
    /\ trace st' = trace st ++ EGet URL :: ev
    /\ gets ev = sorted urls
    /\ heads ev = []
    /\ StronglySorted str_le (sorted urls)
    /\ sorted urls ≡ₚ urls
    /\ forall args', run_main args' st = run_main args st.
Proof.
  intros Hget Hok Hex Hne.
  assert (Hparse : Forall (fun u => exists p, urlparse u = Ok p) (sorted urls)).
  { apply extract_output_parses in Hex. rewrite Forall_forall in *.
    intros u Hu. apply Hex.
    unfold sorted in Hu. now rewrite merge_sort_Permutation in Hu. }
  set (st1 := mkSt w (trace st ++ [EGet URL; EMkdir (pathlib.to_str OUT_DIR)])).
  destruct (download_loop_isolated check_bracketed_host requests_get OUT_DIR
              (sorted urls) Hparse ∅ st1)
    as (c' & st' & ev & Hloop & Ht & Hg & _).
  pose proof (download_loop_no_heads OUT_DIR (sorted urls) Hparse ∅ st1) as Hh.
  rewrite Hloop in Hh. cbn [snd] in Hh. rewrite Ht in Hh.
  rewrite heads_app in Hh.
  assert (Hev : heads ev = []).
  { destruct (heads ev); [reflexivity|].
    apply (f_equal (@length string)) in Hh. rewrite length_app in Hh. cbn in Hh. lia. }
  assert (Hrun : forall a, run_main a st = (Returned, st')).
  { intros a. unfold main. rewrite Hget, Hok, Hex.
    destruct urls as [|u0 urls0]; [congruence|].
    unfold download_images, mbind, M_bind, emit, mret, M_ret. cbn [world trace].
    rewrite <- app_assoc. cbn [app]. fold st1. rewrite Hloop. reflexivity. }
  exists st', (EMkdir (pathlib.to_str OUT_DIR) :: ev).
  split; [apply Hrun|]. split.
  { rewrite Ht. subst st1. cbn [trace]. rewrite <- app_assoc. reflexivity. }
  split; [cbn [gets flat_map app]; exact Hg|].
  split; [cbn [heads flat_map app]; exact Hev|].
  split; [apply StronglySorted_merge_sort; [apply str_le_trans|apply str_le_total]|].
  split; [apply merge_sort_Permutation|].
  intros args'. now rewrite !Hrun.
Qed.

(** X15: when the page is fetched and the extractor returns the empty
    list, [main] runs the fallback prober on [images] with the
    prefixes, the start, the miss limit and the asset of the command
    line, and returns when it does: for brace-free prefixes it creates
    [images] and one directory for every prefix, every file it fetches
    is one it has probed, and when no probe finds anything its events
    are, for each prefix, the probes of that asset from the start code
    on, as many as the miss limit asks for. *)
Theorem main_falls_back_to_probing (args : Args) (st : St) resp w :
  requests_get URL (world st) = (Responded resp, w) ->
  raises_for_status resp = false ->
  extract (response_text resp) URL = Ok [] ->
  Forall no_brace (arg_prefixes args) ->
  exists st' ev,
    run_main args st = (Returned, st')
    /\ trace st' = trace st ++ EGet URL :: ev
    /\ fallback_guess_by_prefixes requests_get requests_head format_field
         OUT_DIR (arg_prefixes args) (arg_start args) (arg_miss_limit args)
         (Some (arg_asset args)) (mkSt w (trace st ++ [EGet URL]))
       = (Ok tt, st')
    /\ mkdirs ev
       = "images" :: map (fun p => pathlib.to_str (pathlib.truediv OUT_DIR p))
                        (arg_prefixes args)
    /\ gets ev `sublist_of` heads ev
    /\ ((forall u w', head_ok (fst (requests_head u w')) = false) ->
        ev = all_miss_events OUT_DIR (arg_prefixes args) (arg_start args)
                             (arg_miss_limit args) (Some (arg_asset args))).
Proof.
  intros Hget Hok Hex Hall.
  destruct (fallback_shape requests_get requests_head format_field
              OUT_DIR (arg_prefixes args)
              (arg_start args) (arg_miss_limit args) (Some (arg_asset args))
              (mkSt w (trace st ++ [EGet URL])) Hall)
    as (st' & ev & Hr & Ht & Hm & _ & Hg).
  exists st', ev. unfold main. rewrite Hget, Hok, Hex, Hr.
  split; [reflexivity|]. split.
  { rewrite Ht. cbn [trace]. now rewrite <- app_assoc. }
  split; [reflexivity|]. split; [exact Hm|]. split; [exact Hg|].
  intros Hmiss.
  destruct (fallback_all_misses requests_get requests_head format_field
              OUT_DIR (arg_prefixes args)
              (arg_start args) (arg_miss_limit args) (Some (arg_asset args))
              (mkSt w (trace st ++ [EGet URL])) Hall Hmiss) as (w' & Hr').
  rewrite Hr in Hr'. injection Hr' as ->. cbn [trace] in Ht.
  now apply app_inv_head in Ht.
Qed.

End MainProperties.

(** ** A reference that does not parse *)

Lemma result_map_raise {A B} (f : A -> result B) (l : list A) x e :
  x ∈ l -> f x = Raise e -> exists e', result_map f l = Raise e'.
Proof.
  induction l as [|y l IH]; intros Hx Hf.
  - now apply elem_of_nil in Hx.
  - cbn [result_map]. apply elem_of_cons in Hx as [<-|Hx].
    + rewrite Hf. now exists e.
    + destruct (f y) as [b|e1]; [|now exists e1]. cbn [mbind result_bind].
      destruct (IH Hx Hf) as [e' ->]. now exists e'.
Qed.

(** X16: the extractor has no isolation per reference: when resolving one
    [src], [data-src] or [srcset] reference of one image against the
    base URL raises, the whole extraction raises, whatever else the
    document holds. *)
Theorem extract_aborts_on_bad_reference
        cb (BeautifulSoup : string -> list Tag) html base_url img v e :
  img ∈ find_all "img" (BeautifulSoup html) ->
  v ∈ img_candidates img ->
  urllib.urljoin cb base_url v = Raise e ->
  exists e', extract_image_urls cb BeautifulSoup html base_url = Raise e'.
Proof.
  intros Himg Hv He.
  assert (Hin : v ∈ flat_map img_candidates (find_all "img" (BeautifulSoup html))).
  { apply list_elem_of_In, in_flat_map. exists img.
    split; now apply list_elem_of_In. }
  destruct (result_map_raise _ _ _ _ Hin He) as [e' Hr].
  exists e'. unfold extract_image_urls, collect_urls. now rewrite Hr.
Qed.

(** ** The CDN pattern *)

Lemma matches_accepts_only P r w g g' :
  accepts_only P r -> matches r w g g' -> Forall (fun c => P c = true) w.
Proof.
  intros Ha M. induction M; cbn [accepts_only] in Ha.
  - constructor.
  - repeat constructor. now apply Ha.
  - destruct Ha. apply Forall_app; auto.
  - destruct Ha. auto.
  - destruct Ha. auto.
  - constructor.
  - auto.
  - constructor.
  - apply Forall_app; auto.
  - auto.
Qed.

Lemma finditer_from_sound (r : re.regex) fuel :
  forall (s : list ascii) (m : re.Match),
    m ∈ re.finditer_from fuel r s ->
    exists before w after g',
      s = before ++ w ++ after /\ matches r w None g'
      /\ re.group0 m = string_of_list_ascii w.
Proof.
  induction fuel as [|fuel IH]; intros s m Hm; cbn [re.finditer_from] in Hm.
  - now apply elem_of_nil in Hm.
  - destruct (re.search_from r s) as [m0|] eqn:Hs; [|now apply elem_of_nil in Hm].
    apply search_from_sound in Hs as (pre & w & g' & Hs & M & H0 & _).
    apply elem_of_cons in Hm as [->|Hm].
    + now exists pre, w, (re.rest m0), g'.
    + apply IH in Hm as (b & w' & a & g'' & Hr & M' & H0').
      exists (pre ++ w ++ b), w', a, g''. split; [|now split].
      rewrite Hs, Hr. now rewrite <- !app_assoc.
Qed.

Lemma ascii_cases (P : ascii -> Prop) :
  (forall b0 b1 b2 b3 b4 b5 b6 b7, P (Ascii b0 b1 b2 b3 b4 b5 b6 b7)) -> forall c, P c.
Proof. intros H []. apply H. Qed.

Ltac by_ascii :=
  let c := fresh "c" in
  intros c; pattern c; apply ascii_cases; clear c;
  intros [] [] [] [] [] [] [] []; vm_compute; intros; (reflexivity || discriminate).

Lemma cdn_accepts_tail_chars : accepts_only tail_char cdn_img_pattern.
Proof. unfold cdn_img_pattern. cbn. repeat apply conj; by_ascii. Qed.

Lemma matches_lit_i c w g g' :
  matches (re.lit_i c) w g g' ->
  exists d, w = [d] /\ Py.lower_char d = Py.lower_char c /\ g' = g.
Proof.
  unfold re.lit_i. intros H. inversion H; subst.
  match goal with H : Ascii.eqb _ _ = true |- _ => apply Ascii.eqb_eq in H end.
  eauto.
Qed.

Lemma matches_str_i (s : string) w g g' :
  matches (re.str_i s) w g g' ->
  Py.lower (string_of_list_ascii w) = Py.lower s /\ g' = g.
Proof.
  revert w g g'. induction s as [|c s IH]; intros w g g' H.
  - cbn in H. inversion H; subst. now split.
  - destruct s as [|d s].
    + cbn in H. apply matches_lit_i in H as (x & -> & Hx & ->). cbn. now rewrite Hx.
    + change (re.str_i (String c (String d s)))
        with (re.Cat (re.lit_i c) (re.str_i (String d s))) in H.
      inversion H; subst.
      match goal with H : matches (re.lit_i _) _ _ _ |- _ =>
        apply matches_lit_i in H as (x & -> & Hx & ->) end.
      match goal with H : matches (re.str_i _) _ _ _ |- _ =>
        apply IH in H as [Hl ->] end.
      split; [|reflexivity]. cbn [app string_of_list_ascii Py.lower].
      now rewrite Hx, Hl.
Qed.

Lemma lower_app (a b : string) : Py.lower (a +:+ b) = Py.lower a +:+ Py.lower b.
Proof.
  induction a as [|c a IH]; [reflexivity|].
  change (String c a +:+ b) with (String c (a +:+ b)). cbn [Py.lower].
  now rewrite IH.
Qed.

Lemma startswith_append (a b : string) : Py.startswith (a +:+ b) a = true.
Proof.
  unfold Py.startswith. induction a as [|c a IH]; [now destruct b|].
  change (String c a +:+ b) with (String c (a +:+ b)). cbn [String.prefix].
  destruct (ascii_dec c c); [exact IH|congruence].
Qed.

(** X17: every URL that the scan of the raw HTML with the CDN pattern
    yields is a piece of the HTML text, begins with [http] in either
    case, and holds no whitespace and no quote character. *)
Theorem cdn_matches_are_clean_urls (html : string) (m : re.Match) :
  m ∈ re.finditer cdn_img_pattern html ->
  (exists before after, html = before +:+ re.group0 m +:+ after)
  /\ Py.startswith (Py.lower (re.group0 m)) "http" = true
  /\ Py.forallb tail_char (re.group0 m) = true.
Proof.
  unfold re.finditer. intros H.
  apply finditer_from_sound in H as (b & w & a & g' & Hs & M & H0).
  rewrite H0. split; [|split].
  - exists (string_of_list_ascii b), (string_of_list_ascii a).
    rewrite <- (string_of_list_ascii_of_string html), Hs.
    now rewrite !string_of_list_ascii_app.
  - unfold cdn_img_pattern in M. cbn [re.seq] in M.
    inversion M as [| |? ? w1 w2 ? g1 ? M1 M2| | | | | | |]; subst.
    apply matches_str_i in M1 as [Hl _].
    rewrite string_of_list_ascii_app, lower_app, Hl.
    change (Py.lower "http") with "http". apply startswith_append.
  - apply forallb_string. eapply matches_accepts_only; [|exact M].
    apply cdn_accepts_tail_chars.
Qed.

(** ** Sequence numbers in file names *)

Lemma uint_of_zeros (k : nat) (s : string) :
  NilEmpty.uint_of_string (string_of_list_ascii (repeat "0"%char k) +:+ s)
  = Nat.iter k Decimal.D0 <$> NilEmpty.uint_of_string s.
Proof.
  induction k as [|k IH].
  - cbn [repeat string_of_list_ascii Nat.iter]. change (EmptyString +:+ s) with s.
    now destruct (NilEmpty.uint_of_string s).
  - cbn [repeat string_of_list_ascii Nat.iter].
    change (String "0" ?a +:+ s) with (String "0" (a +:+ s)).
    cbn [NilEmpty.uint_of_string]. rewrite IH.
    now destruct (NilEmpty.uint_of_string s).
Qed.

Lemma of_uint_zeros (k : nat) (d : Decimal.uint) :
  N.of_uint (Nat.iter k Decimal.D0 d) = N.of_uint d.
Proof. induction k as [|k IH]; [reflexivity|]. cbn. exact IH. Qed.

Lemma digits_read_back (n : N) :
  NilEmpty.uint_of_string (NilZero.string_of_uint (N.to_uint n)) = Some (N.to_uint n).
Proof.
  unfold NilZero.string_of_uint.
  destruct (N.to_uint n) eqn:E; try (rewrite <- E; apply NilEmpty.usu).
  destruct n as [|p]; [discriminate|]. cbn in E.
  pose proof (DecimalPos.Unsigned.to_uint_nonnil p). congruence.
Qed.

Lemma digits_first_not_minus (n : N) (k : nat) :
  match Py.zfill k (NilZero.string_of_uint (N.to_uint n)) with
  | String "-" _ => False
  | _ => True
  end.
Proof.
  unfold Py.zfill.
  destruct (k - _)%nat as [|j]; cbn [repeat string_of_list_ascii].
  - change (EmptyString +:+ ?a) with a.
    unfold NilZero.string_of_uint. destruct (N.to_uint n); exact I.
  - exact I.
Qed.

(** X18: a sequence number can be read back from its formatted text:
    formatting pads but never truncates, so two different numbers never
    get the same text. *)
Theorem format_03d_reads_back (n : Z) : read_int (Py.format_03d n) = Some n.
Proof.
  unfold Py.format_03d.
  assert (Hz : forall k, NilEmpty.uint_of_string
                           (Py.zfill k (NilZero.string_of_uint (N.to_uint (Z.abs_N n))))
                         = Some (Nat.iter
                                   (k - String.length
                                          (NilZero.string_of_uint (N.to_uint (Z.abs_N n))))
                                   Decimal.D0 (N.to_uint (Z.abs_N n)))).
  { intros k. unfold Py.zfill. now rewrite uint_of_zeros, digits_read_back. }
  destruct (n <? 0)%Z eqn:Hn.
  - apply Z.ltb_lt in Hn. change ("-" +:+ ?a) with (String "-" a).
    cbn [read_int]. rewrite Hz. cbn [fmap option_fmap option_map].
    rewrite of_uint_zeros, DecimalN.Unsigned.of_to. f_equal. lia.
  - apply Z.ltb_ge in Hn.
    pose proof (digits_first_not_minus (Z.abs_N n) 3) as Hm.
    pose proof (Hz 3%nat) as H3.
    assert (Hr : forall t,
               match t with String "-" _ => False | _ => True end ->
               read_int t = (fun d => Z.of_N (N.of_uint d)) <$> NilEmpty.uint_of_string t).
    { intros [|c s] Ht; [reflexivity|]. unfold read_int.
      destruct c as [[] [] [] [] [] [] [] []]; try reflexivity. contradiction. }
    rewrite (Hr _ Hm), H3. cbn [fmap option_fmap option_map].
    rewrite of_uint_zeros, DecimalN.Unsigned.of_to. f_equal. lia.
Qed.

Lemma format_03d_inj (a b : Z) : Py.format_03d a = Py.format_03d b -> a = b.
Proof.
  intros H. apply (f_equal read_int) in H.
  rewrite !format_03d_reads_back in H. congruence.
Qed.

(** ** No file is written twice *)

Lemma append_inv_head (p a b : string) : p +:+ a = p +:+ b -> a = b.
Proof.
  induction p as [|c p IH]; [easy|].
  change (String c p +:+ ?x) with (String c (p +:+ x)). intros [= H]. now apply IH.
Qed.

(** Two texts cut at the first [c] agree piece by piece. *)
Lemma append_cut_inj (c : ascii) (a b x y : string) :
  Py.contains c a = false -> Py.contains c b = false ->
  a +:+ String c x = b +:+ String c y -> a = b /\ x = y.
Proof.
  revert b. induction a as [|d a IH]; intros [|e b] Ha Hb H.
  - now injection H as ->.
  - change (EmptyString +:+ ?t) with t in H.
    change (String e b +:+ ?t) with (String e (b +:+ t)) in H.
    injection H as <- _. cbn in Hb. now rewrite Ascii.eqb_refl in Hb.
  - change (EmptyString +:+ ?t) with t in H.
    change (String d a +:+ ?t) with (String d (a +:+ t)) in H.
    injection H as -> _. cbn in Ha. now rewrite Ascii.eqb_refl in Ha.
  - change (String d a +:+ ?t) with (String d (a +:+ t)) in H.
    change (String e b +:+ ?t) with (String e (b +:+ t)) in H.
    injection H as -> H. cbn [Py.contains] in Ha, Hb.
    apply orb_false_elim in Ha as [_ Ha]. apply orb_false_elim in Hb as [_ Hb].
    destruct (IH b Ha Hb H) as [-> ->]. now split.
Qed.

Lemma join_app_nonempty (sep : string) (l m : list string) :
  m <> [] ->
  Py.join sep (l ++ m)
  = List.fold_right (fun x acc => x +:+ sep +:+ acc) (Py.join sep m) l.
Proof.
  intros Hm. induction l as [|x l IH]; [reflexivity|].
  cbn [app Py.join List.fold_right]. rewrite <- IH.
  destruct (l ++ m) eqn:E; [|reflexivity].
  apply app_eq_nil in E as [_ E]. contradiction.
Qed.

Lemma fold_right_prefix (sep : string) (l : list string) :
  exists pre, forall t,
    List.fold_right (fun x acc => x +:+ sep +:+ acc) t l = pre +:+ t.
Proof.
  induction l as [|x l [pre IH]].
  - now exists EmptyString.
  - exists (x +:+ sep +:+ pre). intros t. cbn [List.fold_right].
    now rewrite IH, !append_assoc.
Qed.

(** The rendering of a path that ends in the components [m]. *)
Lemma to_str_tail (r : string) (l m : list string) :
  m <> [] ->
  exists pre, forall m', m' <> [] ->
    pathlib.to_str (pathlib.mkPath r (l ++ m')) = pre +:+ Py.join "/" m'.
Proof.
  intros _. destruct (fold_right_prefix "/" l) as [pre Hpre].
  exists (r +:+ pre). intros m' Hm'. unfold pathlib.to_str.
  cbn [pathlib.root pathlib.names].
  assert (Hne : l ++ m' <> []) by (intros E; apply app_eq_nil in E as [_ E]; contradiction).
  assert (Hj : r +:+ Py.join "/" (l ++ m') = (r +:+ pre) +:+ Py.join "/" m')
    by now rewrite (join_app_nonempty "/" l m' Hm'), Hpre, append_assoc.
  destruct r; [|exact Hj].
  destruct (l ++ m') eqn:E; [contradiction|exact Hj].
Qed.

Lemma uint_no_dot (d : Decimal.uint) :
  Py.contains "." (NilEmpty.string_of_uint d) = false.
Proof. induction d; cbn; auto. Qed.

Lemma zeros_no_dot (k : nat) :
  Py.contains "." (string_of_list_ascii (repeat "0"%char k)) = false.
Proof. induction k; cbn; auto. Qed.

Lemma format_03d_no_dot (n : Z) : Py.contains "." (Py.format_03d n) = false.
Proof.
  unfold Py.format_03d, Py.zfill.
  assert (H : Py.contains "." (NilZero.string_of_uint (N.to_uint (Z.abs_N n))) = false).
  { unfold NilZero.string_of_uint. destruct (N.to_uint _); try apply uint_no_dot.
    reflexivity. }
  destruct (n <? 0)%Z; rewrite !contains_app, zeros_no_dot, H; reflexivity.
Qed.

Lemma ext_starts_with_dot (e : string) : e ∈ exts -> exists t, e = String "." t.
Proof.
  intros H. apply list_elem_of_In in H. cbn in H.
  destruct H as [<-|[<-|[<-|[<-|[<-|[]]]]]]; eauto.
Qed.

(** A file name gives its sequence number back. *)
Lemma file_name_inj (i j : Z) (e1 e2 : string) :
  e1 ∈ exts -> e2 ∈ exts ->
  Py.format_03d i +:+ e1 = Py.format_03d j +:+ e2 -> i = j /\ e1 = e2.
Proof.
  intros H1 H2 H.
  destruct (ext_starts_with_dot _ H1) as [t1 ->].
  destruct (ext_starts_with_dot _ H2) as [t2 ->].
  apply append_cut_inj in H as [Hf ->]; try apply format_03d_no_dot.
  split; [now apply format_03d_inj|reflexivity].
Qed.

(** A destination of the downloader gives its category and its
    sequence number back. *)
Lemma download_dest_inj out_dir c1 c2 i1 i2 e1 e2 :
  is_category c1 -> is_category c2 -> e1 ∈ exts -> e2 ∈ exts ->
  download_dest out_dir c1 i1 e1 = download_dest out_dir c2 i2 e2 ->
  c1 = c2 /\ i1 = i2.
Proof.
  intros Hc1 Hc2 He1 He2 H.
  rewrite !download_dest_two_levels_down in H by assumption.
  destruct (to_str_tail (pathlib.root out_dir) (pathlib.names out_dir) [c1] ltac:(easy))
    as [pre Hpre].
  rewrite !Hpre in H by easy. apply append_inv_head in H. cbn [Py.join] in H.
  change ("/" +:+ ?t) with (String "/" t) in H.
  apply category_plain in Hc1 as [Hs1 _]. apply category_plain in Hc2 as [Hs2 _].
  apply append_cut_inj in H as [-> H]; try assumption.
  split; [reflexivity|]. now apply file_name_inj in H as [-> _].
Qed.

Lemma NoDup_consecutive (first : Z) (n : nat) : NoDup (consecutive first n).
Proof.
  unfold consecutive. apply NoDup_fmap_2; [|apply NoDup_seq].
  intros a b H. lia.
Qed.

Lemma NoDup_map_by {A B C} (g : A -> B) (h : A -> C) (l : list A) :
  (forall x y, x ∈ l -> y ∈ l -> g x = g y -> h x = h y) ->
  NoDup (map h l) -> NoDup (map g l).
Proof.
  induction l as [|x l IH]; intros Hgh Hnd; [constructor|].
  cbn [map] in *. apply NoDup_cons in Hnd as [Hx Hnd]. apply NoDup_cons. split.
  - intros Hin. apply Hx. apply list_elem_of_fmap in Hin as (y & Hy & Hyl).
    apply list_elem_of_fmap. exists y. split; [|exact Hyl].
    apply Hgh; [left|now right|exact Hy].
  - apply IH; [|exact Hnd]. intros a b Ha Hb. apply Hgh; now right.
Qed.

Lemma log_keys_NoDup (log : list Saved) :
  (forall cat, NoDup (indices_of cat log)) ->
  NoDup (map (fun s => (saved_cat s, saved_idx s)) log).
Proof.
  induction log as [|s log IH]; intros H; [constructor|].
  cbn [map]. apply NoDup_cons. split.
  - intros Hin. apply list_elem_of_fmap in Hin as (s' & Heq & Hs').
    injection Heq as Hc Hi. specialize (H (saved_cat s)).
    unfold indices_of in H. cbn [List.filter] in H. rewrite String.eqb_refl in H.
    cbn [map] in H. apply NoDup_cons in H as [Hn _]. apply Hn.
    rewrite Hi. apply list_elem_of_fmap. exists s'. split; [reflexivity|].
    apply list_elem_of_In, filter_In. split; [now apply list_elem_of_In|].
    apply String.eqb_eq. congruence.
  - apply IH. intros cat. specialize (H cat). unfold indices_of in *.
    cbn [List.filter] in H. destruct (String.eqb (saved_cat s) cat); [|exact H].
    cbn [map] in H. now apply NoDup_cons in H as [_ H].
Qed.

(** X19: a run of the download loop never writes to the same path twice:
    no file it has saved is overwritten later in the run. *)
Theorem download_never_overwrites
        cb {World : Type} (requests_get : string -> World -> Reply * World)
        out_dir urls counters (st : St) r st' :
  download_loop cb requests_get out_dir counters urls st = (r, st') ->
  exists ev, trace st' = trace st ++ ev /\ NoDup (map fst (writes ev)).
Proof.
  intros H. apply download_loop_log in H as (ev & log & Ht & Hw & Hf & Hn).
  exists ev. split; [exact Ht|]. rewrite Hw, map_map.
  apply (NoDup_map_by _ (fun s => (saved_cat s, saved_idx s))).
  - intros x y Hx Hy Heq. cbn [saved_write fst] in Heq.
    rewrite Forall_forall in Hf.
    destruct (Hf x Hx) as [Hcx Hex]. destruct (Hf y Hy) as [Hcy Hey].
    apply download_dest_inj in Heq as [-> ->]; auto.
  - apply log_keys_NoDup. intros cat. rewrite Hn. apply NoDup_consecutive.
Qed.

Lemma fallback_dest_inj (subdir : pathlib.Path) (i j : Z) :
  fallback_dest subdir i = fallback_dest subdir j -> i = j.
Proof.
  unfold fallback_dest. intros H.
  assert (He : ".jpg" ∈ exts) by (apply list_elem_of_In; cbn; tauto).
  rewrite !truediv_plain_name in H by now apply file_name_plain.
  destruct (to_str_tail (pathlib.root subdir) (pathlib.names subdir)
                        [EmptyString] ltac:(easy)) as [pre Hpre].
  rewrite !Hpre in H by easy. apply append_inv_head in H. cbn [Py.join] in H.
  now apply file_name_inj in H as [-> _].
Qed.

(** X20: the scan of one prefix never writes to the same path twice,
    whatever the prefix (also one that puts replacement fields of its
    own into the template, whatever [str.format] makes of them), the
    asset and the answers of the network. *)
Theorem scan_never_overwrites
        {World : Type} (requests_get requests_head : string -> World -> Reply * World)
        format_field prefix fname subdir ml codes ms idx (st : St) r st' :
  scan_codes requests_get requests_head format_field
             prefix fname subdir ml codes ms idx st
  = (r, st') ->
  exists ev, trace st' = trace st ++ ev /\ NoDup (map fst (writes ev)).
Proof.
  intros H. apply scan_codes_writes in H as (ev & n & Ht & Hw).
  exists ev. split; [exact Ht|]. rewrite Hw.
  apply NoDup_fmap_2; [|apply NoDup_seq].
  intros a b Heq. apply fallback_dest_inj in Heq. lia.
Qed.

(** ** The further properties at sample inputs *)

Lemma parse_srcset_urls_are_tokens_witness :
  "b.jpg" <> EmptyString
  /\ Py.contains "," "b.jpg" = false /\ Py.contains " " "b.jpg" = false.
Proof.
  apply (parse_srcset_urls_are_tokens "a.jpg 1x, b.jpg 2x" "b.jpg").
  apply list_elem_of_In. vm_compute. tauto.
Defined.

Lemma file_ext_in_exts_witness : ".jpg" ∈ exts.
Proof.
  apply (file_ext_in_exts Sample.accept_all Sample.plain ".jpg"). reflexivity.
Defined.

Lemma file_ext_agrees_with_filter_witness :
  exists parsed e stem,
    urllib.urlparse Sample.accept_all Sample.plain = Ok parsed
    /\ file_ext_for_url Sample.accept_all Sample.plain = Ok e
    /\ Py.lower (urllib.path parsed) = stem +:+ e.
Proof.
  apply (file_ext_agrees_with_filter Sample.accept_all Sample.plain true).
  reflexivity.
Defined.

Lemma detect_prefix_sound_witness :
  exists parsed before after,
    urllib.urlparse Sample.accept_all Sample.ogs1 = Ok parsed
    /\ urllib.path parsed
       = before +:+ "/riftbound/latest/" +:+ "OGS" +:+ "/cards/" +:+ after
    /\ "OGS" <> EmptyString
    /\ Py.forallb re.upper_AZ "OGS" = true.
Proof.
  apply (detect_prefix_sound Sample.accept_all Sample.ogs1 "OGS"). reflexivity.
Defined.

Lemma download_dest_two_levels_down_witness :
  download_dest Sample.images "OGS" 7 ".png"
  = pathlib.to_str
      (pathlib.mkPath (pathlib.root Sample.images)
         (pathlib.names Sample.images ++ ["OGS"; Py.format_03d 7 +:+ ".png"])).
Proof.
  apply (download_dest_two_levels_down Sample.images "OGS" 7 ".png").
  - right. split; [discriminate|reflexivity].
  - apply list_elem_of_In. vm_compute. tauto.
Defined.

Lemma download_numbering_gap_free_witness :
  exists ev log,
    trace (snd Scenario.batch_run) = trace Sample.st0 ++ ev
    /\ writes ev = map (saved_write Sample.images) log
    /\ Forall (fun s => is_category (saved_cat s) /\ saved_ext s ∈ exts) log
    /\ forall cat,
         indices_of cat log
         = consecutive (default 1%Z ((∅ : gmap string Z) !! cat))
                       (length (indices_of cat log)).
Proof.
  apply (download_numbering_gap_free
           Sample.accept_all Sample.missing_get Sample.images Scenario.batch
           ∅ Sample.st0 (fst Scenario.batch_run) (snd Scenario.batch_run)).
  apply surjective_pairing.
Defined.

Lemma download_never_overwrites_witness :
  exists ev,
    trace (snd Scenario.batch_run) = trace Sample.st0 ++ ev
    /\ NoDup (map fst (writes ev)).
Proof.
  apply (download_never_overwrites
           Sample.accept_all Sample.missing_get Sample.images Scenario.batch
           ∅ Sample.st0 (fst Scenario.batch_run) (snd Scenario.batch_run)).
  apply surjective_pairing.
Defined.

Lemma scan_probes_in_order_witness :
  exists st' ev n,
    scan_codes Sample.first_card_unavailable Sample.two_cards_head Sample.fields
               "OGS" "full-desktop.jpg" Scenario.ogs_dir 3 (range 1 2000) 0 1
               Sample.st0 = (Ok tt, st')
    /\ trace st' = trace Sample.st0 ++ ev
    /\ heads ev = map (cand "OGS" "full-desktop.jpg") (take n (range 1 2000))
    /\ gets ev `sublist_of` heads ev
    /\ (length (writes ev) <= length (gets ev))%nat
    /\ mkdirs ev = [].
Proof.
  apply (scan_probes_in_order
           Sample.first_card_unavailable Sample.two_cards_head Sample.fields
           "OGS" "full-desktop.jpg" Scenario.ogs_dir 3 (range 1 2000) 0 1 Sample.st0).
  split; reflexivity.
Defined.

Lemma scan_all_misses_witness :
  exists w',
    scan_codes Sample.always_get Scenario.never_head Sample.fields
               "OGS" "full-desktop.jpg" Scenario.ogs_dir 3 (range 1 2000) 0 1
               Sample.st0
    = (Ok tt,
       mkSt w' (trace Sample.st0 ++
                  map (fun i => EHead (cand "OGS" "full-desktop.jpg" i))
                      (take (misses_to_stop 3 0) (range 1 2000)))).
Proof.
  apply (scan_all_misses
           Sample.always_get Scenario.never_head Sample.fields
           "OGS" "full-desktop.jpg" Scenario.ogs_dir 3 (range 1 2000)).
  - split; reflexivity.
  - intros i w. reflexivity.
Defined.

Lemma fallback_visits_every_prefix_witness :
  exists st' ev,
    fallback_guess_by_prefixes Sample.always_get Sample.two_cards_head Sample.fields
      Sample.images ["OGS"; "OGN"] 1 3 None Sample.st0 = (Ok tt, st')
    /\ trace st' = trace Sample.st0 ++ ev
    /\ mkdirs ev
       = pathlib.to_str Sample.images
         :: map (fun p => pathlib.to_str (pathlib.truediv Sample.images p))
                ["OGS"; "OGN"]
    /\ (length (heads ev) <= length ["OGS"; "OGN"] * Z.to_nat (2000 - 1))%nat.
Proof.
  apply (fallback_visits_every_prefix
           Sample.always_get Sample.two_cards_head Sample.fields
           Sample.images ["OGS"; "OGN"] 1 3 None Sample.st0).
  repeat constructor.
Defined.

Lemma scan_never_overwrites_witness :
  map fst (writes (trace (snd Scenario.field_run)))
  = ["images/{code!s}/001.jpg"; "images/{code!s}/002.jpg"; "images/{code!s}/003.jpg"]
  /\ exists ev,
       trace (snd Scenario.field_run) = trace Sample.st0 ++ ev
       /\ NoDup (map fst (writes ev)).
Proof.
  split; [reflexivity|].
  apply (scan_never_overwrites
           Sample.always_get Scenario.always_head Sample.fields
           Scenario.field_prefix "full-desktop.jpg"
           (pathlib.truediv Sample.images Scenario.field_prefix) 3 [1; 2; 3]%Z 0 1
           Sample.st0 (fst Scenario.field_run) (snd Scenario.field_run)).
  apply surjective_pairing.
Defined.

Lemma normalize_has_no_query_no_fragment_witness :
  Py.contains "?" "https://example.com/img/card.png" = false
  /\ Py.contains "#" "https://example.com/img/card.png" = false.
Proof.
  apply (normalize_has_no_query_no_fragment
           Sample.accept_all "https://example.com/img/card.png?v=1#top").
  reflexivity.
Defined.

Lemma extract_keeps_collection_order_witness :
  exists urls,
    collect_urls Sample.accept_all Sample.gallery_parser
                 Sample.gallery_html Sample.gallery_base = Ok urls
    /\ ["https://example.com/img/card.png?v=1";
        "https://example.com/cards/a.JPG";
        "https://example.com/cards/b.webp"] `sublist_of` candidates urls.
Proof.
  apply (extract_keeps_collection_order
           Sample.accept_all Sample.gallery_parser
           Sample.gallery_html Sample.gallery_base).
  vm_compute. reflexivity.
Defined.

Lemma extract_no_empty_no_protocol_relative_witness :
  "https://example.com/cards/b.webp" <> EmptyString
  /\ Py.startswith "https://example.com/cards/b.webp" "//" = false.
Proof.
  apply (extract_no_empty_no_protocol_relative
           Sample.accept_all Sample.gallery_parser
           Sample.gallery_html Sample.gallery_base
           ["https://example.com/img/card.png?v=1";
            "https://example.com/cards/a.JPG";
            "https://example.com/cards/b.webp"]).
  - vm_compute. reflexivity.
  - repeat constructor.
Defined.

Lemma extract_aborts_on_bad_reference_witness :
  exists e',
    extract_image_urls Sample.accept_all Scenario.bad_ref_parser
                       Sample.gallery_html Sample.gallery_base = Raise e'.
Proof.
  apply (extract_aborts_on_bad_reference
           Sample.accept_all Scenario.bad_ref_parser
           Sample.gallery_html Sample.gallery_base Scenario.bad_img "//[x" ValueError).
  - apply list_elem_of_In. vm_compute. tauto.
  - apply list_elem_of_In. vm_compute. tauto.
  - reflexivity.
Defined.

Lemma cdn_matches_are_clean_urls_witness :
  (exists before after,
      Scenario.script_html
      = before +:+ re.group0 Scenario.script_match +:+ after)
  /\ Py.startswith (Py.lower (re.group0 Scenario.script_match)) "http" = true
  /\ Py.forallb tail_char (re.group0 Scenario.script_match) = true.
Proof.
  apply (cdn_matches_are_clean_urls Scenario.script_html Scenario.script_match).
  apply list_elem_of_In. vm_compute. tauto.
Defined.

Lemma main_page_failure_is_fatal_witness :
  exists e st',
    main Sample.accept_all Sample.gallery_parser Scenario.down_get
         Scenario.never_head Sample.fields Scenario.page_text default_args Sample.st0 = (e, st')
    /\ e <> Returned
    /\ trace st' = trace Sample.st0 ++ [EGet URL].
Proof.
  apply (main_page_failure_is_fatal
           Sample.accept_all Sample.gallery_parser Scenario.down_get
           Scenario.never_head Sample.fields Scenario.page_text default_args Sample.st0).
  cbn. lia.
Defined.

Lemma main_downloads_in_sorted_order_witness :
  exists st' ev,
    main Sample.accept_all Sample.gallery_parser Scenario.listing_get
         Scenario.never_head Sample.fields Scenario.page_text default_args Sample.st0
    = (Returned, st')
    /\ trace st' = trace Sample.st0 ++ EGet URL :: ev
    /\ gets ev
       = sorted ["https://riftbound.leagueoflegends.com/img/card.png?v=1";
                 "https://riftbound.leagueoflegends.com/en-us/tcg-cards/a.JPG";
                 "https://riftbound.leagueoflegends.com/en-us/tcg-cards/b.webp"]
    /\ heads ev = []
    /\ StronglySorted str_le
         (sorted ["https://riftbound.leagueoflegends.com/img/card.png?v=1";
                  "https://riftbound.leagueoflegends.com/en-us/tcg-cards/a.JPG";
                  "https://riftbound.leagueoflegends.com/en-us/tcg-cards/b.webp"])
    /\ sorted ["https://riftbound.leagueoflegends.com/img/card.png?v=1";
               "https://riftbound.leagueoflegends.com/en-us/tcg-cards/a.JPG";
               "https://riftbound.leagueoflegends.com/en-us/tcg-cards/b.webp"]
       ≡ₚ ["https://riftbound.leagueoflegends.com/img/card.png?v=1";
           "https://riftbound.leagueoflegends.com/en-us/tcg-cards/a.JPG";
           "https://riftbound.leagueoflegends.com/en-us/tcg-cards/b.webp"]
    /\ forall args',
         main Sample.accept_all Sample.gallery_parser Scenario.listing_get
              Scenario.never_head Sample.fields Scenario.page_text args' Sample.st0
         = main Sample.accept_all Sample.gallery_parser Scenario.listing_get
                Scenario.never_head Sample.fields Scenario.page_text default_args Sample.st0.
Proof.
  apply (main_downloads_in_sorted_order
           Sample.accept_all Sample.gallery_parser Scenario.listing_get
           Scenario.never_head Sample.fields Scenario.page_text default_args Sample.st0
           (mkResponse 200 Sample.gallery_html) tt).
  - reflexivity.
  - reflexivity.
  - vm_compute. reflexivity.
  - discriminate.
Defined.

Lemma main_falls_back_to_probing_witness :
  exists st',
    main Sample.accept_all Scenario.no_img_parser Scenario.listing_get
         Scenario.never_head Sample.fields Scenario.page_text
         Scenario.custom_args Sample.st0
    = (Returned, st')
    /\ trace st'
       = [EGet URL; EMkdir "images"; EMkdir "images/OGN";
          EHead (cand "OGN" "thumbnail.jpg" 7);
          EHead (cand "OGN" "thumbnail.jpg" 8)].
Proof.
  destruct (main_falls_back_to_probing
              Sample.accept_all Scenario.no_img_parser Scenario.listing_get
              Scenario.never_head Sample.fields Scenario.page_text
              Scenario.custom_args Sample.st0
              (mkResponse 200 Sample.gallery_html) tt)
    as (st' & ev & Hrun & Ht & _ & _ & _ & Hev).
  - reflexivity.
  - reflexivity.
  - vm_compute. reflexivity.
  - repeat constructor.
  - exists st'. split; [exact Hrun|].
    rewrite Ht, (Hev (fun u w => eq_refl)). reflexivity.
Defined.
